(** * CNIC capture form: a shallow embedding of the upload adapter, the
      submission handler and the camera capture flow.

    The repository holds two copies of the component:
    - [src/components/ImageUploader.jsx], embedded in [Module ImageUploader];
    - an older copy of the same page ([src/unnamed/part_000]), embedded in
      [Module Part000].
    The utilities [base64ToFile] and [getBase64] are textually the same in
    both copies and are embedded once.

    Conventions.
    - A JavaScript string is a [string]; every character is one code unit in
      the range 0..255 (data URLs are ASCII).
    - A function that can throw returns a [completion].
    - React state is an explicit record; a handler is a function on it, and
      where it can throw it returns the state it leaves with the exception.
    - A ref is an [option]: [None] is a [null] [current].
    - Calls that leave the module (notifications, timers, the callbacks
      handed in by the parent) are appended to an effect log, oldest first. *)

From Stdlib Require Import ZArith QArith Floats Lia Ascii String.
From stdpp Require Import base option list strings pretty.

Set Warnings "-inexact-float".

Local Open Scope string_scope.
Local Open Scope list_scope.
Local Open Scope Z_scope.

(** ** JavaScript completions *)

Inductive js_error : Type :=
  | TypeError (what : string)
  | ReferenceError (name : string)
  | InvalidCharacterError
  | SyntaxError
  | NetworkError (msg : string).

Inductive completion (A : Type) : Type :=
  | Normal (a : A)
  | Throw (e : js_error).
Arguments Normal {A} a.
Arguments Throw {A} e.

Definition cbind {A B} (c : completion A) (k : A -> completion B) : completion B :=
  match c with
  | Normal a => k a
  | Throw e => Throw e
  end.

Notation "'let!' x ':=' c 'in' k" := (cbind c (fun x => k))
  (at level 10, x name, c at level 100, k at level 200).

Definition is_Normal {A} (c : completion A) : bool :=
  match c with Normal _ => true | Throw _ => false end.

(** ** Strings *)

Definition char_code (c : ascii) : Z := Z.of_N (N_of_ascii c).
Definition char_of_code (z : Z) : ascii := ascii_of_N (Z.to_N z).

Definition comma : ascii := ","%char.
Definition colon : ascii := ":"%char.
Definition semicolon : ascii := ";"%char.

(** [s.split(sep)] for a one-character separator: never empty. *)
Fixpoint split_on (sep : ascii) (s : string) : list string :=
  match s with
  | EmptyString => [EmptyString]
  | String c s' =>
      let r := split_on sep s' in
      if Ascii.eqb c sep then EmptyString :: r
      else match r with
           | x :: xs => String c x :: xs
           | [] => [String c EmptyString]
           end
  end.

(** [arr[i]]: [None] is [undefined]. *)
Definition js_index {A} (arr : list A) (i : nat) : option A := nth_error arr i.

(** [s.startsWith(p)] *)
Fixpoint startsWith (p s : string) : bool :=
  match p, s with
  | EmptyString, _ => true
  | String a p', String b s' => Ascii.eqb a b && startsWith p' s'
  | String _ _, EmptyString => false
  end.

(** A regular expression's [.] matches any character but a line terminator
    (LF and CR in the 0..255 range). *)
Definition is_line_terminator (c : ascii) : bool :=
  (char_code c =? 10) || (char_code c =? 13).

(** The tail [(.*?);] of the pattern, anchored at the head of [s]: the lazy
    group takes as few characters as possible, so it stops at the first
    semicolon, and fails when a line terminator or the end comes first. *)
Fixpoint lazy_group_semicolon (s : string) : option string :=
  match s with
  | EmptyString => None
  | String c s' =>
      if Ascii.eqb c semicolon then Some EmptyString
      else if is_line_terminator c then None
      else match lazy_group_semicolon s' with
           | Some g => Some (String c g)
           | None => None
           end
  end.

(** [s.match(/:(.*?);/)]: the leftmost start position that matches wins;
    the result is capture group 1, [None] is [null]. *)
Fixpoint match_mime (s : string) : option string :=
  match s with
  | EmptyString => None
  | String c s' =>
      if Ascii.eqb c colon then
        match lazy_group_semicolon s' with
        | Some g => Some g
        | None => match_mime s'
        end
      else match_mime s'
  end.

(** ** Base64 ([atob], and the encoder behind [FileReader.readAsDataURL]) *)

Definition is_ascii_whitespace (c : ascii) : bool :=
  let n := char_code c in
  (n =? 9) || (n =? 10) || (n =? 12) || (n =? 13) || (n =? 32).

Fixpoint remove_whitespace (s : string) : list ascii :=
  match s with
  | EmptyString => []
  | String c s' =>
      if is_ascii_whitespace c then remove_whitespace s'
      else c :: remove_whitespace s'
  end.

Definition equals_sign : ascii := "="%char.

(** Drop one or two trailing [=] (step 2 of forgiving-base64 decode, applied
    when the length is a multiple of four). *)
Definition strip_padding (l : list ascii) : list ascii :=
  match rev l with
  | a :: b :: r =>
      if Ascii.eqb a equals_sign then
        if Ascii.eqb b equals_sign then rev r else rev (b :: r)
      else l
  | [a] => if Ascii.eqb a equals_sign then [] else l
  | [] => l
  end.

(** Position of a character in the base64 alphabet. *)
Definition b64_index (c : ascii) : option Z :=
  let n := char_code c in
  if (65 <=? n) && (n <=? 90) then Some (n - 65)
  else if (97 <=? n) && (n <=? 122) then Some (n - 71)
  else if (48 <=? n) && (n <=? 57) then Some (n + 4)
  else if n =? 43 then Some 62
  else if n =? 47 then Some 63
  else None.

Definition b64_char (i : Z) : ascii :=
  if i <? 26 then char_of_code (i + 65)
  else if i <? 52 then char_of_code (i + 71)
  else if i <? 62 then char_of_code (i - 4)
  else if i =? 62 then "+"%char
  else "/"%char.

Fixpoint sextets (l : list ascii) : option (list Z) :=
  match l with
  | [] => Some []
  | c :: l' =>
      match b64_index c, sextets l' with
      | Some i, Some r => Some (i :: r)
      | _, _ => None
      end
  end.

(** Four sextets give three bytes; a tail of three gives two bytes and a tail
    of two gives one, the spare low bits being discarded. *)
Fixpoint decode_sextets (l : list Z) : list Z :=
  match l with
  | a :: b :: c :: d :: rest =>
      let n := Z.lor (Z.lor (Z.lor (Z.shiftl a 18) (Z.shiftl b 12)) (Z.shiftl c 6)) d in
      Z.land (Z.shiftr n 16) 255 :: Z.land (Z.shiftr n 8) 255 :: Z.land n 255
        :: decode_sextets rest
  | [a; b; c] =>
      let n := Z.lor (Z.lor (Z.shiftl a 12) (Z.shiftl b 6)) c in
      [Z.land (Z.shiftr n 10) 255; Z.land (Z.shiftr n 2) 255]
  | [a; b] =>
      let n := Z.lor (Z.shiftl a 6) b in
      [Z.land (Z.shiftr n 4) 255]
  | _ => []
  end.

Fixpoint string_of_codes (l : list Z) : string :=
  match l with
  | [] => EmptyString
  | z :: l' => String (char_of_code z) (string_of_codes l')
  end.

(** [atob(data)] on a string: the binary string, or InvalidCharacterError. *)
Definition atob (data : string) : completion string :=
  let d := remove_whitespace data in
  let d := if (Z.of_nat (length d) mod 4 =? 0) then strip_padding d else d in
  if Z.of_nat (length d) mod 4 =? 1 then Throw InvalidCharacterError
  else match sextets d with
       | None => Throw InvalidCharacterError
       | Some sx => Normal (string_of_codes (decode_sextets sx))
       end.

(** [atob(x)] where [x] may be [undefined]: the argument is first converted
    to a string, and [undefined] becomes the nine letters of its name. *)
Definition atob_arg (x : option string) : completion string :=
  match x with
  | Some s => atob s
  | None => atob "undefined"
  end.

(** Encoder: three bytes give four characters. *)
Fixpoint btoa_bytes (l : list Z) : list ascii :=
  match l with
  | a :: b :: c :: rest =>
      let n := Z.lor (Z.lor (Z.shiftl a 16) (Z.shiftl b 8)) c in
      b64_char (Z.land (Z.shiftr n 18) 63) :: b64_char (Z.land (Z.shiftr n 12) 63)
        :: b64_char (Z.land (Z.shiftr n 6) 63) :: b64_char (Z.land n 63)
        :: btoa_bytes rest
  | [a; b] =>
      let n := Z.lor (Z.shiftl a 16) (Z.shiftl b 8) in
      [b64_char (Z.land (Z.shiftr n 18) 63); b64_char (Z.land (Z.shiftr n 12) 63);
       b64_char (Z.land (Z.shiftr n 6) 63); equals_sign]
  | [a] =>
      let n := Z.shiftl a 16 in
      [b64_char (Z.land (Z.shiftr n 18) 63); b64_char (Z.land (Z.shiftr n 12) 63);
       equals_sign; equals_sign]
  | [] => []
  end.

(** ** Files *)

(** A [File]: the bytes (each 0..255), the name and the [type] option it was
    built with. [file.size] is the number of bytes. *)
Record File : Type := mkFile {
  file_bits : list Z;
  file_name : string;
  file_type : string
}.

Definition file_size (f : File) : Z := Z.of_nat (length (file_bits f)).

(** U+0020..U+007E *)
Definition is_printable (c : ascii) : bool :=
  (32 <=? char_code c) && (char_code c <=? 126).

(** ASCII lower case of one code unit. *)
Definition to_lower (c : ascii) : ascii :=
  if (65 <=? char_code c) && (char_code c <=? 90) then char_of_code (char_code c + 32)
  else c.

Fixpoint all_printable (s : string) : bool :=
  match s with
  | EmptyString => true
  | String c s' => is_printable c && all_printable s'
  end.

Fixpoint lower_case (s : string) : string :=
  match s with
  | EmptyString => EmptyString
  | String c s' => String (to_lower c) (lower_case s')
  end.

(** The [type] of the file that [new File(bits, name, { type })] makes: the
    empty string when the option holds a character outside U+0020..U+007E,
    the option in ASCII lower case otherwise. *)
Definition file_type_option (type : string) : string :=
  if all_printable type then lower_case type else EmptyString.

(** [new File([bits], name, { type })] *)
Definition new_File (bits : list Z) (name type : string) : File :=
  mkFile bits name (file_type_option type).

(** [bstr.charCodeAt(n)] for [n] inside the string. *)
Definition charCodeAt (s : string) (n : nat) : Z :=
  match String.get n s with
  | Some c => char_code c
  | None => 0
  end.

(** The loop [while (n--) { u8arr[n] = bstr.charCodeAt(n); }]: the test reads
    [n], then decrements it, and the body writes at the decremented index.
    A [Uint8Array] store keeps the value modulo 256. *)
Fixpoint copy_loop (bstr : string) (n : nat) (u8arr : list Z) : list Z :=
  match n with
  | O => u8arr
  | S n' => copy_loop bstr n' (<[n' := charCodeAt bstr n' mod 256]> u8arr)
  end.

(** [base64ToFile(base64, fileName)], lines 8-18 of ImageUploader.jsx (19-29
    of the older copy). *)
Definition base64ToFile (base64 fileName : string) : completion File :=
  let arr := split_on comma base64 in
  match js_index arr 0 with
  | None => Throw (TypeError "arr[0] is undefined")
  | Some header =>
      match match_mime header with
      | None => Throw (TypeError "match returned null")
      | Some mime =>
          let! bstr := atob_arg (js_index arr 1) in
          let n := String.length bstr in
          let u8arr := replicate n 0 in
          Normal (new_File (copy_loop bstr n u8arr) fileName mime)
      end
  end.

(** The media type [FileReader.readAsDataURL] writes: the type of the file,
    or application/octet-stream for a file whose type is empty. *)
Definition reader_type (f : File) : string :=
  if String.eqb (file_type f) "" then "application/octet-stream" else file_type f.

(** [FileReader.readAsDataURL(file)], the value later handed to the callback
    of [getBase64] (lines 20-24). *)
Definition readAsDataURL (f : File) : string :=
  "data:" +:+ reader_type f +:+ ";base64," +:+ string_of_list_ascii (btoa_bytes (file_bits f)).

(** ** Values, objects and notifications *)

(** The JavaScript values that reach the form handlers. *)
Inductive value : Type :=
  | VUndefined
  | VNull
  | VBool (b : bool)
  | VNumber (n : Z)
  | VString (s : string)
  | VFile (f : File).

(** ToBoolean *)
Definition truthy (v : value) : bool :=
  match v with
  | VUndefined | VNull => false
  | VBool b => b
  | VNumber n => negb (n =? 0)
  | VString s => negb (String.eqb s "")
  | VFile _ => true
  end.

(** A plain object used as a map, as the list of its own properties in
    insertion order (the order [Object.entries] walks for keys that are not
    array indices). *)
Definition jsobj (V : Type) : Type := list (string * V).

Fixpoint obj_get {V} (o : jsobj V) (k : string) : option V :=
  match o with
  | [] => None
  | (k', v) :: o' => if String.eqb k' k then Some v else obj_get o' k
  end.

(** [{ ...prev, [k]: v }]: an existing key keeps its place and takes the new
    value, a new key goes last. *)
Fixpoint obj_set {V} (k : string) (v : V) (prev : jsobj V) : jsobj V :=
  match prev with
  | [] => [(k, v)]
  | (k', v') :: o' =>
      if String.eqb k' k then (k, v) :: o' else (k', v') :: obj_set k v o'
  end.

(** Calls into antd's [message] and [notification]. *)
Inductive notice : Type :=
  | MessageError (text : string)
  | NotificationInfo (message description : string)
  | NotificationSuccess (message description : string)
  | NotificationError (message description : string).

(** ** Validation *)

(** [file.size / 1024 / 1024]. Dividing an integer below 2^53 by 1024 is exact
    in binary64, so the quotient is the rational one. *)
Definition size_in_MiB (f : File) : Q :=
  (inject_Z (file_size f) / inject_Z 1024 / inject_Z 1024)%Q.

(** ** The form page: state *)

(** What the file picker hands to [onChange] as [info.file]: its [status],
    its [originFileObj] property ([VUndefined] when absent) and the object
    itself read as a file. *)
Record UploadFile : Type := mkUploadFile {
  uf_status : option string;
  uf_originFileObj : value;
  uf_self : File
}.

(** [info.file.originFileObj || info.file] *)
Definition origin_or_self (info : UploadFile) : value :=
  if truthy (uf_originFileObj info) then uf_originFileObj info
  else VFile (uf_self info).

(** One entry of a [FormData] body. *)
Definition FormData : Type := list (string * value).

(** State of [App] (lines 367-372), the antd form store, and what has left
    the component: notifications shown, requests sent, and the [FileReader]
    reads still in flight, each with the slot its callback will write. *)
Record AppState : Type := mkApp {
  form_fields : jsobj value;
  loading : bool;
  fileList : jsobj value;
  imagePreviews : jsobj string;
  showCamera : bool;
  currentCameraField : option string;
  readers : list (string * File);
  notices : list notice;
  requests : list FormData
}.

Definition initial_app (fields : jsobj value) : AppState :=
  mkApp fields false [] [] false None [] [] [].

Definition set_fileList (x : jsobj value) (st : AppState) : AppState :=
  mkApp (form_fields st) (loading st) x (imagePreviews st) (showCamera st)
        (currentCameraField st) (readers st) (notices st) (requests st).
Definition set_imagePreviews (x : jsobj string) (st : AppState) : AppState :=
  mkApp (form_fields st) (loading st) (fileList st) x (showCamera st)
        (currentCameraField st) (readers st) (notices st) (requests st).
Definition set_form_fields (x : jsobj value) (st : AppState) : AppState :=
  mkApp x (loading st) (fileList st) (imagePreviews st) (showCamera st)
        (currentCameraField st) (readers st) (notices st) (requests st).
Definition set_loading (x : bool) (st : AppState) : AppState :=
  mkApp (form_fields st) x (fileList st) (imagePreviews st) (showCamera st)
        (currentCameraField st) (readers st) (notices st) (requests st).
Definition set_showCamera (x : bool) (st : AppState) : AppState :=
  mkApp (form_fields st) (loading st) (fileList st) (imagePreviews st) x
        (currentCameraField st) (readers st) (notices st) (requests st).
Definition set_currentCameraField (x : option string) (st : AppState) : AppState :=
  mkApp (form_fields st) (loading st) (fileList st) (imagePreviews st) (showCamera st)
        x (readers st) (notices st) (requests st).
Definition set_readers (x : list (string * File)) (st : AppState) : AppState :=
  mkApp (form_fields st) (loading st) (fileList st) (imagePreviews st) (showCamera st)
        (currentCameraField st) x (notices st) (requests st).
Definition add_notices (x : list notice) (st : AppState) : AppState :=
  mkApp (form_fields st) (loading st) (fileList st) (imagePreviews st) (showCamera st)
        (currentCameraField st) (readers st) (notices st ++ x) (requests st).
Definition add_request (x : FormData) (st : AppState) : AppState :=
  mkApp (form_fields st) (loading st) (fileList st) (imagePreviews st) (showCamera st)
        (currentCameraField st) (readers st) (notices st) (requests st ++ [x]).

(** The state a handler leaves behind, and the exception it ended with, if
    any. State updates queued before the exception are kept. *)
Definition outcome : Type := AppState * option js_error.

(** [getBase64(file, url => setImagePreviews(...))], lines 20-24: starts a
    read whose [load] callback will set the preview of [slot].
    [readAsDataURL] throws on anything that is not a Blob. *)
Definition getBase64 (slot : string) (file : value) (st : AppState) : outcome :=
  match file with
  | VFile f => (set_readers (readers st ++ [(slot, f)]) st, None)
  | _ => (st, Some (TypeError "readAsDataURL: parameter 1 is not of type Blob"))
  end.

(** The [load] callback of the [i]-th read in flight:
    [setImagePreviews(prev => ({ ...prev, [slot]: url }))]. *)
Definition reader_load (i : nat) (st : AppState) : AppState :=
  match readers st !! i with
  | None => st
  | Some (slot, f) =>
      set_imagePreviews (obj_set slot (readAsDataURL f) (imagePreviews st))
        (set_readers (delete i (readers st)) st)
  end.

(** [typeof file === 'string' && file.startsWith('data:')], then
    [base64ToFile(file, `${fieldName}-${Date.now()}.jpg`)]. *)
Definition convert_data_url (fieldName : string) (now : Z) (file : value)
  : completion value :=
  match file with
  | VString s =>
      if startsWith "data:" s then
        let! f := base64ToFile s (fieldName +:+ "-" +:+ pretty now +:+ ".jpg") in
        Normal (VFile f)
      else Normal file
  | _ => Normal file
  end.

(** The part of [handleFileChange] both copies share: stage the binary, then
    start the preview read (lines 379-385; 362-382 of the older copy). *)
Definition stage_and_preview (fieldName : string) (now : Z) (info : UploadFile)
    (st : AppState) : outcome :=
  match convert_data_url fieldName now (origin_or_self info) with
  | Throw e => (st, Some e)
  | Normal file =>
      getBase64 fieldName file (set_fileList (obj_set fieldName file (fileList st)) st)
  end.

(** [info.file.status === 'uploading'] *)
Definition is_uploading (info : UploadFile) : bool :=
  match uf_status info with
  | Some s => String.eqb s "uploading"
  | None => false
  end.

(** [handleCameraCapture], lines 388-395 (389-409 of the older copy, the
    same code). The function is made anew by every render of [App] and
    closes over that render's [currentCameraField] ([null] or a slot
    name), here [field]; its setters act on the state at the time of the
    call. The camera calls the function it was handed when accept was
    pressed, so [field] is the slot held at that moment. *)
Definition handleCameraCapture (field : option string) (file : File) (st : AppState)
  : outcome :=
  let r :=
    match field with
    | Some slot =>
        if truthy (VString slot) then
          getBase64 slot (VFile file)
            (set_fileList (obj_set slot (VFile file) (fileList st)) st)
        else (st, None)
    | None => (st, None)
    end in
  (set_currentCameraField None (set_showCamera false (fst r)), snd r).

(** [openCamera], lines 397-400. *)
Definition openCamera (fieldName : string) (st : AppState) : AppState :=
  set_showCamera true (set_currentCameraField (Some fieldName) st).

(** The [onClose] prop given to the camera, lines 485-488. *)
Definition closeCamera (st : AppState) : AppState :=
  set_currentCameraField None (set_showCamera false st).

(** ** Submission *)

(** The [Response] a resolved [fetch] gives: [ok], [status], the text of
    the body (empty for a response without content: the body stream is
    there all the same) and whether that text parses as JSON. *)
Record Response : Type := mkResponse {
  resp_ok : bool;
  resp_status : Z;
  resp_body : string;
  resp_body_is_json : bool
}.

(** What reading a spent body rejects with (the wording is Chromium's). *)
Definition already_read (method : string) : js_error :=
  TypeError ("Failed to execute '" +:+ method +:+ "' on 'Response': body stream already read").

(** [await response.json()], with [used] telling whether the body was read
    before, and the flag afterwards. A body is a stream that can be read
    once: a second read rejects with a TypeError. Reading consumes the
    stream whether or not the text then parses. *)
Definition response_json (r : Response) (used : bool) : completion unit * bool :=
  if used then (Throw (already_read "json"), used)
  else if resp_body_is_json r then (Normal tt, true)
  else (Throw SyntaxError, true).

(** [await response.text()] *)
Definition response_text (r : Response) (used : bool) : completion string * bool :=
  if used then (Throw (already_read "text"), used)
  else (Normal (resp_body r), true).

Inductive fetch_result : Type :=
  | FetchResolved (r : Response)
  | FetchRejected (e : js_error).

(** [error.message] *)
Definition error_message (e : js_error) : string :=
  match e with
  | TypeError what => what
  | ReferenceError name => name +:+ " is not defined"
  | InvalidCharacterError => "The string to be decoded is not correctly encoded."
  | SyntaxError => "Unexpected token"
  | NetworkError msg => msg
  end.

(** [a || b] on strings *)
Definition or_else (a b : string) : string :=
  if String.eqb a "" then b else a.

(** [value !== undefined && value !== null && value !== ''] *)
Definition is_filled (v : value) : bool :=
  match v with
  | VUndefined | VNull => false
  | VString s => negb (String.eqb s "")
  | _ => true
  end.

(** [Object.entries(o).forEach(([key, v]) => { if (keep v) formData.append(key, v); })] *)
Definition append_entries (keep : value -> bool) (o : jsobj value) (formData : FormData)
  : FormData :=
  fold_left (fun fd kv => if keep (snd kv) then fd ++ [kv] else fd) o formData.

(** The body assembled by [handleSubmit], lines 407-413 (428-440 of the
    older copy). *)
Definition build_form_data (values fileList : jsobj value) : FormData :=
  append_entries truthy fileList (append_entries is_filled values []).

(** [form.resetFields()]: the form declares no initial values, so every
    registered field goes back to [undefined]. *)
Definition resetFields (fields : jsobj value) : jsobj value :=
  map (fun kv => (fst kv, VUndefined)) fields.

(** [handleSubmit] up to the [await fetch(...)]: busy flag, the "Submitting"
    notice, the body, the request. *)
Definition handleSubmit_begin (values : jsobj value) (st : AppState) : AppState :=
  let st := set_loading true st in
  let st := add_notices [NotificationInfo "Submitting..." "Submitting update..."] st in
  add_request (build_form_data values (fileList st)) st.

(** The success branch shared by both copies: notice, then the three
    resets. *)
Definition on_success (st : AppState) : AppState :=
  let st := add_notices [NotificationSuccess "Success" "Order updated successfully!"] st in
  set_imagePreviews [] (set_fileList [] (set_form_fields (resetFields (form_fields st)) st)).

(** ** The capture flow: state *)

(** JavaScript numbers are binary64 floats; the DOM attributes read by the
    capture code ([readyState], [videoWidth], [videoHeight], [clientWidth],
    [clientHeight]) are integers, converted here. *)
Definition num (z : Z) : float :=
  if z <? 0 then PrimFloat.opp (PrimFloat.of_uint63 (Uint63.of_Z (- z)))
  else PrimFloat.of_uint63 (Uint63.of_Z z).

Definition CNIC_ASPECT_RATIO : float := 1.586%float.
Definition HAVE_ENOUGH_DATA : Z := 4.

(** A [MediaStream], as the ids of its tracks. *)
Definition Stream : Type := list nat.

(** The [<video>] element behind [videoRef]. [videoWidth] and [videoHeight]
    are optional because the newer copy gives them destructuring defaults;
    [handlers] records whether [onloadedmetadata] has been installed. *)
Record Video : Type := mkVideo {
  srcObject : option Stream;
  readyState : Z;
  videoWidth : option Z;
  videoHeight : option Z;
  clientWidth : Z;
  clientHeight : Z;
  handlers : bool
}.

(** A rectangle in pixels. *)
Record Rect : Type := mkRect {
  rect_x : float;
  rect_y : float;
  rect_w : float;
  rect_h : float
}.

(** One [context.drawImage(video, sx, sy, sw, sh, dx, dy, dw, dh)] call. *)
Record DrawCall : Type := mkDraw {
  draw_source : Rect;
  draw_dest : Rect
}.

(** The hidden [<canvas>] behind [canvasRef]: its size and the draw calls
    made since its bitmap was last cleared. *)
Record Canvas : Type := mkCanvas {
  canvas_width : Z;
  canvas_height : Z;
  canvas_calls : list DrawCall
}.

(** An encoded image, as [canvas.toDataURL(type, quality)] gives it: format,
    quality, pixel size, and the draw calls that made the bitmap. *)
Record Still : Type := mkStill {
  still_type : string;
  still_quality : float;
  still_width : Z;
  still_height : Z;
  still_calls : list DrawCall
}.

(** What the capture flow does to the outside. *)
Inductive cam_effect : Type :=
  | GetUserMedia
  | Play
  | TrackStop (id : nat)
  | ToBlob (type : string) (quality : float)
  | SetTimeout (callback : string) (ms : Z)
  | CamMessageError (text : string)
  | OnCapture (file : File)
  | OnClose.

(** State of one [CnicCamera] (lines 44-49), the camera tracks that were
    acquired and not stopped since, and the effect log. *)
Record Cam : Type := mkCam {
  videoRef : option Video;
  canvasRef : option Canvas;
  isStreaming : bool;
  error : option string;
  capturedImage : option Still;
  showPreview : bool;
  live_tracks : list nat;
  effects : list cam_effect
}.

Definition set_videoRef (x : option Video) (c : Cam) : Cam :=
  mkCam x (canvasRef c) (isStreaming c) (error c) (capturedImage c) (showPreview c)
        (live_tracks c) (effects c).
Definition set_canvasRef (x : option Canvas) (c : Cam) : Cam :=
  mkCam (videoRef c) x (isStreaming c) (error c) (capturedImage c) (showPreview c)
        (live_tracks c) (effects c).
Definition setIsStreaming (x : bool) (c : Cam) : Cam :=
  mkCam (videoRef c) (canvasRef c) x (error c) (capturedImage c) (showPreview c)
        (live_tracks c) (effects c).
Definition setError (x : option string) (c : Cam) : Cam :=
  mkCam (videoRef c) (canvasRef c) (isStreaming c) x (capturedImage c) (showPreview c)
        (live_tracks c) (effects c).
Definition setCapturedImage (x : option Still) (c : Cam) : Cam :=
  mkCam (videoRef c) (canvasRef c) (isStreaming c) (error c) x (showPreview c)
        (live_tracks c) (effects c).
Definition setShowPreview (x : bool) (c : Cam) : Cam :=
  mkCam (videoRef c) (canvasRef c) (isStreaming c) (error c) (capturedImage c) x
        (live_tracks c) (effects c).
Definition set_live_tracks (x : list nat) (c : Cam) : Cam :=
  mkCam (videoRef c) (canvasRef c) (isStreaming c) (error c) (capturedImage c)
        (showPreview c) x (effects c).
Definition emit (x : list cam_effect) (c : Cam) : Cam :=
  mkCam (videoRef c) (canvasRef c) (isStreaming c) (error c) (capturedImage c)
        (showPreview c) (live_tracks c) (effects c ++ x).

Definition set_srcObject (x : option Stream) (v : Video) : Video :=
  mkVideo x (readyState v) (videoWidth v) (videoHeight v) (clientWidth v)
          (clientHeight v) (handlers v).
Definition set_handlers (x : bool) (v : Video) : Video :=
  mkVideo (srcObject v) (readyState v) (videoWidth v) (videoHeight v) (clientWidth v)
          (clientHeight v) x.

(** [stream.getTracks().forEach(track => track.stop())] *)
Definition stop_tracks (s : Stream) (c : Cam) : Cam :=
  emit (map TrackStop s)
    (set_live_tracks (filter (fun t => t ∉ s) (live_tracks c)) c).

(** [stopCamera], lines 82-88 (99-106 of the older copy). *)
Definition stopCamera (c : Cam) : Cam :=
  match videoRef c with
  | Some video =>
      match srcObject video with
      | Some stream =>
          let c := stop_tracks stream c in
          let c := set_videoRef (Some (set_srcObject None video)) c in
          setIsStreaming false c
      | None => c
      end
  | None => c
  end.

(** [handleClose], lines 151-154 (198-201). *)
Definition handleClose (c : Cam) : Cam :=
  emit [OnClose] (stopCamera c).

(** [canvas.toDataURL(type, quality)] *)
Definition toDataURL (cv : Canvas) (type : string) (quality : float) : Still :=
  mkStill type quality (canvas_width cv) (canvas_height cv) (canvas_calls cv).

(** [confirmCapture], lines 128-138 (176-186): asks the canvas for a blob;
    the callback runs later. The canvas is rendered in every view, so
    [canvasRef.current] is read without a test. *)
Definition confirmCapture (c : Cam) : Cam * option js_error :=
  match capturedImage c with
  | None => (c, None)
  | Some _ =>
      match canvasRef c with
      | Some _ => (emit [ToBlob "image/jpeg" 0.9%float] c, None)
      | None => (c, Some (TypeError "canvasRef.current is null"))
      end
  end.

(** The bytes [new File([blob], ...)] holds: those of the blob, or the text
    "null" when [toBlob] could not encode and passed [null]. *)
Definition blob_part (blob : option (list Z)) : list Z :=
  match blob with
  | Some bytes => bytes
  | None => map char_code (list_ascii_of_string "null")
  end.

(** The callback given to [toBlob] (lines 131-134), run with the blob and
    the value of [Date.now()]. *)
Definition toBlob_callback (blob : option (list Z)) (now : Z) (c : Cam) : Cam :=
  let file := new_File (blob_part blob) ("cnic-" +:+ pretty now +:+ ".jpg") "image/jpeg" in
  stopCamera (emit [OnCapture file] c).

(** Which view the component renders (lines 255-267; 213-340): the
    [<video>] element is part of the camera view only. *)
Definition video_rendered (c : Cam) : bool :=
  match error c with
  | Some _ => false
  | None => negb (showPreview c)
  end.

(** A [<video>] element as React creates it: no stream, no frame, laid out
    at the default 300x150. *)
Definition fresh_video : Video := mkVideo None 0 (Some 0) (Some 0) 300 150 false.

(** A [<canvas>] element as React creates it (the default bitmap size). *)
Definition fresh_canvas : Canvas := mkCanvas 300 150 [].

(** React's commit after a handler: a ref holds its element while the element
    is rendered and [null] while it is not; a view that comes back gets a new
    element. *)
Definition commit (c : Cam) : Cam :=
  if video_rendered c then
    match videoRef c with
    | Some _ => c
    | None => set_videoRef (Some fresh_video) c
    end
  else set_videoRef None c.

(** How the [try] block of [captureImage] goes. *)
Inductive try_result : Type :=
  | Draws
  | DrawImageThrows
  | ToDataURLThrows.

(** What the environment delivers to a mounted capture flow. *)
Inductive cam_event : Type :=
  | EvGetUserMediaResolved (stream : Stream)
  | EvGetUserMediaRejected
  | EvVideoProps (ready width height cwidth cheight : Z)
  | EvLoadedMetadata
  | EvPlayResolved
  | EvPlayRejected
  | EvVideoError
  | EvClickCapture (env : try_result)
  | EvClickConfirm
  | EvBlobReady (blob : option (list Z)) (now : Z)
  | EvClickRetake
  | EvTimer (callback : string)
  | EvClickTryAgain
  | EvClickClose.

(** The browser updates the properties of the mounted [<video>]. *)
Definition video_props (ready width height cwidth cheight : Z) (c : Cam) : Cam :=
  match videoRef c with
  | Some v =>
      set_videoRef
        (Some (mkVideo (srcObject v) ready (Some width) (Some height) cwidth cheight
                       (handlers v))) c
  | None => c
  end.

(** The canvas after [canvas.width = 856; canvas.height = 540;]: assigning a
    size clears the bitmap. *)
Definition sized_canvas : Canvas := mkCanvas 856 540 [].

(** The destination rectangle of the capture: [0, 0, 856, 540]. *)
Definition output_rect : Rect := mkRect (num 0) (num 0) (num 856) (num 540).

(** [captureImage] from the sizing of the canvas on (lines 116-125;
    154-173): the two size assignments, then the [try] block with
    [drawImage], [toDataURL] and the two state updates, and the [catch]. *)
Definition draw_and_keep (env : try_result) (failure : string) (crop : Rect) (c : Cam) : Cam :=
  let drawn := mkCanvas 856 540 [mkDraw crop output_rect] in
  match env with
  | DrawImageThrows =>
      emit [CamMessageError failure] (set_canvasRef (Some sized_canvas) c)
  | ToDataURLThrows =>
      emit [CamMessageError failure] (set_canvasRef (Some drawn) c)
  | Draws =>
      let c := set_canvasRef (Some drawn) c in
      setShowPreview true (setCapturedImage (Some (toDataURL drawn "image/jpeg" 0.9%float)) c)
  end.

Module ImageUploader.

(** [beforeUpload], lines 26-40: the verdict and the errors shown. *)
Definition beforeUpload (file : File) : bool * list notice :=
  if negb (startsWith "image/" (file_type file)) then
    (false, [MessageError "You can only upload image files!"])
  else if Qle_bool (inject_Z 2) (size_in_MiB file) then
    (false, [NotificationError "File Too Large" "Image must be smaller than 2MB!"])
  else (true, []).

(** [beforeUpload] called on any value: a string has no [type], and
    [undefined.startsWith] throws. *)
Definition beforeUpload_value (v : value) : completion (bool * list notice) :=
  match v with
  | VFile f => Normal (beforeUpload f)
  | _ => Throw (TypeError "Cannot read properties of undefined (reading 'startsWith')")
  end.

(** [handleFileChange], lines 374-386, for a given binding of the free
    identifier [validateFile] ([None]: the name is not bound). *)
Definition handleFileChange_with
    (validateFile : option (value -> completion (bool * list notice)))
    (fieldName : string) (now : Z) (info : UploadFile) (st : AppState) : outcome :=
  if is_uploading info then (st, None)
  else
    match validateFile with
    | None => (st, Some (ReferenceError "validateFile"))
    | Some validate =>
        match validate (origin_or_self info) with
        | Throw e => (st, Some e)
        | Normal (ok, shown) =>
            let st := add_notices shown st in
            if negb ok then (st, None)
            else stage_and_preview fieldName now info st
        end
    end.

(** The module declares [base64ToFile], [getBase64], [beforeUpload] and the
    components, and imports from react, @ant-design/icons and antd only:
    nothing binds [validateFile]. *)
Definition module_scope_validateFile
  : option (value -> completion (bool * list notice)) := None.

Definition handleFileChange : string -> Z -> UploadFile -> AppState -> outcome :=
  handleFileChange_with module_scope_validateFile.

(** [handleSubmit] after the [await], lines 424-451. *)
Definition handleSubmit_end (res : fetch_result) (st : AppState) : AppState :=
  let st :=
    match res with
    | FetchResolved response =>
        if resp_ok response then on_success st
        else add_notices
               [NotificationError "Update Failed"
                  ("Failed to update order (Status: " +:+ pretty (resp_status response)
                   +:+ ").")] st
    | FetchRejected e =>
        add_notices
          [NotificationError "Error"
             ("Update failed: " +:+ or_else (error_message e) "Unknown error")] st
    end in
  set_loading false st.

Definition handleSubmit (values : jsobj value) (res : fetch_result) (st : AppState)
  : AppState :=
  handleSubmit_end res (handleSubmit_begin values st).

(** [startCamera] up to the [await], lines 54-65. *)
Definition startCamera_begin (c : Cam) : Cam :=
  let c := setIsStreaming false (setError None c) in
  let c :=
    match videoRef c with
    | Some video =>
        match srcObject video with
        | Some stream =>
            set_videoRef (Some (set_srcObject None video)) (stop_tracks stream c)
        | None => c
        end
    | None => c
    end in
  emit [GetUserMedia] c.

(** [startCamera] after the [await], lines 67-76: the new tracks are live
    from here on, attached to the element or not. *)
Definition startCamera_resolved (stream : Stream) (c : Cam) : Cam :=
  let c := set_live_tracks (live_tracks c ++ stream) c in
  match videoRef c with
  | Some video =>
      set_videoRef (Some (set_handlers true (set_srcObject (Some stream) video))) c
  | None => c
  end.

(** The [catch] of [startCamera], lines 77-79. *)
Definition startCamera_rejected (c : Cam) : Cam :=
  setError (Some "Unable to access camera. Please check permissions.") c.

(** [onloadedmetadata], lines 69-74: calls [play()]. *)
Definition onloadedmetadata (c : Cam) : Cam :=
  match videoRef c with
  | Some video => if handlers video then emit [Play] c else c
  | None => c
  end.

Definition play_resolved (c : Cam) : Cam := setIsStreaming true c.
Definition play_rejected (c : Cam) : Cam := setError (Some "Unable to start camera.") c.

(** [onerror], line 75. *)
Definition onerror (c : Cam) : Cam :=
  match videoRef c with
  | Some video => if handlers video then setError (Some "Camera error occurred.") c else c
  | None => c
  end.

(** Lines 101-113: the overlay on screen, then the same rectangle in the
    pixels of the frame. *)
Definition crop_region (videoWidth videoHeight displayWidth displayHeight : float) : Rect :=
  let overlayWidth := (displayWidth * 0.8)%float in
  let overlayHeight := (overlayWidth / CNIC_ASPECT_RATIO)%float in
  let overlayX := ((displayWidth - overlayWidth) / 2)%float in
  let overlayY := ((displayHeight - overlayHeight) / 2)%float in
  let scaleX := (videoWidth / displayWidth)%float in
  let scaleY := (videoHeight / displayHeight)%float in
  let cropX := (overlayX * scaleX)%float in
  let cropY := (overlayY * scaleY)%float in
  let cropWidth := (overlayWidth * scaleX)%float in
  let cropHeight := (overlayHeight * scaleY)%float in
  mkRect cropX cropY cropWidth cropHeight.

(** [captureImage], lines 90-126. *)
Definition captureImage (env : try_result) (c : Cam) : Cam :=
  match videoRef c, canvasRef c with
  | Some video, Some canvas =>
      if negb (readyState video =? HAVE_ENOUGH_DATA) then c
      else
        let videoWidth := default (clientWidth video) (videoWidth video) in
        let videoHeight := default (clientHeight video) (videoHeight video) in
        let displayWidth := clientWidth video in
        let displayHeight := clientHeight video in
        if (videoWidth =? 0) || (videoHeight =? 0) then c
        else
          draw_and_keep env "Failed to capture image."
            (crop_region (num videoWidth) (num videoHeight)
                         (num displayWidth) (num displayHeight)) c
  | _, _ => c
  end.

(** [retakePhoto], lines 140-144. *)
Definition retakePhoto (c : Cam) : Cam :=
  emit [SetTimeout "startCamera" 100] (setShowPreview false (setCapturedImage None c)).

(** The component on mount: both elements exist, nothing is set, and the
    effect of lines 146-149 has called [startCamera]. *)
Definition mounted : Cam :=
  startCamera_begin (mkCam (Some fresh_video) (Some fresh_canvas) false None None false [] []).

(** One event: the handler, when the control that fires it is on screen,
    then React's commit. *)
Definition step (ev : cam_event) (c : Cam) : Cam :=
  let in_preview := match error c with Some _ => false | None => showPreview c end in
  let in_camera := video_rendered c in
  let in_error := match error c with Some _ => true | None => false end in
  commit
    match ev with
    | EvGetUserMediaResolved stream => startCamera_resolved stream c
    | EvGetUserMediaRejected => startCamera_rejected c
    | EvVideoProps r w h cw ch => video_props r w h cw ch c
    | EvLoadedMetadata => onloadedmetadata c
    | EvPlayResolved => play_resolved c
    | EvPlayRejected => play_rejected c
    | EvVideoError => onerror c
    | EvClickCapture env =>
        if in_camera && isStreaming c then captureImage env c else c
    | EvClickConfirm => if in_preview then fst (confirmCapture c) else c
    | EvBlobReady blob now => toBlob_callback blob now c
    | EvClickRetake => if in_preview then retakePhoto c else c
    | EvTimer callback =>
        if String.eqb callback "startCamera" then startCamera_begin c else c
    | EvClickTryAgain => if in_error then startCamera_begin c else c
    | EvClickClose => handleClose c
    end.

Definition run (evs : list cam_event) (c : Cam) : Cam :=
  fold_left (fun c ev => step ev c) evs c.

End ImageUploader.

Module Part000.

(** [beforeUpload], lines 37-57 of the older copy. *)
Definition beforeUpload (file : File) : bool * list notice :=
  let isImage := startsWith "image/" (file_type file) in
  if negb isImage then
    (false, [MessageError "You can only upload image files!"])
  else
    let isLt2M := negb (Qle_bool (inject_Z 2) (size_in_MiB file)) in
    if negb isLt2M then
      (false, [NotificationError "File Too Large" "Image must be smaller than 2MB!"])
    else (isImage && isLt2M, []).

(** [handleFileChange], lines 360-386: no validation call. *)
Definition handleFileChange (fieldName : string) (now : Z) (info : UploadFile)
    (st : AppState) : outcome :=
  if negb (is_uploading info) then stage_and_preview fieldName now info st
  else (st, None).

(** The outer [catch] of [handleSubmit], lines 493-502. *)
Definition on_catch (e : js_error) (st : AppState) : AppState :=
  add_notices
    [NotificationError "Error"
       ("Update failed: " +:+ or_else (error_message e) "Unknown error occurred")] st.

(** [handleSubmit] after the [await fetch], lines 459-505: the success
    branch first reads the body as JSON and, when that throws, as text. *)
Definition handleSubmit_end (res : fetch_result) (st : AppState) : AppState :=
  let st :=
    match res with
    | FetchResolved response =>
        if resp_ok response then
          match response_json response false with
          | (Normal _, _) => on_success st
          | (Throw _, used) =>
              match response_text response used with
              | (Normal _, _) => on_success st
              | (Throw e, _) => on_catch e st
              end
          end
        else
          match response_text response false with
          | (Normal _, _) =>
              add_notices
                [NotificationError "Update Failed"
                   ("Failed to update order (Status: " +:+ pretty (resp_status response)
                    +:+ "). Please check your data and try again.")] st
          | (Throw e, _) => on_catch e st
          end
    | FetchRejected e => on_catch e st
    end in
  set_loading false st.

Definition handleSubmit (values : jsobj value) (res : fetch_result) (st : AppState)
  : AppState :=
  handleSubmit_end res (handleSubmit_begin values st).

(** [startCamera] up to the [await], lines 72-80. *)
Definition startCamera_begin (c : Cam) : Cam :=
  emit [GetUserMedia] (setError None c).

(** [startCamera] after the [await], lines 82-92. *)
Definition startCamera_resolved (stream : Stream) (c : Cam) : Cam :=
  let c := set_live_tracks (live_tracks c ++ stream) c in
  match videoRef c with
  | Some video =>
      emit [Play]
        (set_videoRef (Some (set_handlers true (set_srcObject (Some stream) video))) c)
  | None => c
  end.

Definition startCamera_rejected (c : Cam) : Cam :=
  setError (Some "Unable to access camera. Please check permissions.") c.

(** [onloadedmetadata], lines 86-89. *)
Definition onloadedmetadata (c : Cam) : Cam :=
  match videoRef c with
  | Some video => if handlers video then setIsStreaming true c else c
  | None => c
  end.

(** [a || b] on numbers, [undefined] included. *)
Definition or_number (a : option Z) (b : Z) : Z :=
  match a with
  | Some n => if n =? 0 then b else n
  | None => b
  end.

(** Lines 133-148: the largest centred rectangle of the card's shape inside
    the frame. *)
Definition crop_region (videoWidth videoHeight : float) : Rect :=
  let wider := PrimFloat.ltb CNIC_ASPECT_RATIO (videoWidth / videoHeight)%float in
  let cropHeight :=
    if wider then videoHeight else (videoWidth / CNIC_ASPECT_RATIO)%float in
  let cropWidth :=
    if wider then (videoHeight * CNIC_ASPECT_RATIO)%float else videoWidth in
  let startX := ((videoWidth - cropWidth) / 2)%float in
  let startY := ((videoHeight - cropHeight) / 2)%float in
  mkRect startX startY cropWidth cropHeight.

(** [captureImage], lines 108-174. *)
Definition captureImage (env : try_result) (c : Cam) : Cam :=
  match videoRef c, canvasRef c with
  | Some video, Some canvas =>
      if negb (readyState video =? HAVE_ENOUGH_DATA) then
        emit [SetTimeout "captureImage" 100] c
      else
        let videoWidth := or_number (videoWidth video) (clientWidth video) in
        let videoHeight := or_number (videoHeight video) (clientHeight video) in
        if (videoWidth =? 0) || (videoHeight =? 0) then c
        else
          draw_and_keep env "Failed to capture image. Please try again."
            (crop_region (num videoWidth) (num videoHeight)) c
  | _, _ => c
  end.

(** [retakePhoto], lines 188-191. *)
Definition retakePhoto (c : Cam) : Cam :=
  setShowPreview false (setCapturedImage None c).

Definition mounted : Cam :=
  startCamera_begin (mkCam (Some fresh_video) (Some fresh_canvas) false None None false [] []).

(** One event, then React's commit. A capture that its timer retries is
    taken to draw without throwing. *)
Definition step (ev : cam_event) (c : Cam) : Cam :=
  let in_preview := match error c with Some _ => false | None => showPreview c end in
  let in_camera := video_rendered c in
  let in_error := match error c with Some _ => true | None => false end in
  commit
    match ev with
    | EvGetUserMediaResolved stream => startCamera_resolved stream c
    | EvGetUserMediaRejected => startCamera_rejected c
    | EvVideoProps r w h cw ch => video_props r w h cw ch c
    | EvLoadedMetadata => onloadedmetadata c
    | EvPlayResolved | EvPlayRejected | EvVideoError => c
    | EvClickCapture env =>
        if in_camera && isStreaming c then captureImage env c else c
    | EvClickConfirm => if in_preview then fst (confirmCapture c) else c
    | EvBlobReady blob now => toBlob_callback blob now c
    | EvClickRetake => if in_preview then retakePhoto c else c
    | EvTimer callback =>
        if String.eqb callback "captureImage" then captureImage Draws c else c
    | EvClickTryAgain => if in_error then startCamera_begin c else c
    | EvClickClose => handleClose c
    end.

Definition run (evs : list cam_event) (c : Cam) : Cam :=
  fold_left (fun c ev => step ev c) evs c.

End Part000.

(** ** Vocabulary of the statements *)

(** The code units of a string. *)
Definition codes (s : string) : list Z := map char_code (list_ascii_of_string s).

Fixpoint has_char (c : ascii) (s : string) : bool :=
  match s with
  | EmptyString => false
  | String a s' => Ascii.eqb a c || has_char c s'
  end.

(** [s.includes(p)] *)
Fixpoint contains (p s : string) : bool :=
  startsWith p s ||
  match s with
  | EmptyString => false
  | String _ s' => contains p s'
  end.

Fixpoint has_line_terminator (s : string) : bool :=
  match s with
  | EmptyString => false
  | String a s' => is_line_terminator a || has_line_terminator s'
  end.

(** A base64 data URL: [data:<mime>;base64,<payload>] with a payload that
    [atob] accepts. *)
Definition data_url_shape (s : string) : Prop :=
  exists mime payload,
    s = "data:" +:+ mime +:+ ";base64," +:+ payload /\ is_Normal (atob payload) = true.

(** A media type that can stand in the header of a data URL. *)
Definition plain_mime (mime : string) : Prop :=
  has_char comma mime = false /\ has_char semicolon mime = false
  /\ has_line_terminator mime = false.

(** ** Sample inputs *)

(** A PDF and a PNG of four bytes each, and the picker's [info.file] for a
    file chosen from disk. *)
Definition pdf_file : File := mkFile [37; 80; 68; 70] "scan.pdf" "application/pdf".
Definition png_file : File := mkFile [137; 80; 78; 71] "card.png" "image/png".
Definition picked (f : File) : UploadFile := mkUploadFile None VUndefined f.


(** A 200 response whose body is the plain text "OK". *)
Definition plain_ok_response : Response := mkResponse true 200 "OK" false.

(** A form with two fields filled and a staged, previewed PNG. *)
Definition filled_app : AppState :=
  mkApp [("orderID", VString "1042"); ("fullName", VString "A. Khan"); ("cnic", VUndefined)]
        false
        [("acknowledgement", VFile png_file)]
        [("acknowledgement", readAsDataURL png_file)]
        false None [] [] [].

(** The three things C2 and C9 speak of: field values, staged binaries,
    previews. *)
Definition held (st : AppState) : jsobj value * jsobj value * jsobj string :=
  (form_fields st, fileList st, imagePreviews st).

(** Every field value and every staged image and preview is cleared. *)
Definition cleared (st : AppState) : Prop :=
  (forall k v, In (k, v) (form_fields st) -> v = VUndefined) /\
  fileList st = [] /\ imagePreviews st = [].

(** The response is a failure: a status outside 200-299, or no response. *)
Definition failed (res : fetch_result) : Prop :=
  match res with
  | FetchResolved r => resp_ok r = false
  | FetchRejected _ => True
  end.

Definition succeeded (res : fetch_result) : Prop :=
  match res with
  | FetchResolved r => resp_ok r = true
  | FetchRejected _ => False
  end.

(** Every staged value is a binary file. *)
Definition all_files (o : jsobj value) : Prop :=
  forall k v, In (k, v) o -> exists f, v = VFile f.

(** ** The form page as a transition system *)

(** What happens to the page: a file is picked for a slot, the camera is
    opened for a slot, hands back a capture or is closed, a preview read
    completes (the [i]-th of those in flight), the form is submitted, the
    request settles. A capture comes through the [onCapture] the camera
    held when accept was pressed, with the slot [field] that function
    closed over; the blob it waits for can arrive after the camera was
    closed or opened for another slot. *)
Inductive page_event : Type :=
  | PePick (slot : string) (now : Z) (info : UploadFile)
  | PeOpenCamera (slot : string)
  | PeCapture (field : option string) (file : File)
  | PeCloseCamera
  | PeReaderLoad (i : nat)
  | PeSubmit (values : jsobj value)
  | PeFetchSettled (res : fetch_result).

(** One event on the page of ImageUploader.jsx, for a given binding of
    [validateFile]. *)
Definition page_step_with
    (validateFile : option (value -> completion (bool * list notice)))
    (ev : page_event) (st : AppState) : AppState :=
  match ev with
  | PePick slot now info =>
      fst (ImageUploader.handleFileChange_with validateFile slot now info st)
  | PeOpenCamera slot => openCamera slot st
  | PeCapture field file => fst (handleCameraCapture field file st)
  | PeCloseCamera => closeCamera st
  | PeReaderLoad i => reader_load i st
  | PeSubmit values => handleSubmit_begin values st
  | PeFetchSettled res => ImageUploader.handleSubmit_end res st
  end.

(** The page as written. *)
Definition page_step : page_event -> AppState -> AppState :=
  page_step_with ImageUploader.module_scope_validateFile.

Definition page_run (evs : list page_event) (st : AppState) : AppState :=
  fold_left (fun st ev => page_step ev st) evs st.

(** A slot's preview, when present, is the encoding of the binary staged
    for that slot. *)
Definition consistent (st : AppState) : Prop :=
  forall slot url,
    obj_get (imagePreviews st) slot = Some url ->
    exists f, obj_get (fileList st) slot = Some (VFile f) /\ url = readAsDataURL f.

(** A read in flight is for [slot]. *)
Definition is_for (slot : string) (r : string * File) : bool :=
  String.eqb (fst r) slot.

(** No read in flight is for [slot]. *)
Definition none_for (slot : string) (rs : list (string * File)) : bool :=
  negb (existsb (is_for slot) rs).

(** The [i]-th read in flight completes without overtaking a read for
    [slot]: it is for another slot, or no read started before it is for
    [slot]. *)
Definition in_turn (slot : string) (i : nat) (rs : list (string * File)) : bool :=
  match rs !! i with
  | Some r => negb (is_for slot r) || none_for slot (take i rs)
  | None => true
  end.

(** For one slot: its preview reads complete in the order they were started
    (those for other slots complete in any order), and the form is not
    reset by a successful submission while a read for the slot is in
    flight. *)
Fixpoint in_order_with
    (validateFile : option (value -> completion (bool * list notice)))
    (slot : string) (evs : list page_event) (st : AppState) : Prop :=
  match evs with
  | [] => True
  | ev :: rest =>
      match ev with
      | PeReaderLoad i => in_turn slot i (readers st) = true
      | PeFetchSettled res => succeeded res -> none_for slot (readers st) = true
      | _ => True
      end /\ in_order_with validateFile slot rest (page_step_with validateFile ev st)
  end.


(** The file of the latest read in flight for a slot. *)
Fixpoint last_read (slot : string) (rs : list (string * File)) : option File :=
  match rs with
  | [] => None
  | (s, f) :: rs' =>
      match last_read slot rs' with
      | Some g => Some g
      | None => if String.eqb s slot then Some f else None
      end
  end.

(** The invariant behind C9: a slot with reads in flight has the file of
    the latest one staged; a slot with none is consistent. *)
Definition settles (st : AppState) : Prop :=
  forall slot,
    match last_read slot (readers st) with
    | Some f => obj_get (fileList st) slot = Some (VFile f)
    | None =>
        forall url, obj_get (imagePreviews st) slot = Some url ->
          exists f, obj_get (fileList st) slot = Some (VFile f) /\ url = readAsDataURL f
    end.

(** The same for one slot. *)
Definition settles_at (slot : string) (st : AppState) : Prop :=
  match last_read slot (readers st) with
  | Some f => obj_get (fileList st) slot = Some (VFile f)
  | None =>
      forall url, obj_get (imagePreviews st) slot = Some url ->
        exists f, obj_get (fileList st) slot = Some (VFile f) /\ url = readAsDataURL f
  end.

(** Two captures of the same card. *)
Definition capture_a : File := mkFile [255; 216; 255; 1] "cnic-1.jpg" "image/jpeg".
Definition capture_b : File := mkFile [255; 216; 255; 2] "cnic-2.jpg" "image/jpeg".


(** The same captures with the reads completing in order. *)
Definition in_order_run : list page_event :=
  [PeOpenCamera "acknowledgement"; PeCapture (Some "acknowledgement") capture_a;
   PeOpenCamera "acknowledgement"; PeCapture (Some "acknowledgement") capture_b;
   PeReaderLoad 0; PeReaderLoad 0].



(** ** The capture geometry in the words of the specification *)

(** The guide overlay: centred on the displayed video, 80% of its width,
    with the height the card's ratio gives. *)
Definition overlay_rect (displayWidth displayHeight : float) : Rect :=
  let width := (displayWidth * 0.8)%float in
  let height := (width / 1.586)%float in
  mkRect ((displayWidth - width) / 2)%float ((displayHeight - height) / 2)%float
         width height.

(** A rectangle on screen taken to frame pixels: x and width by one factor,
    y and height by another. *)
Definition scale_rect (r : Rect) (scaleX scaleY : float) : Rect :=
  mkRect (rect_x r * scaleX)%float (rect_y r * scaleY)%float
         (rect_w r * scaleX)%float (rect_h r * scaleY)%float.

Definition mapped_overlay (videoWidth videoHeight displayWidth displayHeight : float) : Rect :=
  scale_rect (overlay_rect displayWidth displayHeight)
             (videoWidth / displayWidth)%float (videoHeight / displayHeight)%float.

(** The draw calls a capture leaves on the canvas. *)
Definition drawn (c : Cam) : list DrawCall :=
  match canvasRef c with
  | Some canvas => canvas_calls canvas
  | None => []
  end.

(** ** Sample runs of the capture flow *)

(** A camera with one track (id 7), a 1920x1080 frame shown at 600x338. *)
Definition to_streaming : list cam_event :=
  [EvGetUserMediaResolved [7%nat]; EvVideoProps 4 1920 1080 600 338;
   EvLoadedMetadata; EvPlayResolved].

Definition streaming : Cam := ImageUploader.run to_streaming ImageUploader.mounted.

(** The same, then a capture: the preview is on screen. *)
Definition previewing : Cam := ImageUploader.step (EvClickCapture Draws) streaming.

(** The stream was acquired and [play()] was refused: the error view. *)
Definition play_refused : Cam :=
  ImageUploader.run [EvGetUserMediaResolved [7%nat]; EvLoadedMetadata; EvPlayRejected]
    ImageUploader.mounted.

(** The older copy, streaming and previewing. *)
Definition old_streaming : Cam :=
  Part000.run [EvGetUserMediaResolved [7%nat]; EvVideoProps 4 1920 1080 600 338;
               EvLoadedMetadata] Part000.mounted.

Definition old_previewing : Cam := Part000.step (EvClickCapture Draws) old_streaming.

(** The older copy, streaming with a frame not decoded yet
    ([readyState] 2). *)
Definition old_not_ready : Cam :=
  Part000.run [EvGetUserMediaResolved [7%nat]; EvVideoProps 2 1920 1080 600 338;
               EvLoadedMetadata] Part000.mounted.

(** The newer copy in the same situation. *)
Definition not_ready : Cam :=
  ImageUploader.run [EvGetUserMediaResolved [7%nat]; EvVideoProps 2 1920 1080 600 338;
                     EvLoadedMetadata; EvPlayResolved] ImageUploader.mounted.

(** ** Vocabulary for the encoder *)

(** Every element is a byte value. *)
Definition byte_values (l : list Z) : Prop := Forall (fun b => 0 <= b < 256) l.

(** The alphabet positions behind [btoa_bytes l], padding apart. *)
Fixpoint encode_sextets (l : list Z) : list Z :=
  match l with
  | a :: b :: c :: rest =>
      let n := Z.lor (Z.lor (Z.shiftl a 16) (Z.shiftl b 8)) c in
      Z.land (Z.shiftr n 18) 63 :: Z.land (Z.shiftr n 12) 63
        :: Z.land (Z.shiftr n 6) 63 :: Z.land n 63 :: encode_sextets rest
  | [a; b] =>
      let n := Z.lor (Z.shiftl a 16) (Z.shiftl b 8) in
      [Z.land (Z.shiftr n 18) 63; Z.land (Z.shiftr n 12) 63; Z.land (Z.shiftr n 6) 63]
  | [a] =>
      let n := Z.shiftl a 16 in
      [Z.land (Z.shiftr n 18) 63; Z.land (Z.shiftr n 12) 63]
  | [] => []
  end.

(** The [=] signs that end [btoa_bytes l]. *)
Fixpoint padding (l : list Z) : list ascii :=
  match l with
  | _ :: _ :: _ :: rest => padding rest
  | [_; _] => [equals_sign]
  | [_] => [equals_sign; equals_sign]
  | [] => []
  end.

(** ** The page and the camera together *)

(** What the page does with what the camera hands to its props (lines
    482-490): [onCapture] is the [handleCameraCapture] of the render that
    showed the camera, which closed over the slot [field]; [onClose] hides
    the camera. *)
Definition deliver (field : option string) (e : cam_effect) (st : AppState) : AppState :=
  match e with
  | OnCapture file => fst (handleCameraCapture field file st)
  | OnClose => closeCamera st
  | _ => st
  end.

Definition deliver_all (field : option string) (es : list cam_effect) (st : AppState)
  : AppState :=
  fold_left (fun st e => deliver field e st) es st.

(** What [CustomUploader] shows inside the upload card (lines 294-302): the
    preview when [imagePreviews[fieldName]] is truthy, the upload button
    otherwise. *)
Inductive uploader_view : Type :=
  | ShowsPreview (src : string)
  | ShowsButton.

Definition CustomUploader_view (fieldName : string) (imagePreviews : jsobj string)
  : uploader_view :=
  match obj_get imagePreviews fieldName with
  | Some url => if String.eqb url "" then ShowsButton else ShowsPreview url
  | None => ShowsButton
  end.

(** One event on the page of the older copy. *)
Definition old_page_step (ev : page_event) (st : AppState) : AppState :=
  match ev with
  | PePick slot now info => fst (Part000.handleFileChange slot now info st)
  | PeOpenCamera slot => openCamera slot st
  | PeCapture field file => fst (handleCameraCapture field file st)
  | PeCloseCamera => closeCamera st
  | PeReaderLoad i => reader_load i st
  | PeSubmit values => handleSubmit_begin values st
  | PeFetchSettled res => Part000.handleSubmit_end res st
  end.

Definition old_page_run (evs : list page_event) (st : AppState) : AppState :=
  fold_left (fun st ev => old_page_step ev st) evs st.

(** The camera is shown exactly when a target slot is held. *)
Definition camera_has_slot (st : AppState) : Prop :=
  showCamera st = true <-> currentCameraField st <> None.

(** An object holds each key once. *)
Definition unique_keys {V} (o : jsobj V) : Prop := NoDup (map fst o).

(** The preview is on exactly when a still is held, and a held still is an
    856x540 JPEG of quality 0.9. *)
Definition still_in_preview (c : Cam) : Prop :=
  (showPreview c = true <-> capturedImage c <> None) /\
  forall still, capturedImage c = Some still ->
    still_width still = 856 /\ still_height still = 540 /\
    still_type still = "image/jpeg" /\ still_quality still = 0.9%float.

(** The effects a handler added to the log of [c]. *)
Definition added (c c' : Cam) : list cam_effect :=
  drop (length (effects c)) (effects c').

(** The camera with [getUserMedia] refused on mount. *)
Definition refused : Cam := ImageUploader.step EvGetUserMediaRejected ImageUploader.mounted.

(** A page with a PNG staged and previewed under "selfie", and the camera
    opened for "acknowledgement". *)
Definition camera_open_app : AppState :=
  openCamera "acknowledgement"
    (mkApp [] false [("selfie", VFile png_file)] [("selfie", readAsDataURL png_file)]
           false None [] [] []).

(** The picker's [info.file] carrying a string as [originFileObj]. *)
Definition picked_string (s : string) : UploadFile :=
  mkUploadFile None (VString s) (mkFile [] "" "").

(** A pick the older copy can preview: a file, or a string that starts
    with "data:" (or an entry still uploading, which is ignored). *)
Definition binary_pick (info : UploadFile) : bool :=
  is_uploading info ||
  match origin_or_self info with
  | VFile _ => true
  | VString s => startsWith "data:" s
  | _ => false
  end.

(** On the older page: picks are binary, the preview reads complete in the
    order they were started, and no successful submission settles while a
    read is in flight. *)
Fixpoint old_in_order (evs : list page_event) (st : AppState) : Prop :=
  match evs with
  | [] => True
  | ev :: rest =>
      match ev with
      | PePick _ _ info => binary_pick info = true
      | PeReaderLoad i => i = 0%nat
      | PeFetchSettled res => succeeded res -> readers st = []
      | _ => True
      end /\ old_in_order rest (old_page_step ev st)
  end.

(** Two picks on the older page, a PNG then a data URL, for two slots. *)
Definition two_picks : list page_event :=
  [PePick "acknowledgement" 0 (picked png_file);
   PePick "selfie" 5 (picked_string "data:image/jpeg;base64,/9j/");
   PeReaderLoad 0; PeReaderLoad 0].

(** A live track that the mounted video does not hold. *)
Definition orphan (t : nat) (c : Cam) : Prop :=
  In t (live_tracks c) /\
  forall video stream, videoRef c = Some video -> srcObject video = Some stream ->
    ~ In t stream.

(** No stream acquired during the events carries the track. *)
Definition never_reacquired (t : nat) (evs : list cam_event) : Prop :=
  forall stream, In (EvGetUserMediaResolved stream) evs -> ~ In t stream.
(** ** Proofs: the decoder *)

Lemma length_list_ascii_of_string (s : string) :
  length (list_ascii_of_string s) = String.length s.
Proof. induction s as [|a s IH]; simpl; [reflexivity | now rewrite IH]. Qed.

Lemma length_codes (s : string) : length (codes s) = String.length s.
Proof. unfold codes. rewrite length_map. apply length_list_ascii_of_string. Qed.

Lemma char_code_range (c : ascii) : 0 <= char_code c < 256.
Proof.
  unfold char_code. pose proof (N_ascii_bounded c) as H. lia.
Qed.

Lemma codes_lookup (s : string) (n : nat) :
  codes s !! n = char_code <$> String.get n s.
Proof.
  revert n. induction s as [|a s IH]; intros [|n]; simpl; try reflexivity.
  apply IH.
Qed.

Lemma charCodeAt_lookup (s : string) (n : nat) :
  (n < String.length s)%nat -> codes s !! n = Some (charCodeAt s n mod 256).
Proof.
  intros Hn. rewrite codes_lookup. unfold charCodeAt.
  destruct (String.get n s) as [c|] eqn:E.
  - simpl. f_equal. symmetry. apply Z.mod_small, char_code_range.
  - exfalso. revert n Hn E. induction s as [|a s IH]; intros [|n] Hn E; simpl in *;
      try lia; try discriminate. apply (IH n); [lia | exact E].
Qed.

(** The copy loop has filled the positions from [n] up when it is entered
    with [n]; it leaves them and fills the rest. *)
Lemma copy_loop_spec (bstr : string) (n : nat) (u8arr : list Z) :
  length u8arr = String.length bstr -> (n <= String.length bstr)%nat ->
  copy_loop bstr n u8arr = take n (codes bstr) ++ drop n u8arr.
Proof.
  revert u8arr. induction n as [|n IH]; intros u Hlen Hn; simpl.
  - now rewrite drop_0.
  - rewrite IH by (rewrite ?length_insert; lia).
    rewrite (take_S_r (codes bstr) n (charCodeAt bstr n mod 256))
      by (apply charCodeAt_lookup; lia).
    rewrite <- app_assoc. f_equal.
    rewrite insert_take_drop by lia.
    rewrite drop_app_length'; [reflexivity |].
    rewrite length_take. lia.
Qed.

Lemma copy_loop_full (bstr : string) :
  copy_loop bstr (String.length bstr) (replicate (String.length bstr) 0) = codes bstr.
Proof.
  rewrite copy_loop_spec by (rewrite ?length_replicate; lia).
  rewrite <- (length_codes bstr) at 1. rewrite firstn_all.
  rewrite drop_ge by (rewrite length_replicate; lia).
  apply app_nil_r.
Qed.

Lemma split_on_nonempty (sep : ascii) (s : string) : split_on sep s <> [].
Proof.
  destruct s as [|a s]; simpl; [discriminate |].
  destruct (Ascii.eqb a sep); [discriminate |].
  destruct (split_on sep s); discriminate.
Qed.

Lemma split_on_no_sep (sep : ascii) (s : string) :
  has_char sep s = false -> split_on sep s = [s].
Proof.
  induction s as [|a s IH]; simpl; intros H; [reflexivity |].
  apply orb_false_iff in H as [Ha Hs]. rewrite Ha, (IH Hs). reflexivity.
Qed.

Lemma split_on_app (sep : ascii) (a b : string) :
  has_char sep a = false ->
  split_on sep (a +:+ String sep b) = a :: split_on sep b.
Proof.
  induction a as [|c a IH]; simpl; intros H.
  - now rewrite Ascii.eqb_refl.
  - apply orb_false_iff in H as [Hc Ha]. rewrite Hc, (IH Ha). reflexivity.
Qed.

(** What [base64ToFile] returns, whenever it returns. *)
Lemma base64ToFile_Normal (s fileName : string) (f : File) :
  base64ToFile s fileName = Normal f <->
  exists header rest mime bstr,
    split_on comma s = header :: rest /\
    match_mime header = Some mime /\
    atob_arg (head rest) = Normal bstr /\
    f = mkFile (codes bstr) fileName (file_type_option mime).
Proof.
  unfold base64ToFile, new_File.
  destruct (split_on comma s) as [|header rest] eqn:Hs;
    [exfalso; exact (split_on_nonempty _ _ Hs) |].
  assert (Hidx : js_index (header :: rest) 1 = head rest) by (destruct rest; reflexivity).
  rewrite Hidx. cbn [js_index nth_error]. split.
  - destruct (match_mime header) as [mime|] eqn:Hm; [| discriminate].
    destruct (atob_arg (head rest)) as [bstr|e] eqn:Ha; simpl; [| discriminate].
    intros [= <-]. exists header, rest, mime, bstr.
    rewrite copy_loop_full. auto.
  - intros (h & r & mime & bstr & [= <- <-] & Hm & Ha & ->).
    rewrite Hm, Ha. simpl. now rewrite copy_loop_full.
Qed.

Lemma atob_undefined : atob_arg None = Throw InvalidCharacterError.
Proof. reflexivity. Qed.

Lemma base64ToFile_no_comma (s fileName : string) :
  has_char comma s = false -> is_Normal (base64ToFile s fileName) = false.
Proof.
  intros H. unfold base64ToFile. rewrite (split_on_no_sep _ _ H).
  cbn [js_index nth_error]. destruct (match_mime s); [| reflexivity].
  rewrite atob_undefined. reflexivity.
Qed.

Lemma base64ToFile_no_header (s fileName : string) :
  match_mime (default EmptyString (head (split_on comma s))) = None ->
  base64ToFile s fileName = Throw (TypeError "match returned null").
Proof.
  unfold base64ToFile.
  destruct (split_on comma s) as [|header rest] eqn:Hs;
    [exfalso; exact (split_on_nonempty _ _ Hs) |].
  simpl. now intros ->.
Qed.

Lemma base64ToFile_bad_payload (s fileName : string) :
  is_Normal (atob_arg (js_index (split_on comma s) 1)) = false ->
  is_Normal (base64ToFile s fileName) = false.
Proof.
  unfold base64ToFile.
  destruct (split_on comma s) as [|header rest] eqn:Hs;
    [exfalso; exact (split_on_nonempty _ _ Hs) |].
  cbn [js_index nth_error]. destruct (match_mime header); [| reflexivity].
  destruct (atob_arg _); [discriminate | reflexivity].
Qed.

Lemma lazy_group_plain (mime rest : string) :
  has_char semicolon mime = false -> has_line_terminator mime = false ->
  lazy_group_semicolon (mime +:+ String semicolon rest) = Some mime.
Proof.
  induction mime as [|a m IH]; simpl; intros Hs Hl.
  - reflexivity.
  - apply orb_false_iff in Hs as [Ha Hs]. apply orb_false_iff in Hl as [Hb Hl].
    rewrite Ha, Hb, (IH Hs Hl). reflexivity.
Qed.

Lemma match_mime_data_header (mime rest : string) :
  has_char semicolon mime = false -> has_line_terminator mime = false ->
  match_mime ("data:" +:+ mime +:+ String semicolon rest) = Some mime.
Proof.
  intros Hs Hl.
  change ("data:" +:+ mime +:+ String semicolon rest)
    with (String "d" (String "a" (String "t" (String "a"
            (String colon (mime +:+ String semicolon rest)))))).
  cbn [match_mime]. cbn [Ascii.eqb colon Bool.eqb].
  now rewrite lazy_group_plain.
Qed.

Lemma in_remove_whitespace (c : ascii) (s : string) :
  is_ascii_whitespace c = false -> has_char c s = true -> In c (remove_whitespace s).
Proof.
  intros Hc. induction s as [|a s IH]; simpl; [discriminate |].
  intros H. apply orb_true_iff in H as [H|H].
  - apply Ascii.eqb_eq in H; subst a. rewrite Hc. now left.
  - destruct (is_ascii_whitespace a); [| right]; auto.
Qed.

Lemma in_strip_padding (c : ascii) (l : list ascii) :
  c <> equals_sign -> In c l -> In c (strip_padding l).
Proof.
  intros Hc Hin. unfold strip_padding.
  apply in_rev in Hin. destruct (rev l) as [|a [|b r]] eqn:E.
  - destruct Hin.
  - destruct (Ascii.eqb a equals_sign) eqn:Ea.
    + apply Ascii.eqb_eq in Ea. destruct Hin as [<-|[]]. contradiction.
    + apply in_rev. now rewrite E.
  - destruct (Ascii.eqb a equals_sign) eqn:Ea.
    + apply Ascii.eqb_eq in Ea; subst a.
      destruct Hin as [Hin|Hin]; [now symmetry in Hin |].
      destruct (Ascii.eqb b equals_sign) eqn:Eb.
      * apply Ascii.eqb_eq in Eb; subst b.
        destruct Hin as [Hin|Hin]; [now symmetry in Hin |].
        now apply in_rev in Hin.
      * now apply in_rev in Hin.
    + apply in_rev. now rewrite E.
Qed.

Lemma sextets_in (l : list ascii) (sx : list Z) (c : ascii) :
  sextets l = Some sx -> In c l -> b64_index c <> None.
Proof.
  revert sx. induction l as [|a l IH]; simpl; intros sx H Hin; [destruct Hin |].
  destruct (b64_index a) eqn:Ea; [| discriminate].
  destruct (sextets l) eqn:El; [| discriminate].
  destruct Hin as [<-|Hin]; [congruence | eauto].
Qed.

(** A payload that [atob] accepts holds no comma. *)
Lemma atob_Normal_no_comma (payload : string) :
  is_Normal (atob payload) = true -> has_char comma payload = false.
Proof.
  intros H. destruct (has_char comma payload) eqn:E; [exfalso | reflexivity].
  apply (in_remove_whitespace comma) in E; [| reflexivity].
  unfold atob in H.
  set (d := if Z.of_nat (length (remove_whitespace payload)) mod 4 =? 0
            then strip_padding (remove_whitespace payload)
            else remove_whitespace payload) in H.
  assert (Hd : In comma d).
  { subst d. destruct (_ =? 0); [apply in_strip_padding; [discriminate | exact E] | exact E]. }
  destruct (Z.of_nat (length d) mod 4 =? 1); [discriminate |].
  destruct (sextets d) as [sx|] eqn:Es; [| discriminate].
  apply (sextets_in _ _ _ Es Hd). reflexivity.
Qed.

Lemma has_char_app (c : ascii) (a b : string) :
  has_char c (a +:+ b) = has_char c a || has_char c b.
Proof.
  induction a as [|x a IH]; simpl; [reflexivity |].
  now rewrite IH, orb_assoc.
Qed.

Lemma string_app_assoc (a b c : string) : (a +:+ b) +:+ c = a +:+ (b +:+ c).
Proof.
  induction a as [|x a IH]; [reflexivity |].
  change (String x ((a +:+ b) +:+ c) = String x (a +:+ (b +:+ c))).
  now rewrite IH.
Qed.

(** On a base64 data URL the decoder returns the decoded bytes under the
    declared type. *)
Lemma base64ToFile_data_url_params (mime params payload fileName bstr : string) :
  plain_mime mime -> has_char comma params = false -> atob payload = Normal bstr ->
  base64ToFile ("data:" +:+ mime +:+ String semicolon params +:+ String comma payload)
    fileName
  = Normal (mkFile (codes bstr) fileName (file_type_option mime)).
Proof.
  intros (Hc & Hs & Hl) Hq Ha.
  assert (Hp : has_char comma payload = false)
    by (apply atob_Normal_no_comma; now rewrite Ha).
  apply base64ToFile_Normal.
  exists ("data:" +:+ mime +:+ String semicolon params), [payload], mime, bstr.
  repeat split; [| now apply match_mime_data_header | exact Ha].
  assert (Hh : has_char comma ("data:" +:+ mime +:+ String semicolon params) = false).
  { rewrite !has_char_app, Hc. cbn [has_char]. rewrite Hq. reflexivity. }
  replace ("data:" +:+ mime +:+ String semicolon params +:+ String comma payload)
    with (("data:" +:+ mime +:+ String semicolon params) +:+ String comma payload).
  - rewrite (split_on_app _ _ _ Hh), (split_on_no_sep _ _ Hp). reflexivity.
  - rewrite !string_app_assoc.
    change (String semicolon params +:+ String comma payload)
      with (String semicolon (params +:+ String comma payload)).
    reflexivity.
Qed.

Lemma base64ToFile_data_url (mime payload fileName bstr : string) :
  plain_mime mime -> atob payload = Normal bstr ->
  base64ToFile ("data:" +:+ mime +:+ ";base64," +:+ payload) fileName
  = Normal (mkFile (codes bstr) fileName (file_type_option mime)).
Proof.
  intros Hm Ha.
  exact (base64ToFile_data_url_params mime "base64" payload fileName bstr Hm eq_refl Ha).
Qed.

Lemma startsWith_app (q r : string) : startsWith q (q +:+ r) = true.
Proof.
  induction q as [|c q IH]; [reflexivity |].
  change (Ascii.eqb c c && startsWith q (q +:+ r) = true).
  now rewrite Ascii.eqb_refl, IH.
Qed.

Lemma contains_startsWith (p s : string) : startsWith p s = true -> contains p s = true.
Proof. intros H. destruct s; simpl; rewrite H; reflexivity. Qed.

Lemma contains_app (p a b : string) : contains p (a +:+ p +:+ b) = true.
Proof.
  induction a as [|c a IH].
  - exact (contains_startsWith p (p +:+ b) (startsWith_app p b)).
  - change (startsWith p (String c (a +:+ p +:+ b)) || contains p (a +:+ p +:+ b) = true).
    rewrite IH. apply orb_true_r.
Qed.

Lemma data_url_shape_marker (s : string) :
  data_url_shape s -> startsWith "data:" s = true /\ contains ";base64," s = true.
Proof.
  intros (mime & payload & -> & _). split; [reflexivity |].
  apply (contains_app ";base64," ("data:" +:+ mime) payload).
Qed.

(** ** Proofs: the encoder and the decoder are inverse *)

Lemma list_ind3 {A} (P : list A -> Prop) :
  P [] -> (forall a, P [a]) -> (forall a b, P [a; b]) ->
  (forall a b c l, P l -> P (a :: b :: c :: l)) ->
  forall l, P l.
Proof.
  intros H0 H1 H2 H3 l.
  assert (H : P l /\ (forall a, P (a :: l)) /\ (forall a b, P (a :: b :: l))).
  { induction l as [|x l (IH0 & IH1 & IH2)]; [now auto |].
    split; [apply IH1 |]. split; [intros a; apply IH2 |].
    intros a b. now apply H3. }
  exact (proj1 H).
Qed.

Lemma land_pow2_low (x y k : Z) :
  0 <= k -> 0 <= y < 2 ^ k -> Z.land (x * 2 ^ k) y = 0.
Proof.
  intros Hk Hy. apply Z.bits_inj'. intros i Hi.
  rewrite Z.land_spec, Z.bits_0.
  destruct (Z.lt_ge_cases i k) as [Hlt|Hge].
  - now rewrite Z.mul_pow2_bits_low.
  - rewrite <- (Z.mod_small y (2 ^ k)) by lia.
    rewrite Z.mod_pow2_bits_high by lia. apply andb_false_r.
Qed.

Lemma lor_pow2 (x y k : Z) :
  0 <= k -> 0 <= y < 2 ^ k -> Z.lor (x * 2 ^ k) y = x * 2 ^ k + y.
Proof.
  intros Hk Hy. pose proof (Z.add_lor_land (x * 2 ^ k) y) as H.
  rewrite land_pow2_low in H by assumption. lia.
Qed.

Lemma pack_bytes (a b c : Z) :
  0 <= a < 256 -> 0 <= b < 256 -> 0 <= c < 256 ->
  Z.lor (Z.lor (Z.shiftl a 16) (Z.shiftl b 8)) c = a * 65536 + b * 256 + c.
Proof.
  intros Ha Hb Hc. rewrite !Z.shiftl_mul_pow2 by lia.
  rewrite (lor_pow2 a (b * 2 ^ 8) 16) by lia.
  replace (a * 2 ^ 16 + b * 2 ^ 8) with ((a * 256 + b) * 2 ^ 8) by lia.
  rewrite lor_pow2 by lia. lia.
Qed.

Lemma pack_sextets (a b c d : Z) :
  0 <= a < 64 -> 0 <= b < 64 -> 0 <= c < 64 -> 0 <= d < 64 ->
  Z.lor (Z.lor (Z.lor (Z.shiftl a 18) (Z.shiftl b 12)) (Z.shiftl c 6)) d
  = a * 262144 + b * 4096 + c * 64 + d.
Proof.
  intros Ha Hb Hc Hd. rewrite !Z.shiftl_mul_pow2 by lia.
  rewrite (lor_pow2 a (b * 2 ^ 12) 18) by lia.
  replace (a * 2 ^ 18 + b * 2 ^ 12) with ((a * 64 + b) * 2 ^ 12) by lia.
  rewrite (lor_pow2 _ (c * 2 ^ 6) 12) by lia.
  replace ((a * 64 + b) * 2 ^ 12 + c * 2 ^ 6) with (((a * 64 + b) * 64 + c) * 2 ^ 6) by lia.
  rewrite lor_pow2 by lia. lia.
Qed.

Lemma land_63 (n : Z) : Z.land n 63 = n mod 64.
Proof. change 63 with (Z.ones 6). now rewrite Z.land_ones by lia. Qed.

Lemma land_255 (n : Z) : Z.land n 255 = n mod 256.
Proof. change 255 with (Z.ones 8). now rewrite Z.land_ones by lia. Qed.

Lemma shiftr_div (n k : Z) : 0 <= k -> Z.shiftr n k = n / 2 ^ k.
Proof. intros. now apply Z.shiftr_div_pow2. Qed.

Lemma sextet_range (n : Z) : 0 <= Z.land n 63 < 64.
Proof. rewrite land_63. apply Z.mod_pos_bound. lia. Qed.

(** Three bytes through the encoder and back. *)
Lemma decode_encode_3 (a b c : Z) :
  0 <= a < 256 -> 0 <= b < 256 -> 0 <= c < 256 ->
  let n := Z.lor (Z.lor (Z.shiftl a 16) (Z.shiftl b 8)) c in
  let m := Z.lor (Z.lor (Z.lor (Z.shiftl (Z.land (Z.shiftr n 18) 63) 18)
                               (Z.shiftl (Z.land (Z.shiftr n 12) 63) 12))
                        (Z.shiftl (Z.land (Z.shiftr n 6) 63) 6))
                 (Z.land n 63) in
  Z.land (Z.shiftr m 16) 255 = a /\ Z.land (Z.shiftr m 8) 255 = b /\ Z.land m 255 = c.
Proof.
  intros Ha Hb Hc n m. subst m.
  rewrite pack_sextets by apply sextet_range.
  subst n. rewrite (pack_bytes a b c) by assumption.
  rewrite !land_63, !land_255, !shiftr_div by lia.
  change (2 ^ 18) with 262144. change (2 ^ 12) with 4096. change (2 ^ 6) with 64.
  change (2 ^ 16) with 65536. change (2 ^ 8) with 256.
  repeat split; Z.div_mod_to_equations; lia.
Qed.

(** Two bytes: three sextets, two spare bits dropped. *)
Lemma decode_encode_2 (a b : Z) :
  0 <= a < 256 -> 0 <= b < 256 ->
  let n := Z.lor (Z.shiftl a 16) (Z.shiftl b 8) in
  let m := Z.lor (Z.lor (Z.shiftl (Z.land (Z.shiftr n 18) 63) 12)
                        (Z.shiftl (Z.land (Z.shiftr n 12) 63) 6))
                 (Z.land (Z.shiftr n 6) 63) in
  Z.land (Z.shiftr m 10) 255 = a /\ Z.land (Z.shiftr m 2) 255 = b.
Proof.
  intros Ha Hb n m.
  assert (Hn : n = a * 65536 + b * 256).
  { subst n. rewrite <- (Z.lor_0_r (Z.lor _ _)). rewrite pack_bytes by lia. lia. }
  assert (Hm : m = Z.land (Z.shiftr n 18) 63 * 4096 + Z.land (Z.shiftr n 12) 63 * 64
                   + Z.land (Z.shiftr n 6) 63).
  { subst m. rewrite !Z.shiftl_mul_pow2 by lia.
    pose proof (sextet_range (Z.shiftr n 18)). pose proof (sextet_range (Z.shiftr n 12)).
    pose proof (sextet_range (Z.shiftr n 6)).
    rewrite (lor_pow2 _ (_ * 2 ^ 6) 12) by lia.
    replace (Z.land (Z.shiftr n 18) 63 * 2 ^ 12 + Z.land (Z.shiftr n 12) 63 * 2 ^ 6)
      with ((Z.land (Z.shiftr n 18) 63 * 64 + Z.land (Z.shiftr n 12) 63) * 2 ^ 6) by lia.
    rewrite lor_pow2 by lia. lia. }
  rewrite Hm, Hn. rewrite !land_63, !land_255, !shiftr_div by lia.
  change (2 ^ 18) with 262144. change (2 ^ 12) with 4096. change (2 ^ 6) with 64.
  change (2 ^ 10) with 1024. change (2 ^ 2) with 4.
  split; Z.div_mod_to_equations; lia.
Qed.

(** One byte: two sextets, four spare bits dropped. *)
Lemma decode_encode_1 (a : Z) :
  0 <= a < 256 ->
  let n := Z.shiftl a 16 in
  let m := Z.lor (Z.shiftl (Z.land (Z.shiftr n 18) 63) 6) (Z.land (Z.shiftr n 12) 63) in
  Z.land (Z.shiftr m 4) 255 = a.
Proof.
  intros Ha n m.
  assert (Hn : n = a * 65536) by (subst n; rewrite Z.shiftl_mul_pow2 by lia; lia).
  assert (Hm : m = Z.land (Z.shiftr n 18) 63 * 64 + Z.land (Z.shiftr n 12) 63).
  { subst m. rewrite Z.shiftl_mul_pow2 by lia.
    pose proof (sextet_range (Z.shiftr n 12)). rewrite lor_pow2 by lia. lia. }
  rewrite Hm, Hn. rewrite !land_63, !land_255, !shiftr_div by lia.
  change (2 ^ 18) with 262144. change (2 ^ 12) with 4096. change (2 ^ 4) with 16.
  Z.div_mod_to_equations; lia.
Qed.

Lemma decode_encode (l : list Z) :
  byte_values l -> decode_sextets (encode_sextets l) = l.
Proof.
  induction l as [|a|a b|a b c l IH] using list_ind3; intros H.
  - reflexivity.
  - inversion_clear H as [|? ? Ha _]. cbn [encode_sextets decode_sextets].
    now rewrite (decode_encode_1 a Ha).
  - inversion_clear H as [|? ? Ha H']. inversion_clear H' as [|? ? Hb _].
    cbn [encode_sextets decode_sextets].
    destruct (decode_encode_2 a b Ha Hb) as [-> ->]. reflexivity.
  - inversion_clear H as [|? ? Ha H']. inversion_clear H' as [|? ? Hb H''].
    inversion_clear H'' as [|? ? Hc Hl].
    cbn [encode_sextets decode_sextets].
    destruct (decode_encode_3 a b c Ha Hb Hc) as (-> & -> & ->).
    now rewrite (IH Hl).
Qed.

(** Every position of the alphabet reads back from its character, which is
    neither whitespace nor the padding sign. *)
Lemma b64_char_facts (i : Z) :
  0 <= i < 64 ->
  b64_index (b64_char i) = Some i /\
  is_ascii_whitespace (b64_char i) = false /\
  Ascii.eqb (b64_char i) equals_sign = false.
Proof.
  intros Hi.
  assert (Hall : forallb (fun n =>
            let i := Z.of_nat n in
            match b64_index (b64_char i) with
            | Some j => j =? i
            | None => false
            end && negb (is_ascii_whitespace (b64_char i))
                && negb (Ascii.eqb (b64_char i) equals_sign))
          (seq 0 64) = true) by (vm_compute; reflexivity).
  rewrite forallb_forall in Hall.
  specialize (Hall (Z.to_nat i)). rewrite Z2Nat.id in Hall by lia.
  assert (Hin : In (Z.to_nat i) (seq 0 64)) by (apply in_seq; lia).
  apply Hall in Hin. cbv zeta in Hin.
  apply andb_true_iff in Hin as [Hin H3]. apply andb_true_iff in Hin as [H1 H2].
  destruct (b64_index (b64_char i)) as [j|]; [| discriminate].
  apply Z.eqb_eq in H1. subst j.
  apply negb_true_iff in H2, H3. auto.
Qed.

Lemma encode_sextets_range (l : list Z) :
  Forall (fun s => 0 <= s < 64) (encode_sextets l).
Proof.
  induction l as [|a|a b|a b c l IH] using list_ind3; cbn [encode_sextets]; cbv zeta;
    repeat (apply List.Forall_cons; [apply sextet_range |]); auto.
Qed.

Lemma sextets_of_chars (sx : list Z) :
  Forall (fun s => 0 <= s < 64) sx -> sextets (map b64_char sx) = Some sx.
Proof.
  induction 1 as [|s sx Hs _ IH]; simpl; [reflexivity |].
  rewrite (proj1 (b64_char_facts s Hs)), IH. reflexivity.
Qed.

Lemma btoa_bytes_split (l : list Z) :
  btoa_bytes l = map b64_char (encode_sextets l) ++ padding l.
Proof.
  induction l as [|a|a b|a b c l IH] using list_ind3;
    cbn [btoa_bytes encode_sextets padding map app]; try reflexivity.
  now rewrite IH.
Qed.

Lemma remove_whitespace_plain (cs : list ascii) :
  Forall (fun c => is_ascii_whitespace c = false) cs ->
  remove_whitespace (string_of_list_ascii cs) = cs.
Proof.
  induction 1 as [|c cs Hc _ IH]; simpl; [reflexivity |]. now rewrite Hc, IH.
Qed.

Lemma padding_cases (l : list Z) :
  (padding l = [] /\ Z.of_nat (length (encode_sextets l)) mod 4 = 0) \/
  (padding l = [equals_sign] /\ Z.of_nat (length (encode_sextets l)) mod 4 = 3) \/
  (padding l = [equals_sign; equals_sign]
   /\ Z.of_nat (length (encode_sextets l)) mod 4 = 2).
Proof.
  induction l as [|a|a b|a b c l IH] using list_ind3; cbn [padding encode_sextets length].
  - left. split; reflexivity.
  - right; right. split; reflexivity.
  - right; left. split; reflexivity.
  - replace (Z.of_nat (S (S (S (S (length (encode_sextets l)))))))
      with (Z.of_nat (length (encode_sextets l)) + 1 * 4) by lia.
    rewrite Z_mod_plus_full. exact IH.
Qed.

Lemma strip_padding_body (body pad : list ascii) :
  Forall (fun c => Ascii.eqb c equals_sign = false) body ->
  pad = [] \/ pad = [equals_sign] \/ pad = [equals_sign; equals_sign] ->
  strip_padding (body ++ pad) = body.
Proof.
  intros Hb Hp. unfold strip_padding. rewrite rev_app_distr.
  assert (Hlast : forall a r, rev body = a :: r -> Ascii.eqb a equals_sign = false).
  { intros a r E. rewrite List.Forall_forall in Hb. apply Hb. apply in_rev.
    rewrite E. now left. }
  destruct Hp as [-> | [-> | ->]]; simpl.
  - destruct (rev body) as [|a [|b r]] eqn:E.
    + apply (f_equal (@rev ascii)) in E. rewrite rev_involutive in E. now subst.
    + rewrite (Hlast a [] eq_refl). now rewrite app_nil_r.
    + rewrite (Hlast a (b :: r) eq_refl). now rewrite app_nil_r.
  - destruct (rev body) as [|b r] eqn:E.
    + apply (f_equal (@rev ascii)) in E. rewrite rev_involutive in E. now subst.
    + rewrite (Hlast b r eq_refl). change (rev r ++ [b]) with (rev (b :: r)).
      rewrite <- E. apply rev_involutive.
  - apply rev_involutive.
Qed.

(** [atob] undoes the encoder on every list of byte values. *)
Lemma atob_btoa (l : list Z) :
  byte_values l ->
  atob (string_of_list_ascii (btoa_bytes l)) = Normal (string_of_codes l).
Proof.
  intros Hl. pose proof (encode_sextets_range l) as Hr.
  assert (Hbody : Forall (fun c => is_ascii_whitespace c = false
                                   /\ Ascii.eqb c equals_sign = false)
                    (map b64_char (encode_sextets l))).
  { apply List.Forall_map. eapply List.Forall_impl; [| exact Hr].
    intros s Hs. exact (proj2 (b64_char_facts s Hs)). }
  assert (Hpad : Forall (fun c => is_ascii_whitespace c = false) (padding l)).
  { destruct (padding_cases l) as [[-> _] | [[-> _] | [-> _]]];
      repeat constructor. }
  unfold atob. rewrite btoa_bytes_split, remove_whitespace_plain.
  2:{ apply List.Forall_app. split; [| exact Hpad].
      eapply List.Forall_impl; [| exact Hbody]. now intros c [H _]. }
  assert (Hstrip : strip_padding (map b64_char (encode_sextets l) ++ padding l)
                   = map b64_char (encode_sextets l)).
  { apply strip_padding_body.
    - eapply List.Forall_impl; [| exact Hbody]. now intros c [_ H].
    - destruct (padding_cases l) as [[-> _] | [[-> _] | [-> _]]]; auto. }
  assert (Hlen : Z.of_nat (length (map b64_char (encode_sextets l) ++ padding l)) mod 4 = 0).
  { rewrite length_app, length_map.
    destruct (padding_cases l) as [[-> H] | [[-> H] | [-> H]]];
      cbn [length]; revert H; generalize (length (encode_sextets l)); intros n H;
      Z.div_mod_to_equations; lia. }
  rewrite Hlen. cbn [Z.eqb]. rewrite Hstrip, length_map.
  assert (Hne : (Z.of_nat (length (encode_sextets l)) mod 4 =? 1) = false).
  { apply Z.eqb_neq. destruct (padding_cases l) as [[_ H] | [[_ H] | [_ H]]]; lia. }
  rewrite Hne, (sextets_of_chars _ Hr), (decode_encode l Hl). reflexivity.
Qed.

Lemma codes_string_of_codes (l : list Z) :
  byte_values l -> codes (string_of_codes l) = l.
Proof.
  unfold codes. induction 1 as [|b l Hb _ IH]; simpl; [reflexivity |].
  rewrite IH. f_equal. unfold char_code, char_of_code.
  rewrite N_ascii_embedding by lia. lia.
Qed.

Lemma plain_reader_type (f : File) : plain_mime (file_type f) -> plain_mime (reader_type f).
Proof.
  intros H. unfold reader_type.
  destruct (String.eqb (file_type f) ""); [repeat split | exact H].
Qed.

Lemma reader_type_typed (f : File) : file_type f <> "" -> reader_type f = file_type f.
Proof.
  intros H. unfold reader_type. apply String.eqb_neq in H. now rewrite H.
Qed.

Lemma reader_type_untyped (f : File) :
  file_type f = "" -> reader_type f = "application/octet-stream".
Proof. intros H. unfold reader_type. now rewrite H. Qed.

(** What [getBase64] produces for a file, [base64ToFile] turns back into
    the same bytes, under the type the reader wrote as [new File] keeps
    it. *)
Lemma base64ToFile_readAsDataURL (f : File) (fileName : string) :
  byte_values (file_bits f) -> plain_mime (file_type f) ->
  base64ToFile (readAsDataURL f) fileName
  = Normal (mkFile (file_bits f) fileName (file_type_option (reader_type f))).
Proof.
  intros Hb Hm. unfold readAsDataURL.
  rewrite (base64ToFile_data_url (reader_type f) _ fileName (string_of_codes (file_bits f))
             (plain_reader_type f Hm))
    by now apply atob_btoa.
  now rewrite codes_string_of_codes.
Qed.

(** The header of the data URL of a file carries the type the reader
    wrote. *)
Lemma readAsDataURL_header (f : File) :
  byte_values (file_bits f) -> plain_mime (file_type f) ->
  match_mime (default EmptyString (head (split_on comma (readAsDataURL f))))
  = Some (reader_type f).
Proof.
  intros Hb Hm. destruct (plain_reader_type f Hm) as (Hc & Hs & Hl).
  unfold readAsDataURL.
  assert (Hh : has_char comma ("data:" +:+ reader_type f +:+ ";base64") = false).
  { rewrite !has_char_app, Hc. reflexivity. }
  replace ("data:" +:+ reader_type f +:+ ";base64," +:+
           string_of_list_ascii (btoa_bytes (file_bits f)))
    with (("data:" +:+ reader_type f +:+ ";base64") +:+
          String comma (string_of_list_ascii (btoa_bytes (file_bits f))))
    by (rewrite !string_app_assoc; reflexivity).
  rewrite (split_on_app _ _ _ Hh). cbn [head default].
  now apply (match_mime_data_header (reader_type f) "base64").
Qed.

(** C10, as the code has it. [base64ToFile] returns exactly when the text
    before the first comma has a match of [:(.*?);] and the text between the
    first comma and the next (or the end) is accepted by [atob]; the file
    then holds the decoded code units and the given name, and its type is
    what [new File] makes of the captured text: its ASCII lower case, or
    the empty string when it holds a character outside U+0020..U+007E. It
    throws on an input without a comma, on a header without a match and on
    a payload [atob] refuses. On [data:<mime>;base64,<payload>], and on
    [data:<mime>;<parameters>,<payload>] in general, with [<mime>] free of
    commas, semicolons and line breaks and a payload [atob] accepts, it
    returns the decoded bytes under what [new File] makes of [<mime>]: the
    text up to the first semicolon, not the text up to [;base64]. The data
    URL that [readAsDataURL] gives for a file decodes to the bytes of that
    file, under its type when that is not empty and is in lower-case
    printable ASCII, and under application/octet-stream when it is
    empty. *)
Theorem base64ToFile_partial :
  (forall s fileName f,
      base64ToFile s fileName = Normal f <->
      exists header rest mime bstr,
        split_on comma s = header :: rest /\
        match_mime header = Some mime /\
        atob_arg (head rest) = Normal bstr /\
        f = mkFile (codes bstr) fileName
              (if all_printable mime then lower_case mime else EmptyString)) /\
  (forall s fileName,
      has_char comma s = false -> is_Normal (base64ToFile s fileName) = false) /\
  (forall s fileName,
      match_mime (default EmptyString (head (split_on comma s))) = None ->
      is_Normal (base64ToFile s fileName) = false) /\
  (forall s fileName,
      is_Normal (atob_arg (js_index (split_on comma s) 1)) = false ->
      is_Normal (base64ToFile s fileName) = false) /\
  (forall mime payload fileName bstr,
      plain_mime mime -> atob payload = Normal bstr ->
      base64ToFile ("data:" +:+ mime +:+ ";base64," +:+ payload) fileName
      = Normal (mkFile (codes bstr) fileName
                  (if all_printable mime then lower_case mime else EmptyString))) /\
  (forall mime params payload fileName bstr,
      plain_mime mime -> has_char comma params = false -> atob payload = Normal bstr ->
      base64ToFile ("data:" +:+ mime +:+ ";" +:+ params +:+ "," +:+ payload) fileName
      = Normal (mkFile (codes bstr) fileName
                  (if all_printable mime then lower_case mime else EmptyString))) /\
  (forall f fileName,
      byte_values (file_bits f) -> plain_mime (file_type f) ->
      (file_type f <> "" -> all_printable (file_type f) = true ->
       lower_case (file_type f) = file_type f ->
       base64ToFile (readAsDataURL f) fileName
       = Normal (mkFile (file_bits f) fileName (file_type f))) /\
      (file_type f = "" ->
       base64ToFile (readAsDataURL f) fileName
       = Normal (mkFile (file_bits f) fileName "application/octet-stream"))).
Proof.
  split; [exact base64ToFile_Normal |].
  split; [exact base64ToFile_no_comma |].
  split; [intros s n H; now rewrite (base64ToFile_no_header s n H) |].
  split; [exact base64ToFile_bad_payload |].
  split; [exact base64ToFile_data_url |].
  split; [exact base64ToFile_data_url_params |].
  intros f fileName Hb Hm.
  rewrite (base64ToFile_readAsDataURL f fileName Hb Hm). split.
  - intros Hne Hp Hl. rewrite (reader_type_typed f Hne).
    unfold file_type_option. now rewrite Hp, Hl.
  - intros He. now rewrite (reader_type_untyped f He).
Qed.

(** The decoder at a PNG data URL of three bytes whose type is written in
    upper case. *)
Lemma base64ToFile_partial_witness :
  plain_mime "IMAGE/PNG" /\ atob "QUJD" = Normal "ABC" /\
  base64ToFile "data:IMAGE/PNG;base64,QUJD" "slot-1.jpg"
  = Normal (mkFile [65; 66; 67] "slot-1.jpg" "image/png").
Proof.
  assert (Hm : plain_mime "IMAGE/PNG") by (repeat split; reflexivity).
  assert (Ha : atob "QUJD" = Normal "ABC") by reflexivity.
  split; [exact Hm |]. split; [exact Ha |].
  exact (proj1 (proj2 (proj2 (proj2 (proj2 base64ToFile_partial))))
           "IMAGE/PNG" "QUJD" "slot-1.jpg" "ABC" Hm Ha).
Defined.

(** C10 as stated fails: the decoder also returns on a data URL that is not
    base64-encoded (no [;base64] marker), reading its text as base64; and
    on a base64 data URL the type of the file is not always the declared
    one. *)
Lemma base64ToFile_not_only_base64_urls :
  base64ToFile "data:text/plain;charset=utf-8,QUJD" "doc.jpg"
  = Normal (mkFile [65; 66; 67] "doc.jpg" "text/plain")
  /\ ~ data_url_shape "data:text/plain;charset=utf-8,QUJD"
  /\ base64ToFile "data:IMAGE/PNG;base64,QUJD" "doc.jpg"
     = Normal (mkFile [65; 66; 67] "doc.jpg" "image/png")
  /\ base64ToFile "data:text/plain;charset=utf-8;base64,QUJD" "doc.jpg"
     = Normal (mkFile [65; 66; 67] "doc.jpg" "text/plain").
Proof.
  split; [reflexivity |]. split; [| split; reflexivity].
  intros H. apply data_url_shape_marker in H as [_ H]. discriminate H.
Qed.

(** ** Proofs: validation and the file picker *)

Lemma size_check (f : File) :
  Qle_bool (inject_Z 2) (size_in_MiB f) = true <-> 2 * 1024 * 1024 <= file_size f.
Proof.
  rewrite Qle_bool_iff. unfold size_in_MiB, Qle, Qdiv, Qmult, Qinv. simpl. lia.
Qed.

(** The validator of the newer copy refuses what C1 names, with an error
    shown, and accepts the rest silently. *)
Lemma beforeUpload_verdict (f : File) :
  (startsWith "image/" (file_type f) = false \/ 2 * 1024 * 1024 <= file_size f ->
   fst (ImageUploader.beforeUpload f) = false /\ snd (ImageUploader.beforeUpload f) <> []) /\
  (startsWith "image/" (file_type f) = true -> file_size f < 2 * 1024 * 1024 ->
   ImageUploader.beforeUpload f = (true, [])).
Proof.
  unfold ImageUploader.beforeUpload.
  destruct (startsWith "image/" (file_type f)) eqn:Ht; simpl.
  - destruct (Qle_bool (inject_Z 2) (size_in_MiB f)) eqn:Hs.
    + split; [intros _; split; [reflexivity | discriminate] |].
      intros _ Hlt. apply size_check in Hs. lia.
    + split; [| reflexivity].
      intros [H|H]; [discriminate |]. apply size_check in H. congruence.
  - split; [intros _; split; [reflexivity | discriminate] | discriminate].
Qed.

(** Both copies of the validator agree. *)
Lemma beforeUpload_same (f : File) :
  Part000.beforeUpload f = ImageUploader.beforeUpload f.
Proof.
  unfold Part000.beforeUpload, ImageUploader.beforeUpload.
  destruct (startsWith "image/" (file_type f)); simpl; [| reflexivity].
  destruct (Qle_bool (inject_Z 2) (size_in_MiB f)); reflexivity.
Qed.

(** With [validateFile] bound to [beforeUpload], [handleFileChange] would do
    what C1 says: an error is shown and nothing else changes. *)
Lemma handleFileChange_bound_rejects (slot : string) (now : Z) (info : UploadFile)
    (f : File) (st : AppState) :
  is_uploading info = false -> origin_or_self info = VFile f ->
  startsWith "image/" (file_type f) = false \/ 2 * 1024 * 1024 <= file_size f ->
  let r := ImageUploader.handleFileChange_with (Some ImageUploader.beforeUpload_value)
             slot now info st in
  snd r = None /\
  fileList (fst r) = fileList st /\ imagePreviews (fst r) = imagePreviews st /\
  readers (fst r) = readers st /\
  exists shown, shown <> [] /\ notices (fst r) = notices st ++ shown.
Proof.
  intros Hu Ho Hbad. unfold ImageUploader.handleFileChange_with.
  rewrite Hu, Ho. simpl.
  destruct (proj1 (beforeUpload_verdict f) Hbad) as [Hv Hn].
  destruct (ImageUploader.beforeUpload f) as [ok shown]. simpl in *. subst ok. simpl.
  repeat split. now exists shown.
Qed.

(** The handler as written: for a file that is not mid-upload the call to
    the unbound [validateFile] throws before anything is read or changed. *)
Lemma handleFileChange_throws (slot : string) (now : Z) (info : UploadFile) (st : AppState) :
  is_uploading info = false ->
  ImageUploader.handleFileChange slot now info st = (st, Some (ReferenceError "validateFile")).
Proof.
  intros Hu. unfold ImageUploader.handleFileChange, ImageUploader.handleFileChange_with.
  now rewrite Hu.
Qed.

(** C1 at a PDF: the validator refuses it, but the handler never calls the
    validator: it throws a ReferenceError and shows nothing. A valid PNG
    meets the same exception. The older copy stages the PDF. *)
Theorem handleFileChange_at_pdf :
  let st := initial_app [] in
  ImageUploader.beforeUpload pdf_file
    = (false, [MessageError "You can only upload image files!"]) /\
  ImageUploader.handleFileChange "acknowledgement" 0 (picked pdf_file) st
    = (st, Some (ReferenceError "validateFile")) /\
  ImageUploader.handleFileChange "acknowledgement" 0 (picked png_file) st
    = (st, Some (ReferenceError "validateFile")) /\
  fileList (fst (Part000.handleFileChange "acknowledgement" 0 (picked pdf_file) st))
    = [("acknowledgement", VFile pdf_file)] /\
  notices (fst (Part000.handleFileChange "acknowledgement" 0 (picked pdf_file) st)) = [].
Proof. repeat split. Qed.

(** ** Proofs: submission *)

Lemma append_entries_filter (keep : value -> bool) (o : jsobj value) (fd : FormData) :
  append_entries keep o fd = fd ++ List.filter (fun kv => keep (snd kv)) o.
Proof.
  unfold append_entries. revert fd.
  induction o as [|kv o IH]; intros fd; simpl; [now rewrite app_nil_r |].
  rewrite IH. destruct (keep (snd kv)); [now rewrite <- app_assoc | reflexivity].
Qed.

Lemma build_form_data_filter (values files : jsobj value) :
  build_form_data values files
  = List.filter (fun kv => is_filled (snd kv)) values
    ++ List.filter (fun kv => truthy (snd kv)) files.
Proof. unfold build_form_data. now rewrite !append_entries_filter. Qed.

Lemma is_filled_iff (v : value) :
  is_filled v = true <-> v <> VUndefined /\ v <> VNull /\ v <> VString EmptyString.
Proof.
  destruct v as [| |b|n|s|f]; simpl.
  - split; [discriminate | intros (H & _); congruence].
  - split; [discriminate | intros (_ & H & _); congruence].
  - split; [intros _; repeat split; discriminate | reflexivity].
  - split; [intros _; repeat split; discriminate | reflexivity].
  - destruct (String.eqb_spec s ""); simpl.
    + subst. split; [discriminate | intros (_ & _ & H); congruence].
    + split; [intros _; repeat split; congruence | reflexivity].
  - split; [intros _; repeat split; discriminate | reflexivity].
Qed.

Lemma filter_all_files (files : jsobj value) :
  all_files files -> List.filter (fun kv => truthy (snd kv)) files = files.
Proof.
  induction files as [|[k v] o IH]; intros H; simpl; [reflexivity |].
  destruct (H k v (or_introl eq_refl)) as [f ->]. simpl. f_equal.
  apply IH. intros k' v' Hin. apply (H k' v'). now right.
Qed.

(** C6. The request sent by [handleSubmit] carries, in order, the fields
    whose value is none of [undefined], [null], [''], then one part per
    staged file under its slot name; with nothing staged and every field
    empty the body is empty. *)
Theorem submission_body (values : jsobj value) (st : AppState) :
  all_files (fileList st) ->
  let body := build_form_data values (fileList st) in
  requests (handleSubmit_begin values st) = requests st ++ [body] /\
  body = List.filter (fun kv => is_filled (snd kv)) values ++ fileList st /\
  (forall k v, In (k, v) body <->
     (In (k, v) values /\ v <> VUndefined /\ v <> VNull /\ v <> VString EmptyString)
     \/ In (k, v) (fileList st)) /\
  (fileList st = [] ->
   (forall k v, In (k, v) values -> v = VUndefined \/ v = VNull \/ v = VString EmptyString) ->
   body = []).
Proof.
  intros Hf body. subst body.
  split; [reflexivity |].
  rewrite build_form_data_filter, (filter_all_files _ Hf).
  split; [reflexivity |]. split.
  - intros k v. rewrite in_app_iff, filter_In. simpl. now rewrite is_filled_iff.
  - intros -> Hempty. rewrite app_nil_r.
    induction values as [|[k v] vs IH]; simpl; [reflexivity |].
    destruct (Hempty k v (or_introl eq_refl)) as [-> | [-> | ->]]; simpl;
      apply IH; intros k' v' Hin; apply (Hempty k' v'); now right.
Qed.

(** C6 on the sample form: two text parts and the staged PNG. *)
Lemma submission_body_witness :
  all_files (fileList filled_app) /\
  build_form_data (form_fields filled_app) (fileList filled_app)
  = [("orderID", VString "1042"); ("fullName", VString "A. Khan");
     ("acknowledgement", VFile png_file)].
Proof.
  assert (H : all_files (fileList filled_app)).
  { intros k v [[= <- <-]|[]]. now exists png_file. }
  split; [exact H |].
  exact (eq_trans (proj1 (proj2 (submission_body (form_fields filled_app) filled_app H)))
                  eq_refl).
Defined.

Lemma resetFields_cleared (fields : jsobj value) (k : string) (v : value) :
  In (k, v) (resetFields fields) -> v = VUndefined.
Proof.
  unfold resetFields. rewrite in_map_iff. intros ([k' v'] & [= _ <-] & _). reflexivity.
Qed.

Lemma on_success_cleared (st : AppState) : cleared (on_success st).
Proof.
  unfold cleared, on_success. simpl. repeat split.
  intros k v. apply resetFields_cleared.
Qed.

(** The newer copy does what C2 says: a success response clears the fields,
    the staged binaries and the previews; a failure status or a rejected
    request leaves all three as they were. *)
Lemma handleSubmit_reset_or_keep (values : jsobj value) (res : fetch_result) (st : AppState) :
  (succeeded res -> cleared (ImageUploader.handleSubmit values res st)) /\
  (failed res -> held (ImageUploader.handleSubmit values res st) = held st).
Proof.
  unfold ImageUploader.handleSubmit, ImageUploader.handleSubmit_end.
  destruct res as [r|e]; simpl.
  - destruct (resp_ok r); split; intros H; try discriminate.
    + destruct (on_success_cleared (handleSubmit_begin values st)) as (Ha & Hb & Hc).
      repeat split; assumption.
    + reflexivity.
  - split; [intros [] | reflexivity].
Qed.

(** The older copy keeps the state on failure, and clears it on a success
    response whose body is JSON. *)
Lemma old_handleSubmit_reset_or_keep (values : jsobj value) (res : fetch_result)
    (st : AppState) :
  (failed res -> held (Part000.handleSubmit values res st) = held st) /\
  (forall r, res = FetchResolved r -> resp_ok r = true ->
     resp_body_is_json r = true ->
     cleared (Part000.handleSubmit values res st)).
Proof.
  unfold Part000.handleSubmit, Part000.handleSubmit_end. split.
  - destruct res as [r|e]; simpl; [| reflexivity].
    intros ->. reflexivity.
  - intros r -> Hok Hj. rewrite Hok. unfold response_json. rewrite Hj.
    destruct (on_success_cleared (handleSubmit_begin values st)) as (Ha & Hb & Hc).
    repeat split; assumption.
Qed.

(** The older copy on a success response with a body that is not JSON:
    nothing is cleared and an error is shown. *)
Lemma old_handleSubmit_unreadable (values : jsobj value) (r : Response) (st : AppState) :
  resp_ok r = true -> resp_body_is_json r = false ->
  let st' := Part000.handleSubmit values (FetchResolved r) st in
  held st' = held st /\
  notices st' = notices st ++
    [NotificationInfo "Submitting..." "Submitting update...";
     NotificationError "Error"
       "Update failed: Failed to execute 'text' on 'Response': body stream already read"].
Proof.
  intros Hok Hj. unfold Part000.handleSubmit, Part000.handleSubmit_end.
  rewrite Hok. unfold response_json, response_text. rewrite Hj. simpl.
  split; [reflexivity |]. now rewrite <- app_assoc.
Qed.

(** C2 at a 200 response with the plain-text body "OK", on the sample form.
    The newer copy clears the form. The older copy reads the body as JSON,
    fails, reads it again as text, fails again because the body is spent,
    and lands in its [catch]: the fields, the staged file and its preview
    stay, under an error notice, although the response was a success. *)
Theorem handleSubmit_at_plain_text_success :
  let res := FetchResolved plain_ok_response in
  let values := form_fields filled_app in
  succeeded res /\
  cleared (ImageUploader.handleSubmit values res filled_app) /\
  held (Part000.handleSubmit values res filled_app) = held filled_app /\
  notices (Part000.handleSubmit values res filled_app)
  = [NotificationInfo "Submitting..." "Submitting update...";
     NotificationError "Error"
       "Update failed: Failed to execute 'text' on 'Response': body stream already read"].
Proof.
  split; [reflexivity |]. split.
  - apply handleSubmit_reset_or_keep. reflexivity.
  - split; reflexivity.
Qed.

(** ** Proofs: staging and previews *)

Lemma obj_get_set_eq {V} (o : jsobj V) (k : string) (v : V) :
  obj_get (obj_set k v o) k = Some v.
Proof.
  induction o as [|[k' v'] o IH]; simpl.
  - now rewrite String.eqb_refl.
  - destruct (String.eqb k' k) eqn:E; simpl.
    + now rewrite String.eqb_refl.
    + now rewrite E.
Qed.

Lemma obj_get_set_ne {V} (o : jsobj V) (k k' : string) (v : V) :
  k <> k' -> obj_get (obj_set k v o) k' = obj_get o k'.
Proof.
  intros Hne. induction o as [|[k0 v0] o IH]; simpl.
  - destruct (String.eqb_spec k k'); congruence.
  - destruct (String.eqb_spec k0 k); simpl.
    + subst k0. destruct (String.eqb_spec k k'); congruence.
    + now rewrite IH.
Qed.

Lemma last_read_app (slot s : string) (f : File) (rs : list (string * File)) :
  last_read slot (rs ++ [(s, f)])
  = if String.eqb s slot then Some f else last_read slot rs.
Proof.
  induction rs as [|[s' f'] rs IH]; simpl; [reflexivity |].
  rewrite IH. destruct (String.eqb s slot); [reflexivity |].
  reflexivity.
Qed.

Lemma settles_stage (slot : string) (file : File) (st : AppState) :
  settles st ->
  settles (fst (getBase64 slot (VFile file)
                  (set_fileList (obj_set slot (VFile file) (fileList st)) st))).
Proof.
  intros H t. specialize (H t). simpl. rewrite last_read_app.
  destruct (String.eqb_spec slot t) as [->|Hne].
  - apply obj_get_set_eq.
  - rewrite (obj_get_set_ne _ _ _ _ Hne).
    destruct (last_read t (readers st)); exact H.
Qed.

Lemma settles_load (st : AppState) : settles st -> settles (reader_load 0 st).
Proof.
  intros H t. specialize (H t). unfold reader_load.
  destruct (readers st) as [|[s f] rs] eqn:E; simpl; [now rewrite E |].
  simpl in H.
  destruct (last_read t rs) as [g|] eqn:El; [exact H |].
  destruct (String.eqb_spec s t) as [->|Hne].
  - rewrite obj_get_set_eq. intros url [= <-]. now exists f.
  - now rewrite (obj_get_set_ne _ _ _ _ Hne).
Qed.

Lemma settles_ext (st st' : AppState) :
  readers st' = readers st -> fileList st' = fileList st ->
  imagePreviews st' = imagePreviews st -> settles st -> settles st'.
Proof.
  intros Hr Hf Hp H t. specialize (H t). now rewrite Hr, Hf, Hp.
Qed.

Lemma settles_capture (field : option string) (file : File) (st : AppState) :
  settles st -> settles (fst (handleCameraCapture field file st)).
Proof.
  intros H. unfold handleCameraCapture.
  destruct field as [slot|]; [| now apply (settles_ext st)].
  destruct (truthy (VString slot)); [| now apply (settles_ext st)].
  eapply settles_ext; [| | | exact (settles_stage slot file st H)]; reflexivity.
Qed.

(** The invariant, slot by slot. *)
Lemma settles_at_all (st : AppState) : settles st <-> forall slot, settles_at slot st.
Proof. reflexivity. Qed.

Lemma settles_at_ext (t : string) (st st' : AppState) :
  readers st' = readers st -> fileList st' = fileList st ->
  imagePreviews st' = imagePreviews st -> settles_at t st -> settles_at t st'.
Proof. unfold settles_at. intros -> -> ->. exact id. Qed.

Lemma settles_at_stage (t slot : string) (file : File) (st : AppState) :
  settles_at t st ->
  settles_at t (fst (getBase64 slot (VFile file)
                       (set_fileList (obj_set slot (VFile file) (fileList st)) st))).
Proof.
  unfold settles_at. intros H. simpl. rewrite last_read_app.
  destruct (String.eqb_spec slot t) as [->|Hne].
  - apply obj_get_set_eq.
  - rewrite (obj_get_set_ne _ _ _ _ Hne).
    destruct (last_read t (readers st)); exact H.
Qed.

Lemma settles_at_capture (t : string) (field : option string) (file : File)
    (st : AppState) :
  settles_at t st -> settles_at t (fst (handleCameraCapture field file st)).
Proof.
  intros H. unfold handleCameraCapture.
  destruct field as [slot|]; [| now apply (settles_at_ext t st)].
  destruct (truthy (VString slot)); [| now apply (settles_at_ext t st)].
  eapply settles_at_ext; [| | | exact (settles_at_stage t slot file st H)]; reflexivity.
Qed.

Lemma settles_at_pick (t slot : string) (now : Z) (info : UploadFile) (st : AppState) :
  settles_at t st ->
  settles_at t (fst (ImageUploader.handleFileChange_with None slot now info st)) /\
  settles_at t (fst (ImageUploader.handleFileChange_with
                       (Some ImageUploader.beforeUpload_value) slot now info st)).
Proof.
  intros H. unfold ImageUploader.handleFileChange_with.
  destruct (is_uploading info); [now split |]. split; [exact H |].
  unfold stage_and_preview.
  destruct (origin_or_self info) as [| |b|n|s|f]; try exact H.
  simpl. destruct (ImageUploader.beforeUpload f) as [[|] shown]; simpl.
  - eapply settles_at_ext;
      [| | | exact (settles_at_stage t slot f (add_notices shown st)
                      (settles_at_ext t st _ eq_refl eq_refl eq_refl H))]; reflexivity.
  - now apply (settles_at_ext t st).
Qed.

Lemma none_for_cons (t : string) (r : string * File) (rs : list (string * File)) :
  none_for t (r :: rs) = negb (is_for t r) && none_for t rs.
Proof. unfold none_for. simpl. apply negb_orb. Qed.

Lemma last_read_none (t : string) (rs : list (string * File)) :
  none_for t rs = true <-> last_read t rs = None.
Proof.
  induction rs as [|[s f] rs IH]; [now split |].
  rewrite none_for_cons. unfold is_for. simpl.
  destruct (last_read t rs) as [g|].
  - split; [| discriminate]. intros H. apply andb_true_iff in H as [_ H].
    apply IH in H. discriminate H.
  - destruct (String.eqb s t); simpl; [split; discriminate |].
    split; [reflexivity | intros _; now apply IH].
Qed.

Lemma last_read_append (t : string) (a b : list (string * File)) :
  last_read t (a ++ b)
  = match last_read t b with
    | Some g => Some g
    | None => last_read t a
    end.
Proof.
  induction a as [|[s f] a IH]; simpl.
  - now destruct (last_read t b).
  - rewrite IH. now destruct (last_read t b).
Qed.

(** A read that completes in its turn keeps the invariant of the slot. *)
Lemma settles_at_load (t : string) (i : nat) (st : AppState) :
  in_turn t i (readers st) = true -> settles_at t st -> settles_at t (reader_load i st).
Proof.
  unfold in_turn, reader_load, settles_at.
  destruct (readers st !! i) as [[s f]|] eqn:Ei; [| intros _ H; exact H].
  intros Hturn H. simpl.
  rewrite delete_take_drop, last_read_append.
  rewrite <- (take_drop_middle _ _ _ Ei), last_read_append in H. simpl in H.
  unfold is_for in Hturn. simpl in Hturn.
  destruct (String.eqb_spec s t) as [->|Hne].
  - simpl in Hturn. apply last_read_none in Hturn. rewrite Hturn.
    destruct (last_read t (drop (S i) (readers st))) as [g|]; [exact H |].
    rewrite obj_get_set_eq. intros url [= <-]. now exists f.
  - rewrite (obj_get_set_ne _ _ _ _ Hne).
    destruct (last_read t (drop (S i) (readers st))) as [g|]; exact H.
Qed.

Lemma settles_at_step (vf : option (value -> completion (bool * list notice)))
    (t : string) (ev : page_event) (rest : list page_event) (st : AppState) :
  vf = None \/ vf = Some ImageUploader.beforeUpload_value ->
  settles_at t st -> in_order_with vf t (ev :: rest) st ->
  settles_at t (page_step_with vf ev st).
Proof.
  intros Hvf H [Hev _].
  destruct ev as [slot now info|slot|field file| |i|values|res]; unfold page_step_with.
  - destruct Hvf as [-> | ->]; now apply settles_at_pick.
  - now apply (settles_at_ext t st).
  - now apply settles_at_capture.
  - now apply (settles_at_ext t st).
  - now apply settles_at_load.
  - now apply (settles_at_ext t st).
  - unfold ImageUploader.handleSubmit_end.
    destruct res as [r|e]; [| now apply (settles_at_ext t st)].
    destruct (resp_ok r) eqn:Hok; [| now apply (settles_at_ext t st)].
    unfold settles_at. simpl. rewrite (proj1 (last_read_none t _) (Hev Hok)).
    discriminate.
Qed.

Lemma settles_at_run (vf : option (value -> completion (bool * list notice)))
    (t : string) (evs : list page_event) (st : AppState) :
  vf = None \/ vf = Some ImageUploader.beforeUpload_value ->
  settles_at t st -> in_order_with vf t evs st ->
  settles_at t (fold_left (fun st ev => page_step_with vf ev st) evs st).
Proof.
  intros Hvf. revert st. induction evs as [|ev rest IH]; intros st H Hord; [exact H |].
  simpl. apply IH; [exact (settles_at_step vf t ev rest st Hvf H Hord) | exact (proj2 Hord)].
Qed.

Lemma settled_slot (t : string) (st : AppState) :
  settles_at t st -> none_for t (readers st) = true ->
  forall url, obj_get (imagePreviews st) t = Some url ->
    exists f, obj_get (fileList st) t = Some (VFile f) /\ url = readAsDataURL f.
Proof.
  unfold settles_at. intros H Hn. apply last_read_none in Hn. now rewrite Hn in H.
Qed.

(** The same holds for the page with [validateFile] bound to
    [beforeUpload]: validated picks stage files only. *)
Lemma preview_matches_staged_bound (fields : jsobj value) (evs : list page_event)
    (slot : string) :
  let vf := Some ImageUploader.beforeUpload_value in
  let st := fold_left (fun st ev => page_step_with vf ev st) evs (initial_app fields) in
  in_order_with vf slot evs (initial_app fields) ->
  none_for slot (readers st) = true ->
  forall url, obj_get (imagePreviews st) slot = Some url ->
    exists f, obj_get (fileList st) slot = Some (VFile f) /\ url = readAsDataURL f.
Proof.
  intros vf st Hord. apply settled_slot.
  apply settles_at_run; [now right | | exact Hord]. unfold settles_at. simpl. discriminate.
Qed.




(** ** Proofs: capture *)

Lemma draw_and_keep_still (failure : string) (crop : Rect) (c : Cam) :
  let c' := draw_and_keep Draws failure crop c in
  capturedImage c' = Some (mkStill "image/jpeg" 0.9%float 856 540 [mkDraw crop output_rect]) /\
  showPreview c' = true /\
  canvasRef c' = Some (mkCanvas 856 540 [mkDraw crop output_rect]) /\
  error c' = error c /\ effects c' = effects c /\ live_tracks c' = live_tracks c.
Proof. repeat split. Qed.

Lemma captureImage_ready (env : try_result) (c : Cam) (video : Video) (canvas : Canvas)
    (W H : Z) :
  videoRef c = Some video -> canvasRef c = Some canvas ->
  readyState video = HAVE_ENOUGH_DATA ->
  videoWidth video = Some W -> videoHeight video = Some H -> W <> 0 -> H <> 0 ->
  ImageUploader.captureImage env c
  = draw_and_keep env "Failed to capture image."
      (ImageUploader.crop_region (num W) (num H)
         (num (clientWidth video)) (num (clientHeight video))) c
  /\
  Part000.captureImage env c
  = draw_and_keep env "Failed to capture image. Please try again."
      (Part000.crop_region (num W) (num H)) c.
Proof.
  intros Hv Hc Hr Hw Hh HW HH.
  unfold ImageUploader.captureImage, Part000.captureImage, Part000.or_number.
  assert (EW : (W =? 0) = false) by now apply Z.eqb_neq.
  assert (EH : (H =? 0) = false) by now apply Z.eqb_neq.
  rewrite Hv, Hc, Hr, Hw, Hh. simpl.
  rewrite ?EW, ?EH. simpl. rewrite ?EW, ?EH. simpl.
  split; reflexivity.
Qed.

(** C3. With a frame of positive width and height ready, whatever the
    displayed size, a capture whose [try] block does not throw leaves a
    still of 856x540 pixels, JPEG at quality 0.9, on a canvas of that size,
    and shows the preview; this holds in both copies. *)
Theorem capture_is_856_by_540 (c : Cam) (video : Video) (canvas : Canvas) (W H : Z) :
  videoRef c = Some video -> canvasRef c = Some canvas ->
  readyState video = HAVE_ENOUGH_DATA ->
  videoWidth video = Some W -> videoHeight video = Some H -> 0 < W -> 0 < H ->
  forall c', c' = ImageUploader.captureImage Draws c \/ c' = Part000.captureImage Draws c ->
    exists still cv,
      capturedImage c' = Some still /\ showPreview c' = true /\
      still_width still = 856 /\ still_height still = 540 /\
      still_type still = "image/jpeg" /\ still_quality still = 0.9%float /\
      canvasRef c' = Some cv /\ canvas_width cv = 856 /\ canvas_height cv = 540 /\
      still_calls still = canvas_calls cv.
Proof.
  intros Hv Hc Hr Hw Hh HW HH c' Hc'.
  destruct (captureImage_ready Draws c video canvas W H Hv Hc Hr Hw Hh) as [E1 E2];
    try lia.
  destruct Hc' as [-> | ->]; [rewrite E1 | rewrite E2];
    eexists; eexists; repeat split.
Qed.

(** C3 on the sample stream: 1920x1080 shown at 600x338. *)
Lemma capture_is_856_by_540_witness :
  exists still cv,
    capturedImage (ImageUploader.captureImage Draws streaming) = Some still /\
    showPreview (ImageUploader.captureImage Draws streaming) = true /\
    still_width still = 856 /\ still_height still = 540 /\
    still_type still = "image/jpeg" /\ still_quality still = 0.9%float /\
    canvasRef (ImageUploader.captureImage Draws streaming) = Some cv /\
    canvas_width cv = 856 /\ canvas_height cv = 540 /\
    still_calls still = canvas_calls cv.
Proof.
  refine (capture_is_856_by_540 streaming
            (mkVideo (Some [7%nat]) 4 (Some 1920) (Some 1080) 600 338 true)
            fresh_canvas 1920 1080 _ _ _ _ _ _ _ _ (or_introl eq_refl));
    try reflexivity.
Defined.

(** Whatever a capture keeps, in either copy and however its [try] block
    goes, is what was there before or an 856x540 JPEG. *)
Lemma capture_keeps_only_856_by_540 (env : try_result) (c : Cam) (still : Still) :
  capturedImage (ImageUploader.captureImage env c) = Some still \/
  capturedImage (Part000.captureImage env c) = Some still ->
  capturedImage c = Some still \/
  (still_width still = 856 /\ still_height still = 540 /\
   still_type still = "image/jpeg" /\ still_quality still = 0.9%float).
Proof.
  unfold ImageUploader.captureImage, Part000.captureImage.
  destruct (videoRef c) as [video|]; [| tauto].
  destruct (canvasRef c) as [canvas|]; [| tauto].
  destruct (negb (readyState video =? HAVE_ENOUGH_DATA)); [simpl; tauto |].
  intros [H|H];
    match type of H with
    | context [if ?b then _ else _] => destruct b; [now left |]
    end;
    destruct env; simpl in H; try (now left);
    injection H as <-; right; repeat split.
Qed.

(** The crop of the newer copy is the overlay of the specification taken to
    frame pixels. *)
Lemma crop_region_is_mapped_overlay (videoWidth videoHeight displayWidth displayHeight : float) :
  ImageUploader.crop_region videoWidth videoHeight displayWidth displayHeight
  = mapped_overlay videoWidth videoHeight displayWidth displayHeight.
Proof. reflexivity. Qed.

(** The crop of the older copy: the full height of the frame when the frame
    is wider than the card, the full width otherwise, centred, and of the
    card's shape; the displayed size plays no part. *)
Lemma old_crop_region_cases (videoWidth videoHeight : float) :
  let r := Part000.crop_region videoWidth videoHeight in
  rect_x r = ((videoWidth - rect_w r) / 2)%float /\
  rect_y r = ((videoHeight - rect_h r) / 2)%float /\
  (PrimFloat.ltb CNIC_ASPECT_RATIO (videoWidth / videoHeight) = true ->
   rect_h r = videoHeight /\ rect_w r = (videoHeight * CNIC_ASPECT_RATIO)%float) /\
  (PrimFloat.ltb CNIC_ASPECT_RATIO (videoWidth / videoHeight) = false ->
   rect_w r = videoWidth /\ rect_h r = (videoWidth / CNIC_ASPECT_RATIO)%float).
Proof.
  unfold Part000.crop_region.
  destruct (PrimFloat.ltb CNIC_ASPECT_RATIO (videoWidth / videoHeight)); simpl;
    repeat split; intros; discriminate.
Qed.

(** C4, as the code has it. With a frame ready and of non-zero size, a
    capture that does not throw makes exactly one draw call, onto
    [0, 0, 856, 540]. In ImageUploader.jsx its source is the guide overlay
    (centred, 0.8 of the displayed width, that width over 1.586 high) with
    x and width scaled by videoWidth/displayWidth and y and height by
    videoHeight/displayHeight. In the older copy its source is the largest
    centred rectangle of ratio 1.586 inside the frame, whatever the
    displayed size: centred in both directions, and as high as the frame
    and 1.586 times that wide when videoWidth/videoHeight exceeds 1.586,
    as wide as the frame and that width over 1.586 high otherwise. *)
Theorem capture_draws_crop (c : Cam) (video : Video) (canvas : Canvas) (W H : Z) :
  videoRef c = Some video -> canvasRef c = Some canvas ->
  readyState video = HAVE_ENOUGH_DATA ->
  videoWidth video = Some W -> videoHeight video = Some H -> W <> 0 -> H <> 0 ->
  drawn (ImageUploader.captureImage Draws c)
  = [mkDraw (mapped_overlay (num W) (num H)
               (num (clientWidth video)) (num (clientHeight video))) output_rect]
  /\
  exists r,
    drawn (Part000.captureImage Draws c) = [mkDraw r output_rect] /\
    rect_x r = ((num W - rect_w r) / 2)%float /\
    rect_y r = ((num H - rect_h r) / 2)%float /\
    (PrimFloat.ltb 1.586 (num W / num H) = true ->
     rect_h r = num H /\ rect_w r = (num H * 1.586)%float) /\
    (PrimFloat.ltb 1.586 (num W / num H) = false ->
     rect_w r = num W /\ rect_h r = (num W / 1.586)%float).
Proof.
  intros Hv Hc Hr Hw Hh HW HH.
  destruct (captureImage_ready Draws c video canvas W H Hv Hc Hr Hw Hh HW HH) as [E1 E2].
  rewrite E1, E2. split; [reflexivity |].
  exists (Part000.crop_region (num W) (num H)). split; [reflexivity |].
  exact (old_crop_region_cases (num W) (num H)).
Qed.

(** C4 on the sample stream: the overlay of a 600x338 display lands at
    x = 192, width 1536 in a 1920x1080 frame. *)
Lemma capture_draws_crop_witness :
  drawn (ImageUploader.captureImage Draws streaming)
  = [mkDraw (mapped_overlay (num 1920) (num 1080) (num 600) (num 338)) output_rect]
  /\ rect_x (mapped_overlay (num 1920) (num 1080) (num 600) (num 338)) = 192%float
  /\ rect_w (mapped_overlay (num 1920) (num 1080) (num 600) (num 338)) = 1536%float.
Proof.
  split; [| split; vm_compute; reflexivity].
  refine (proj1 (capture_draws_crop streaming
            (mkVideo (Some [7%nat]) 4 (Some 1920) (Some 1080) 600 338 true)
            fresh_canvas 1920 1080 _ _ _ _ _ _ _)); try reflexivity; discriminate.
Defined.

(** C4 as stated fails on the older copy: for the same frame and display it
    draws a region that starts left of the mapped overlay and spans the
    whole height of the frame. *)
Lemma old_capture_draws_other_region :
  exists r,
    drawn (Part000.captureImage Draws old_streaming) = [mkDraw r output_rect] /\
    rect_y r = 0%float /\ rect_h r = 1080%float /\
    r <> mapped_overlay (num 1920) (num 1080) (num 600) (num 338).
Proof.
  exists (Part000.crop_region (num 1920) (num 1080)).
  split; [reflexivity |]. split; [vm_compute; reflexivity |].
  split; [vm_compute; reflexivity |].
  intros E. apply (f_equal (fun r => PrimFloat.ltb (rect_x r) 150)) in E.
  vm_compute in E. discriminate E.
Qed.

(** C5, as the code has it. While the video reports less than
    HAVE_ENOUGH_DATA, a capture trigger in ImageUploader.jsx changes nothing
    at all: no image, no error, no message, no timer. In the older copy it
    changes nothing either except that it schedules [captureImage] again
    after 100 ms. *)
Theorem capture_not_ready (env : try_result) (c : Cam) (video : Video) (canvas : Canvas) :
  videoRef c = Some video -> canvasRef c = Some canvas ->
  readyState video <> HAVE_ENOUGH_DATA ->
  ImageUploader.captureImage env c = c /\
  Part000.captureImage env c = emit [SetTimeout "captureImage" 100] c.
Proof.
  intros Hv Hc Hr. unfold ImageUploader.captureImage, Part000.captureImage.
  rewrite Hv, Hc. apply Z.eqb_neq in Hr. rewrite Hr. split; reflexivity.
Qed.

(** C5 on a stream whose first frame is not decoded yet. *)
Lemma capture_not_ready_witness :
  ImageUploader.captureImage Draws not_ready = not_ready /\
  capturedImage not_ready = None /\ error not_ready = None /\
  effects not_ready = [GetUserMedia; Play].
Proof.
  split; [| repeat split].
  refine (proj1 (capture_not_ready Draws not_ready
            (mkVideo (Some [7%nat]) 2 (Some 1920) (Some 1080) 600 338 true)
            fresh_canvas _ _ _)); try reflexivity; discriminate.
Defined.

(** C5 as stated fails on the older copy: the trigger schedules a retry, and
    when the timer fires on a frame that has become ready the image is
    captured with no second trigger from the user. *)
Lemma old_capture_retries :
  let c1 := Part000.step (EvClickCapture Draws) old_not_ready in
  let c2 := Part000.run [EvVideoProps 4 1920 1080 600 338; EvTimer "captureImage"] c1 in
  effects c1 = effects old_not_ready ++ [SetTimeout "captureImage" 100] /\
  capturedImage c1 = None /\
  capturedImage c2 <> None /\ showPreview c2 = true.
Proof. repeat split. discriminate. Qed.

(** ** Proofs: releasing the camera *)

Lemma filter_not_in_self (s : Stream) (live : list nat) :
  (forall t, In t live -> In t s) -> filter (fun t => t ∉ s) live = [].
Proof.
  intros H. induction live as [|t live IH]; [reflexivity |].
  rewrite filter_cons. destruct (decide (t ∉ s)) as [Hn|_].
  - exfalso. apply Hn. apply list_elem_of_In. apply H. now left.
  - apply IH. intros t' Ht'. apply H. now right.
Qed.

(** While the [<video>] element is mounted and holds the stream, cancel
    stops every live track and only then signals closure. *)
Lemma handleClose_mounted (c : Cam) (video : Video) (stream : Stream) :
  videoRef c = Some video -> srcObject video = Some stream ->
  (forall t, In t (live_tracks c) -> In t stream) ->
  live_tracks (handleClose c) = [] /\
  effects (handleClose c) = effects c ++ map TrackStop stream ++ [OnClose].
Proof.
  intros Hv Hs Hl. unfold handleClose, stopCamera. rewrite Hv, Hs. simpl.
  split; [now apply filter_not_in_self | now rewrite <- app_assoc].
Qed.

(** With no [<video>] element mounted, [stopCamera] does nothing. *)
Lemma stopCamera_unmounted (c : Cam) : videoRef c = None -> stopCamera c = c.
Proof. intros H. unfold stopCamera. now rewrite H. Qed.

(** The preview and the error view render no [<video>], so after React's
    commit the ref is null there. *)
Lemma commit_unmounts (c : Cam) : video_rendered c = false -> videoRef (commit c) = None.
Proof. intros H. unfold commit. now rewrite H. Qed.

(** In any state whose view renders no [<video>] (the preview, the error
    message), once React has committed, cancel stops no track and the
    accept callback stops none either: both reach [stopCamera] with a null
    ref. *)
Lemma unrendered_video_keeps_tracks (c : Cam) (blob : option (list Z)) (now : Z) :
  video_rendered c = false ->
  handleClose (commit c) = emit [OnClose] (commit c) /\
  live_tracks (handleClose (commit c)) = live_tracks c /\
  live_tracks (toBlob_callback blob now (commit c)) = live_tracks c.
Proof.
  intros H. pose proof (commit_unmounts c H) as Hv.
  unfold handleClose, toBlob_callback.
  rewrite !stopCamera_unmounted by (simpl; exact Hv).
  unfold commit. rewrite H. repeat split.
Qed.

(** C7 in three states of one camera with one track (id 7). Cancelled while
    streaming, the track is stopped before [onClose]. Cancelled while the
    preview is shown, or in the error view after [play()] was refused, no
    track is stopped: the [<video>] element is not rendered in those views,
    [videoRef.current] is null, [stopCamera] returns at its guard, and
    [onClose] is delivered with the track still live. The older copy does
    the same in its preview. *)
Theorem cancel_at_each_state :
  (live_tracks streaming = [7%nat] /\
   live_tracks (ImageUploader.step EvClickClose streaming) = [] /\
   effects (ImageUploader.step EvClickClose streaming)
   = effects streaming ++ [TrackStop 7; OnClose]) /\
  (showPreview previewing = true /\ videoRef previewing = None /\
   live_tracks previewing = [7%nat] /\
   live_tracks (ImageUploader.step EvClickClose previewing) = [7%nat] /\
   effects (ImageUploader.step EvClickClose previewing) = effects previewing ++ [OnClose]) /\
  (error play_refused = Some "Unable to start camera." /\
   live_tracks (ImageUploader.step EvClickClose play_refused) = [7%nat] /\
   effects (ImageUploader.step EvClickClose play_refused)
   = effects play_refused ++ [OnClose]) /\
  (showPreview old_previewing = true /\
   live_tracks (Part000.step EvClickClose old_previewing) = [7%nat] /\
   effects (Part000.step EvClickClose old_previewing) = effects old_previewing ++ [OnClose]).
Proof. repeat split. Qed.

(** ** Proofs: accept and retake *)

(** Accepting a preview asks for one blob; its callback hands exactly one
    file to the caller, named after the clock, of type image/jpeg, and then
    calls [stopCamera]. *)
Lemma accept_hands_one_file (c : Cam) (still : Still) (canvas : Canvas)
    (blob : list Z) (now : Z) :
  capturedImage c = Some still -> canvasRef c = Some canvas ->
  let file := mkFile blob ("cnic-" +:+ pretty now +:+ ".jpg") "image/jpeg" in
  confirmCapture c = (emit [ToBlob "image/jpeg" 0.9%float] c, None) /\
  toBlob_callback (Some blob) now (fst (confirmCapture c))
  = stopCamera (emit [ToBlob "image/jpeg" 0.9%float; OnCapture file] c).
Proof.
  intros Hs Hc file. unfold confirmCapture. rewrite Hs, Hc. split; [reflexivity |].
  unfold toBlob_callback. simpl. f_equal. unfold emit. simpl. now rewrite <- app_assoc.
Qed.

(** Retake drops the still, leaves the preview, schedules [startCamera] and
    signals nothing to the parent. *)
Lemma retake_keeps_flow_open (c : Cam) :
  let c' := ImageUploader.retakePhoto c in
  capturedImage c' = None /\ showPreview c' = false /\
  effects c' = effects c ++ [SetTimeout "startCamera" 100] /\
  live_tracks c' = live_tracks c.
Proof. repeat split. Qed.

(** C8 on the sample preview. Accept: one blob is requested, one file
    "cnic-1752825492000.jpg" of type image/jpeg goes to [onCapture], and the
    [stopCamera] that follows stops nothing, since the preview renders no
    [<video>]: track 7 stays live. Retake: the still is dropped, the camera
    view is back, nothing is signalled to the parent, and after the timer a
    second stream is acquired and played while track 7 of the first is
    still live. *)
Theorem accept_and_retake_in_preview :
  let accepted :=
    ImageUploader.run [EvClickConfirm; EvBlobReady (Some [255; 216; 255]) 1752825492000]
      previewing in
  let retaken :=
    ImageUploader.run [EvClickRetake; EvTimer "startCamera"; EvGetUserMediaResolved [8%nat];
                       EvLoadedMetadata; EvPlayResolved] previewing in
  effects accepted
  = effects previewing ++
    [ToBlob "image/jpeg" 0.9%float;
     OnCapture (mkFile [255; 216; 255] "cnic-1752825492000.jpg" "image/jpeg")] /\
  live_tracks accepted = [7%nat] /\
  capturedImage retaken = None /\ showPreview retaken = false /\
  isStreaming retaken = true /\
  effects retaken
  = effects previewing ++ [SetTimeout "startCamera" 100; GetUserMedia; Play] /\
  live_tracks retaken = [7%nat; 8%nat].
Proof. repeat split. Qed.


(** * Further properties of the code *)

(** ** The decoder and the preview encoder *)

(** X1. Decoding the data URL that [getBase64] produces for a file gives
    the bytes of that file back, and its type too when the type is not
    empty and is in lower-case printable ASCII (as the types of files are);
    a file with an empty type comes back as application/octet-stream,
    which is what the reader writes for it. Two files with the same data
    URL have the same bytes, and the same type when neither type is
    empty. *)
Theorem data_url_round_trip (f g : File) (fileName : string) :
  byte_values (file_bits f) -> plain_mime (file_type f) ->
  (file_type f <> "" -> all_printable (file_type f) = true ->
   lower_case (file_type f) = file_type f ->
   base64ToFile (readAsDataURL f) fileName
   = Normal (mkFile (file_bits f) fileName (file_type f))) /\
  (file_type f = "" ->
   base64ToFile (readAsDataURL f) fileName
   = Normal (mkFile (file_bits f) fileName "application/octet-stream")) /\
  (byte_values (file_bits g) -> plain_mime (file_type g) ->
   readAsDataURL f = readAsDataURL g ->
   file_bits f = file_bits g /\
   (file_type f <> "" -> file_type g <> "" -> file_type f = file_type g)).
Proof.
  intros Hb Hm. pose proof (base64ToFile_readAsDataURL f fileName Hb Hm) as Hf.
  split; [| split].
  - intros Hne Hp Hl. rewrite Hf, (reader_type_typed f Hne).
    unfold file_type_option. now rewrite Hp, Hl.
  - intros He. now rewrite Hf, (reader_type_untyped f He).
  - intros Hb' Hm' E.
    pose proof (base64ToFile_readAsDataURL g fileName Hb' Hm') as Hg.
    rewrite E, Hg in Hf. injection Hf as Hbits _. split; [now symmetry |].
    intros Hnf Hng.
    pose proof (readAsDataURL_header f Hb Hm) as Hhf.
    pose proof (readAsDataURL_header g Hb' Hm') as Hhg.
    rewrite E, Hhg in Hhf. injection Hhf as Ht.
    now rewrite (reader_type_typed f Hnf), (reader_type_typed g Hng) in Ht.
Qed.

(** X1 on the sample PNG. *)
Lemma data_url_round_trip_witness :
  byte_values (file_bits png_file) /\ plain_mime (file_type png_file) /\
  base64ToFile (readAsDataURL png_file) "copy.jpg"
  = Normal (mkFile [137; 80; 78; 71] "copy.jpg" "image/png").
Proof.
  assert (Hb : byte_values (file_bits png_file))
    by (repeat apply List.Forall_cons; try apply List.Forall_nil; lia).
  assert (Hm : plain_mime (file_type png_file)) by (repeat split; reflexivity).
  split; [exact Hb |]. split; [exact Hm |].
  exact (proj1 (data_url_round_trip png_file png_file "copy.jpg" Hb Hm)
           ltac:(discriminate) eq_refl eq_refl).
Defined.

(** X2. The decoder reads the text between the first and the second comma
    only: whatever follows a second comma changes neither the file returned
    nor the exception thrown. *)
Theorem base64ToFile_ignores_tail (header payload tail fileName : string) :
  has_char comma header = false -> has_char comma payload = false ->
  base64ToFile (header +:+ String comma (payload +:+ String comma tail)) fileName
  = base64ToFile (header +:+ String comma payload) fileName.
Proof.
  intros Hh Hp. unfold base64ToFile.
  rewrite !(split_on_app comma header) by exact Hh.
  rewrite (split_on_app comma payload tail Hp), (split_on_no_sep comma payload Hp).
  reflexivity.
Qed.

(** X2 on a JPEG data URL followed by text that is not base64. *)
Lemma base64ToFile_ignores_tail_witness :
  base64ToFile "data:image/jpeg;base64,/9j/,not base64 at all!" "a.jpg"
  = Normal (mkFile [255; 216; 255] "a.jpg" "image/jpeg").
Proof.
  refine (eq_trans (base64ToFile_ignores_tail "data:image/jpeg;base64" "/9j/"
                      "not base64 at all!" "a.jpg" _ _) _); reflexivity.
Defined.

(** ** Validation *)

(** X3. [beforeUpload] accepts a file exactly when its type starts with
    "image/" and it is smaller than 2 MiB (a file of exactly 2097152 bytes
    is refused). A refusal shows exactly one error: the type message for a
    file that is not an image, even an oversized one, the size notification
    otherwise; an accepted file shows nothing. Both copies agree. *)
Theorem beforeUpload_exact (f : File) :
  let r := ImageUploader.beforeUpload f in
  (fst r = true <->
   startsWith "image/" (file_type f) = true /\ file_size f < 2097152) /\
  (startsWith "image/" (file_type f) = false ->
   r = (false, [MessageError "You can only upload image files!"])) /\
  (startsWith "image/" (file_type f) = true -> 2097152 <= file_size f ->
   r = (false, [NotificationError "File Too Large" "Image must be smaller than 2MB!"])) /\
  (fst r = true -> snd r = []) /\
  Part000.beforeUpload f = r.
Proof.
  cbv zeta. rewrite beforeUpload_same. unfold ImageUploader.beforeUpload.
  pose proof (size_check f) as Hs.
  destruct (startsWith "image/" (file_type f)); simpl.
  - destruct (Qle_bool (inject_Z 2) (size_in_MiB f)); simpl.
    + repeat split; try discriminate; try reflexivity.
      intros [_ Hlt]. assert (Hge : 2 * 1024 * 1024 <= file_size f) by now apply Hs. lia.
    + repeat split; try reflexivity; try discriminate.
      * destruct (Z.lt_ge_cases (file_size f) 2097152) as [Hlt|Hge]; [exact Hlt |].
        assert (E : false = true) by (apply Hs; lia). discriminate E.
      * intros _ Hge. assert (E : false = true) by (apply Hs; lia). discriminate E.
  - repeat split; try discriminate; try reflexivity. intros [H _]. discriminate.
Qed.

(** ** Submission *)

(** X4. [handleSubmit] of ImageUploader.jsx, for every form, staged state
    and outcome of the request: the busy flag is up while the request is
    out and down afterwards; exactly one request is sent, with the body
    assembled from the values and the staged files; reads in flight are
    left alone. On a success response the form is cleared under a
    "Submitting" then a "Success" notice. On a failure status nothing held
    changes and the error names the status; on a rejected request nothing
    held changes and the error carries the message, or "Unknown error" when
    the message is empty. *)
Theorem handleSubmit_outcomes (values : jsobj value) (res : fetch_result) (st : AppState) :
  let st' := ImageUploader.handleSubmit values res st in
  let info := NotificationInfo "Submitting..." "Submitting update..." in
  loading (handleSubmit_begin values st) = true /\
  loading st' = false /\
  requests st' = requests st ++ [build_form_data values (fileList st)] /\
  readers st' = readers st /\
  (succeeded res ->
   cleared st' /\
   notices st' = notices st ++
     [info; NotificationSuccess "Success" "Order updated successfully!"]) /\
  (forall r, res = FetchResolved r -> resp_ok r = false ->
   held st' = held st /\
   notices st' = notices st ++
     [info; NotificationError "Update Failed"
              ("Failed to update order (Status: " +:+ pretty (resp_status r) +:+ ").")]) /\
  (forall e, res = FetchRejected e ->
   held st' = held st /\
   notices st' = notices st ++
     [info; NotificationError "Error"
              ("Update failed: " +:+
               (if String.eqb (error_message e) "" then "Unknown error"
                else error_message e))]).
Proof.
  cbv zeta. unfold ImageUploader.handleSubmit, ImageUploader.handleSubmit_end.
  split; [reflexivity |].
  split; [destruct res as [r|e]; [destruct (resp_ok r) |]; reflexivity |].
  split; [destruct res as [r|e]; [destruct (resp_ok r) |]; reflexivity |].
  split; [destruct res as [r|e]; [destruct (resp_ok r) |]; reflexivity |].
  split; [| split].
  - destruct res as [r|e]; simpl; [| intros []]. intros ->. split.
    + destruct (on_success_cleared (handleSubmit_begin values st)) as (Ha & Hb & Hc).
      repeat split; assumption.
    + simpl. now rewrite <- app_assoc.
  - intros r -> Hok. rewrite Hok. simpl. split; [reflexivity | now rewrite <- app_assoc].
  - intros e ->. simpl. split; [reflexivity | now rewrite <- app_assoc].
Qed.

(** X4 on the sample form with a 500 response. *)
Lemma handleSubmit_outcomes_witness :
  let st' := ImageUploader.handleSubmit (form_fields filled_app)
               (FetchResolved (mkResponse false 500 "" false)) filled_app in
  held st' = held filled_app /\
  notices st'
  = [NotificationInfo "Submitting..." "Submitting update...";
     NotificationError "Update Failed" "Failed to update order (Status: 500)."].
Proof.
  exact (proj1 (proj2 (proj2 (proj2 (proj2 (proj2
           (handleSubmit_outcomes (form_fields filled_app)
              (FetchResolved (mkResponse false 500 "" false)) filled_app))))))
           (mkResponse false 500 "" false) eq_refl eq_refl).
Defined.

(** X5. [handleSubmit] of the older copy, by what the request gives. One
    request is sent and the busy flag ends down in every case. On a success
    response whose body is JSON the form is cleared. On a success response
    whose body is not JSON (an empty body included) nothing held changes:
    [json()] has spent the body, [text()] rejects, and the error shown
    carries the message of that rejection. On a failure status nothing held
    changes and the error names the status; on a rejected request nothing
    held changes and the error carries the message, or "Unknown error
    occurred". *)
Theorem old_handleSubmit_outcomes (values : jsobj value) (res : fetch_result)
    (st : AppState) :
  let st' := Part000.handleSubmit values res st in
  let info := NotificationInfo "Submitting..." "Submitting update..." in
  loading st' = false /\
  requests st' = requests st ++ [build_form_data values (fileList st)] /\
  (forall r, res = FetchResolved r -> resp_ok r = true ->
   resp_body_is_json r = true ->
   cleared st' /\
   notices st' = notices st ++
     [info; NotificationSuccess "Success" "Order updated successfully!"]) /\
  (forall r, res = FetchResolved r -> resp_ok r = true ->
   resp_body_is_json r = false ->
   held st' = held st /\
   notices st' = notices st ++
     [info;
      NotificationError "Error"
        "Update failed: Failed to execute 'text' on 'Response': body stream already read"]) /\
  (forall r, res = FetchResolved r -> resp_ok r = false ->
   held st' = held st /\
   notices st' = notices st ++
     [info; NotificationError "Update Failed"
              ("Failed to update order (Status: " +:+ pretty (resp_status r)
               +:+ "). Please check your data and try again.")]) /\
  (forall e, res = FetchRejected e ->
   held st' = held st /\
   notices st' = notices st ++
     [info; NotificationError "Error"
              ("Update failed: " +:+
               (if String.eqb (error_message e) "" then "Unknown error occurred"
                else error_message e))]).
Proof.
  cbv zeta. unfold Part000.handleSubmit, Part000.handleSubmit_end.
  split; [| split].
  - destruct res as [r|e]; [| reflexivity].
    unfold response_json, response_text.
    destruct (resp_ok r), (resp_body_is_json r); reflexivity.
  - destruct res as [r|e]; [| reflexivity].
    unfold response_json, response_text.
    destruct (resp_ok r), (resp_body_is_json r); reflexivity.
  - split; [| split; [| split]].
    + intros r -> Hok Hj. rewrite Hok. unfold response_json. rewrite Hj.
      destruct (on_success_cleared (handleSubmit_begin values st)) as (Ha & Hb & Hc).
      split; [repeat split; assumption | simpl; now rewrite <- app_assoc].
    + intros r -> Hok Hj.
      exact (old_handleSubmit_unreadable values r st Hok Hj).
    + intros r -> Hok. rewrite Hok. unfold response_text.
      simpl. split; [reflexivity | now rewrite <- app_assoc].
    + intros e ->. simpl. split; [reflexivity | now rewrite <- app_assoc].
Qed.

(** X5 on the sample form with a 204 response, whose body is empty. *)
Lemma old_handleSubmit_outcomes_witness :
  let st' := Part000.handleSubmit (form_fields filled_app)
               (FetchResolved (mkResponse true 204 "" false)) filled_app in
  held st' = held filled_app /\
  notices st'
  = [NotificationInfo "Submitting..." "Submitting update...";
     NotificationError "Error"
       "Update failed: Failed to execute 'text' on 'Response': body stream already read"].
Proof.
  exact (proj1 (proj2 (proj2 (proj2
           (old_handleSubmit_outcomes (form_fields filled_app)
              (FetchResolved (mkResponse true 204 "" false)) filled_app))))
           (mkResponse true 204 "" false) eq_refl eq_refl eq_refl).
Defined.

(** ** Staging from the camera *)

(** X6. [handleCameraCapture] never throws and always hides the camera and
    forgets the target slot, whatever the state it is called in. With a
    target slot in its closure it stages the file it is given, whatever its
    type and size, under that slot, leaves every other slot's staged value,
    every preview and every field as they were, and starts one preview read
    for the slot; with no target slot (null or the empty string) it stages
    nothing and starts no read. *)
Theorem camera_capture_stages (field : option string) (file : File) (st : AppState) :
  let r := handleCameraCapture field file st in
  snd r = None /\ showCamera (fst r) = false /\ currentCameraField (fst r) = None /\
  form_fields (fst r) = form_fields st /\ imagePreviews (fst r) = imagePreviews st /\
  (forall slot, field = Some slot -> slot <> EmptyString ->
     obj_get (fileList (fst r)) slot = Some (VFile file) /\
     (forall other, other <> slot ->
        obj_get (fileList (fst r)) other = obj_get (fileList st) other) /\
     readers (fst r) = readers st ++ [(slot, file)]) /\
  (field = None \/ field = Some EmptyString ->
     fileList (fst r) = fileList st /\ readers (fst r) = readers st).
Proof.
  cbv zeta. unfold handleCameraCapture.
  destruct field as [slot|].
  - simpl truthy. destruct (String.eqb_spec slot "") as [->|Hne]; simpl;
      do 5 (split; [reflexivity |]); split.
    + intros s Hs Hn. injection Hs as <-. now contradiction Hn.
    + intros _. now split.
    + intros s Hs _. injection Hs as <-. split; [apply obj_get_set_eq |].
      split; [| reflexivity]. intros other Ho. apply obj_get_set_ne. congruence.
    + intros [Hs|Hs]; [discriminate | injection Hs as Hs; contradiction].
  - simpl. do 5 (split; [reflexivity |]). split; [intros s Hs; discriminate |].
    intros _. now split.
Qed.

(** X6 on a page with the camera opened for "acknowledgement" and a PNG
    already staged under "selfie". *)
Lemma camera_capture_stages_witness :
  let st' := fst (handleCameraCapture (currentCameraField camera_open_app) capture_a
                    camera_open_app) in
  obj_get (fileList st') "acknowledgement" = Some (VFile capture_a) /\
  obj_get (fileList st') "selfie" = Some (VFile png_file) /\
  readers st' = [("acknowledgement", capture_a)].
Proof.
  destruct (proj1 (proj2 (proj2 (proj2 (proj2 (proj2
              (camera_capture_stages (currentCameraField camera_open_app) capture_a
                 camera_open_app))))))
              "acknowledgement" eq_refl) as (H1 & H2 & H3); [discriminate |].
  split; [exact H1 |]. split; [| exact H3].
  exact (eq_trans (H2 "selfie" ltac:(discriminate)) eq_refl).
Defined.

Lemma readAsDataURL_nonempty (f : File) : String.eqb (readAsDataURL f) "" = false.
Proof. reflexivity. Qed.

(** X7. Opening the camera for a slot, taking the capture it hands back and
    letting the preview read that was started complete: the slot then holds
    the captured file and the encoding of that very file as its preview,
    and the upload card shows it; until the read completes the card shows
    what it showed before. Every other slot keeps its staged value and its
    preview, the reads that were in flight before are still the ones in
    flight, and the camera is hidden. *)
Theorem capture_then_preview (slot : string) (file : File) (st : AppState) :
  slot <> EmptyString ->
  let staged := fst (handleCameraCapture (Some slot) file (openCamera slot st)) in
  let st' := reader_load (length (readers st)) staged in
  obj_get (fileList st') slot = Some (VFile file) /\
  obj_get (imagePreviews st') slot = Some (readAsDataURL file) /\
  CustomUploader_view slot (imagePreviews staged)
  = CustomUploader_view slot (imagePreviews st) /\
  CustomUploader_view slot (imagePreviews st') = ShowsPreview (readAsDataURL file) /\
  (forall other, other <> slot ->
     obj_get (fileList st') other = obj_get (fileList st) other /\
     obj_get (imagePreviews st') other = obj_get (imagePreviews st) other) /\
  readers st' = readers st /\ showCamera st' = false /\ currentCameraField st' = None.
Proof.
  intros Hne. cbv zeta. unfold handleCameraCapture, openCamera. simpl.
  destruct (String.eqb_spec slot "") as [|_]; [contradiction |]. simpl.
  unfold reader_load. simpl.
  rewrite (list_lookup_middle (readers st) [] (slot, file) _ eq_refl). simpl.
  rewrite (delete_middle (readers st) [] (slot, file)), app_nil_r.
  unfold CustomUploader_view. rewrite !obj_get_set_eq, readAsDataURL_nonempty.
  repeat split; intros; apply obj_get_set_ne; congruence.
Qed.

(** X7 on a page with a PNG staged and previewed under "selfie". *)
Lemma capture_then_preview_witness :
  let st := mkApp [] false [("selfie", VFile png_file)] [("selfie", readAsDataURL png_file)]
                  false None [] [] [] in
  let st' := reader_load 0 (fst (handleCameraCapture (Some "acknowledgement") capture_a
                                   (openCamera "acknowledgement" st))) in
  obj_get (imagePreviews st') "acknowledgement" = Some (readAsDataURL capture_a) /\
  obj_get (imagePreviews st') "selfie" = Some (readAsDataURL png_file).
Proof.
  cbv zeta.
  destruct (capture_then_preview "acknowledgement" capture_a
              (mkApp [] false [("selfie", VFile png_file)]
                     [("selfie", readAsDataURL png_file)] false None [] [] [])
              ltac:(discriminate)) as (_ & H2 & _ & _ & H5 & _).
  split; [exact H2 |].
  exact (eq_trans (proj2 (H5 "selfie" ltac:(discriminate))) eq_refl).
Defined.

(** ** Invariants of the page *)

(** The fields a pick can touch are the staged files, the reads in flight
    and the notices. *)
Lemma stage_and_preview_frame (slot : string) (now : Z) (info : UploadFile) (st : AppState) :
  let st' := fst (stage_and_preview slot now info st) in
  showCamera st' = showCamera st /\ currentCameraField st' = currentCameraField st /\
  imagePreviews st' = imagePreviews st /\ form_fields st' = form_fields st /\
  (fileList st' = fileList st \/
   exists v, fileList st' = obj_set slot v (fileList st)).
Proof.
  cbv zeta. unfold stage_and_preview.
  destruct (convert_data_url slot now (origin_or_self info)) as [file|e]; simpl.
  - destruct file; simpl; repeat split; right; eauto.
  - repeat split. now left.
Qed.

Lemma pick_frame (vf : option (value -> completion (bool * list notice)))
    (slot : string) (now : Z) (info : UploadFile) (st : AppState) :
  let st' := fst (ImageUploader.handleFileChange_with vf slot now info st) in
  showCamera st' = showCamera st /\ currentCameraField st' = currentCameraField st /\
  imagePreviews st' = imagePreviews st /\ form_fields st' = form_fields st /\
  (fileList st' = fileList st \/
   exists v, fileList st' = obj_set slot v (fileList st)).
Proof.
  cbv zeta. unfold ImageUploader.handleFileChange_with.
  destruct (is_uploading info); [repeat split; now left |].
  destruct vf as [validate|]; [| repeat split; now left].
  destruct (validate (origin_or_self info)) as [[ok shown]|e];
    [| repeat split; now left].
  destruct ok; simpl; [| repeat split; now left].
  exact (stage_and_preview_frame slot now info (add_notices shown st)).
Qed.

Lemma old_pick_frame (slot : string) (now : Z) (info : UploadFile) (st : AppState) :
  let st' := fst (Part000.handleFileChange slot now info st) in
  showCamera st' = showCamera st /\ currentCameraField st' = currentCameraField st /\
  imagePreviews st' = imagePreviews st /\ form_fields st' = form_fields st /\
  (fileList st' = fileList st \/
   exists v, fileList st' = obj_set slot v (fileList st)).
Proof.
  cbv zeta. unfold Part000.handleFileChange.
  destruct (is_uploading info); simpl; [repeat split; now left |].
  apply stage_and_preview_frame.
Qed.

Lemma handleSubmit_end_camera (res : fetch_result) (st : AppState) :
  (showCamera (ImageUploader.handleSubmit_end res st) = showCamera st /\
   currentCameraField (ImageUploader.handleSubmit_end res st) = currentCameraField st) /\
  (showCamera (Part000.handleSubmit_end res st) = showCamera st /\
   currentCameraField (Part000.handleSubmit_end res st) = currentCameraField st).
Proof.
  unfold ImageUploader.handleSubmit_end, Part000.handleSubmit_end,
    response_json, response_text.
  destruct res as [r|e]; [| now repeat split].
  destruct (resp_ok r), (resp_body_is_json r); now repeat split.
Qed.

Lemma handleCameraCapture_closes (field : option string) (file : File) (st : AppState) :
  showCamera (fst (handleCameraCapture field file st)) = false /\
  currentCameraField (fst (handleCameraCapture field file st)) = None.
Proof. now split. Qed.

Lemma camera_has_slot_ext (st st' : AppState) :
  showCamera st' = showCamera st -> currentCameraField st' = currentCameraField st ->
  camera_has_slot st -> camera_has_slot st'.
Proof. unfold camera_has_slot. now intros -> ->. Qed.

Lemma camera_has_slot_closed (st : AppState) :
  showCamera st = false -> currentCameraField st = None -> camera_has_slot st.
Proof. unfold camera_has_slot. intros -> ->. split; [discriminate | congruence]. Qed.

Lemma camera_has_slot_step (vf : option (value -> completion (bool * list notice)))
    (ev : page_event) (st : AppState) :
  camera_has_slot st ->
  camera_has_slot (page_step_with vf ev st) /\ camera_has_slot (old_page_step ev st).
Proof.
  intros H. destruct ev as [slot now info|slot|field file| |i|values|res];
    unfold page_step_with, old_page_step.
  - destruct (pick_frame vf slot now info st) as (H1 & H2 & _).
    destruct (old_pick_frame slot now info st) as (H3 & H4 & _).
    split; eapply camera_has_slot_ext; eauto.
  - assert (Ho : camera_has_slot (openCamera slot st))
      by (unfold camera_has_slot; simpl; split; [discriminate | reflexivity]).
    now split.
  - destruct (handleCameraCapture_closes field file st) as [H1 H2].
    split; now apply camera_has_slot_closed.
  - split; now apply camera_has_slot_closed.
  - assert (Hl : camera_has_slot (reader_load i st)).
    { unfold reader_load. destruct (readers st !! i) as [[s f]|]; [| exact H].
      now apply (camera_has_slot_ext st). }
    now split.
  - split; now apply (camera_has_slot_ext st).
  - destruct (handleSubmit_end_camera res st) as [[H1 H2] [H3 H4]].
    split; eapply camera_has_slot_ext; eauto.
Qed.

(** X8. Whatever happens on the page, in either copy and whatever
    [validateFile] is bound to, the camera is shown exactly when a target
    slot is held: [showCamera] and [currentCameraField] never get out of
    step. *)
Theorem camera_shown_iff_slot
    (vf : option (value -> completion (bool * list notice)))
    (fields : jsobj value) (evs : list page_event) :
  camera_has_slot
    (fold_left (fun st ev => page_step_with vf ev st) evs (initial_app fields)) /\
  camera_has_slot (old_page_run evs (initial_app fields)).
Proof.
  assert (H0 : camera_has_slot (initial_app fields))
    by (now apply camera_has_slot_closed).
  split.
  - revert H0. generalize (initial_app fields).
    induction evs as [|ev evs IH]; intros st H; [exact H |].
    simpl. apply IH. now apply camera_has_slot_step.
  - revert H0. unfold old_page_run. generalize (initial_app fields).
    induction evs as [|ev evs IH]; intros st H; [exact H |].
    simpl. apply IH. now apply (camera_has_slot_step None).
Qed.

Lemma obj_set_keys {V} (k : string) (v : V) (o : jsobj V) :
  (In k (map fst o) -> map fst (obj_set k v o) = map fst o) /\
  (~ In k (map fst o) -> map fst (obj_set k v o) = map fst o ++ [k]).
Proof.
  induction o as [|[k' v'] o [IH1 IH2]]; simpl.
  - split; [intros [] | reflexivity].
  - destruct (String.eqb_spec k' k) as [->|Hne]; simpl.
    + split; [reflexivity | intros H; exfalso; apply H; now left].
    + split.
      * intros [H|H]; [contradiction |]. now rewrite IH1.
      * intros H. rewrite IH2; [reflexivity |]. intros Hin. apply H. now right.
Qed.

Lemma obj_set_unique {V} (k : string) (v : V) (o : jsobj V) :
  unique_keys o -> unique_keys (obj_set k v o).
Proof.
  unfold unique_keys. intros H.
  destruct (in_dec string_dec k (map fst o)) as [Hin|Hout].
  - now rewrite (proj1 (obj_set_keys k v o) Hin).
  - rewrite (proj2 (obj_set_keys k v o) Hout). apply NoDup_app.
    split; [exact H |]. split; [| apply NoDup_singleton].
    intros x Hx Hk. apply list_elem_of_singleton in Hk. subst x.
    apply Hout. now apply list_elem_of_In.
Qed.

(** No slot is staged twice and no slot has two previews. *)
Lemma unique_slots_step (vf : option (value -> completion (bool * list notice)))
    (ev : page_event) (st : AppState) :
  unique_keys (fileList st) /\ unique_keys (imagePreviews st) ->
  (unique_keys (fileList (page_step_with vf ev st))
   /\ unique_keys (imagePreviews (page_step_with vf ev st))) /\
  (unique_keys (fileList (old_page_step ev st))
   /\ unique_keys (imagePreviews (old_page_step ev st))).
Proof.
  intros [Hf Hp]. destruct ev as [slot now info|slot|field file| |i|values|res];
    unfold page_step_with, old_page_step; try (now repeat split).
  - destruct (pick_frame vf slot now info st) as (_ & _ & -> & _ & Hn).
    destruct (old_pick_frame slot now info st) as (_ & _ & -> & _ & Ho).
    repeat split; try exact Hp.
    + destruct Hn as [-> | [v ->]]; [exact Hf | now apply obj_set_unique].
    + destruct Ho as [-> | [v ->]]; [exact Hf | now apply obj_set_unique].
  - assert (Hc : unique_keys (fileList (fst (handleCameraCapture field file st)))
                 /\ unique_keys (imagePreviews (fst (handleCameraCapture field file st)))).
    { unfold handleCameraCapture.
      destruct field as [slot|]; [| now split].
      destruct (truthy (VString slot)); [| now split].
      split; [now apply obj_set_unique | exact Hp]. }
    now split.
  - assert (Hl : unique_keys (fileList (reader_load i st))
                 /\ unique_keys (imagePreviews (reader_load i st))).
    { unfold reader_load. destruct (readers st !! i) as [[s f]|]; [| now split].
      split; [exact Hf | now apply obj_set_unique]. }
    now split.
  - unfold ImageUploader.handleSubmit_end, Part000.handleSubmit_end,
      response_json, response_text.
    destruct res as [r|e]; [| now repeat split].
    destruct (resp_ok r), (resp_body_is_json r);
      repeat split; try assumption; apply NoDup_nil_2.
Qed.

Lemma unique_slots_run (vf : option (value -> completion (bool * list notice)))
    (evs : list page_event) (st : AppState) :
  unique_keys (fileList st) /\ unique_keys (imagePreviews st) ->
  let st' := fold_left (fun st ev => page_step_with vf ev st) evs st in
  unique_keys (fileList st') /\ unique_keys (imagePreviews st').
Proof.
  cbv zeta. revert st. induction evs as [|ev evs IH]; intros st H; [exact H |].
  simpl. apply IH. now apply unique_slots_step.
Qed.

Lemma old_unique_slots_run (evs : list page_event) (st : AppState) :
  unique_keys (fileList st) /\ unique_keys (imagePreviews st) ->
  unique_keys (fileList (old_page_run evs st))
  /\ unique_keys (imagePreviews (old_page_run evs st)).
Proof.
  unfold old_page_run. revert st. induction evs as [|ev evs IH]; intros st H; [exact H |].
  simpl. apply IH. now apply (unique_slots_step None).
Qed.

Lemma truthy_keys_unique (o : jsobj value) :
  unique_keys o -> NoDup (map fst (List.filter (fun kv => truthy (snd kv)) o)).
Proof.
  unfold unique_keys. induction o as [|[k v] o IH]; simpl; intros H; [exact H |].
  apply NoDup_cons in H as [Hk Ho]. destruct (truthy v); simpl; [| now apply IH].
  apply NoDup_cons. split; [| now apply IH].
  intros Hin. apply Hk. apply list_elem_of_In in Hin. apply list_elem_of_In.
  apply in_map_iff in Hin as ([k' v'] & Hk' & Hin). apply filter_In in Hin as [Hin _].
  apply in_map_iff. now exists (k', v').
Qed.

(** X9. Whatever happens on the page, in either copy and whatever
    [validateFile] is bound to, a slot is staged at most once and has at
    most one preview; so the image parts of a submission body carry
    pairwise different names, however often a slot was re-captured. *)
Theorem staged_slots_unique
    (vf : option (value -> completion (bool * list notice)))
    (fields values : jsobj value) (evs : list page_event) :
  forall st,
    st = fold_left (fun st ev => page_step_with vf ev st) evs (initial_app fields) \/
    st = old_page_run evs (initial_app fields) ->
    unique_keys (fileList st) /\ unique_keys (imagePreviews st) /\
    NoDup (map fst (List.filter (fun kv => truthy (snd kv)) (fileList st))) /\
    build_form_data values (fileList st)
    = List.filter (fun kv => is_filled (snd kv)) values
      ++ List.filter (fun kv => truthy (snd kv)) (fileList st).
Proof.
  assert (H0 : unique_keys (fileList (initial_app fields))
               /\ unique_keys (imagePreviews (initial_app fields)))
    by (split; apply NoDup_nil_2).
  intros st Hst.
  assert (H : unique_keys (fileList st) /\ unique_keys (imagePreviews st)).
  { destruct Hst as [-> | ->];
      [exact (unique_slots_run vf evs _ H0) | exact (old_unique_slots_run evs _ H0)]. }
  destruct H as [Hf Hp].
  split; [exact Hf |]. split; [exact Hp |]. split;
    [now apply truthy_keys_unique | apply build_form_data_filter].
Qed.

(** X9 after two captures for the same slot: one staged entry. *)
Lemma staged_slots_unique_witness :
  map fst (fileList (page_run in_order_run (initial_app []))) = ["acknowledgement"] /\
  unique_keys (fileList (page_run in_order_run (initial_app []))).
Proof.
  split; [reflexivity |].
  exact (proj1 (staged_slots_unique ImageUploader.module_scope_validateFile [] []
                  in_order_run _ (or_introl eq_refl))).
Defined.

(** ** The file picker of the older copy *)

(** X10. [handleFileChange] of the older copy, by what the picker hands
    over. While the file is uploading nothing happens. A file is staged
    under the slot, unvalidated, and one preview read is started. A string
    that starts with "data:" is decoded first and the file staged is named
    [<slot>-<clock>.jpg]; when decoding throws, the handler throws and
    nothing is staged. Any other non-empty string is staged as it is, and
    the handler then throws because the string cannot be read as a Blob:
    the slot holds a string, no read is started and the preview stays what
    it was. *)
Theorem old_handleFileChange_cases (slot : string) (now : Z) (info : UploadFile)
    (st : AppState) :
  let r := Part000.handleFileChange slot now info st in
  (is_uploading info = true -> r = (st, None)) /\
  (forall f, is_uploading info = false -> origin_or_self info = VFile f ->
     snd r = None /\ fileList (fst r) = obj_set slot (VFile f) (fileList st) /\
     readers (fst r) = readers st ++ [(slot, f)] /\
     imagePreviews (fst r) = imagePreviews st /\ notices (fst r) = notices st) /\
  (forall s, is_uploading info = false -> origin_or_self info = VString s ->
     startsWith "data:" s = true ->
     match base64ToFile s (slot +:+ "-" +:+ pretty now +:+ ".jpg") with
     | Normal f =>
         file_name f = slot +:+ "-" +:+ pretty now +:+ ".jpg" /\
         snd r = None /\ fileList (fst r) = obj_set slot (VFile f) (fileList st) /\
         readers (fst r) = readers st ++ [(slot, f)]
     | Throw e => r = (st, Some e)
     end) /\
  (forall s, is_uploading info = false -> origin_or_self info = VString s ->
     startsWith "data:" s = false ->
     snd r <> None /\ fileList (fst r) = obj_set slot (VString s) (fileList st) /\
     readers (fst r) = readers st /\ imagePreviews (fst r) = imagePreviews st).
Proof.
  cbv zeta. unfold Part000.handleFileChange, stage_and_preview.
  split; [now intros -> |]. split; [| split].
  - intros f -> ->. now repeat split.
  - intros s -> -> Hs. unfold convert_data_url. rewrite Hs.
    destruct (base64ToFile s (slot +:+ "-" +:+ pretty now +:+ ".jpg")) as [f|e] eqn:E;
      simpl; [| reflexivity].
    repeat split. apply base64ToFile_Normal in E as (h & rest & m & b & _ & _ & _ & ->).
    reflexivity.
  - intros s -> -> Hs. unfold convert_data_url. rewrite Hs. simpl.
    repeat split. discriminate.
Qed.

(** X10 on a picker entry whose [originFileObj] is the text "hello". *)
Lemma old_handleFileChange_cases_witness :
  let r := Part000.handleFileChange "acknowledgement" 0 (picked_string "hello")
             (initial_app []) in
  snd r <> None /\ fileList (fst r) = [("acknowledgement", VString "hello")] /\
  readers (fst r) = [] /\ imagePreviews (fst r) = [].
Proof.
  exact (proj2 (proj2 (proj2
           (old_handleFileChange_cases "acknowledgement" 0 (picked_string "hello")
              (initial_app []))))
           "hello" eq_refl eq_refl eq_refl).
Defined.

(** ** The camera: releasing and restarting *)

Lemma added_app (c c' : Cam) (x : list cam_effect) :
  effects c' = effects c ++ x -> added c c' = x.
Proof. intros H. unfold added. rewrite H. apply drop_app_length. Qed.

Lemma live_after_stop (s : Stream) (c : Cam) (t : nat) :
  In t (live_tracks (stop_tracks s c)) <-> In t (live_tracks c) /\ ~ In t s.
Proof.
  unfold stop_tracks. simpl. rewrite <- !list_elem_of_In, list_elem_of_filter.
  rewrite list_elem_of_In. tauto.
Qed.

(** X11. [stopCamera] stops exactly the tracks of the stream attached to
    the mounted video: afterwards the live tracks are the former ones
    outside that stream, one [stop()] per track of the stream has been
    issued, the element holds no stream and the streaming flag is down. It
    never makes a track live, it leaves the still, the preview flag, the
    error and the canvas alone, and calling it a second time changes
    nothing. Without a mounted video element, or with one that holds no
    stream, it changes nothing at all: no track is stopped and the
    streaming flag stays as it is. *)
Theorem stopCamera_releases_once (c : Cam) :
  (videoRef c = None \/ (exists video, videoRef c = Some video /\ srcObject video = None) ->
   stopCamera c = c) /\
  stopCamera (stopCamera c) = stopCamera c /\
  (forall t, In t (live_tracks (stopCamera c)) -> In t (live_tracks c)) /\
  (forall video stream,
     videoRef c = Some video -> srcObject video = Some stream ->
     (forall t, In t (live_tracks (stopCamera c))
                <-> In t (live_tracks c) /\ ~ In t stream) /\
     added c (stopCamera c) = map TrackStop stream /\
     isStreaming (stopCamera c) = false /\
     videoRef (stopCamera c) = Some (set_srcObject None video)) /\
  capturedImage (stopCamera c) = capturedImage c /\
  showPreview (stopCamera c) = showPreview c /\
  error (stopCamera c) = error c /\ canvasRef (stopCamera c) = canvasRef c.
Proof.
  split.
  { unfold stopCamera. intros [Hn | (video & Hv & Hs)]; [now rewrite Hn |].
    now rewrite Hv, Hs. }
  destruct (videoRef c) as [video|] eqn:Hv.
  - destruct (srcObject video) as [stream|] eqn:Hs.
    + assert (E : stopCamera c
                  = setIsStreaming false
                      (set_videoRef (Some (set_srcObject None video))
                         (stop_tracks stream c)))
        by (unfold stopCamera; now rewrite Hv, Hs).
      rewrite E. split; [reflexivity |].
      split; [intros t Ht; now apply (live_after_stop stream c t) in Ht |].
      split; [| now repeat split].
      intros v s Hv' Hs'. injection Hv' as <-. rewrite Hs in Hs'. injection Hs' as <-.
      split; [intros t; apply (live_after_stop stream c t) |].
      split; [now apply added_app | now split].
    + assert (E : stopCamera c = c) by (unfold stopCamera; now rewrite Hv, Hs).
      rewrite !E. split; [reflexivity |]. split; [auto |].
      split; [| now repeat split]. intros v s Hv' Hs'. congruence.
  - assert (E : stopCamera c = c) by (unfold stopCamera; now rewrite Hv).
    rewrite !E. split; [reflexivity |]. split; [auto |].
    split; [| now repeat split]. intros v s Hv'. discriminate.
Qed.

(** X11 on the sample stream with its one track. *)
Lemma stopCamera_releases_once_witness :
  live_tracks streaming = [7%nat] /\
  added streaming (stopCamera streaming) = [TrackStop 7] /\
  isStreaming (stopCamera streaming) = false.
Proof.
  split; [reflexivity |].
  destruct (proj1 (proj2 (proj2 (proj2 (stopCamera_releases_once streaming))))
              (mkVideo (Some [7%nat]) 4 (Some 1920) (Some 1080) 600 338 true) [7%nat]
              eq_refl eq_refl) as (_ & H2 & H3 & _).
  split; [exact H2 | exact H3].
Defined.

(** X12. [startCamera] of ImageUploader.jsx, called while the mounted video
    holds a stream, stops every track of that stream before it asks for a
    new one: the stops precede the [getUserMedia] request, the element's
    stream is cleared, the error is cleared and the streaming flag is down.
    [startCamera] of the older copy stops nothing and leaves the element and
    the streaming flag as they are: it only clears the error and asks for a
    stream. *)
Theorem startCamera_tears_down (c : Cam) (video : Video) (stream : Stream) :
  videoRef c = Some video -> srcObject video = Some stream ->
  let c' := ImageUploader.startCamera_begin c in
  let old := Part000.startCamera_begin c in
  ((forall t, In t (live_tracks c') <-> In t (live_tracks c) /\ ~ In t stream) /\
   added c c' = map TrackStop stream ++ [GetUserMedia] /\
   error c' = None /\ isStreaming c' = false /\
   videoRef c' = Some (set_srcObject None video)) /\
  (live_tracks old = live_tracks c /\ added c old = [GetUserMedia] /\
   error old = None /\ isStreaming old = isStreaming c /\ videoRef old = videoRef c).
Proof.
  intros Hv Hs. cbv zeta.
  unfold ImageUploader.startCamera_begin, Part000.startCamera_begin.
  simpl. rewrite Hv, Hs. split.
  - split; [intros t;
             exact (live_after_stop stream (setIsStreaming false (setError None c)) t) |].
    split; [apply added_app; simpl; now rewrite <- app_assoc | now repeat split].
  - split; [reflexivity |]. split; [now apply added_app | now repeat split].
Qed.

(** X12 on the sample stream. *)
Lemma startCamera_tears_down_witness :
  live_tracks (ImageUploader.startCamera_begin streaming) = [] /\
  added streaming (ImageUploader.startCamera_begin streaming)
  = [TrackStop 7; GetUserMedia] /\
  live_tracks (Part000.startCamera_begin streaming) = [7%nat].
Proof.
  destruct (startCamera_tears_down streaming
              (mkVideo (Some [7%nat]) 4 (Some 1920) (Some 1080) 600 338 true) [7%nat]
              eq_refl eq_refl) as [(_ & H2 & _) (H3 & _)].
  split; [reflexivity |]. split; [exact H2 | exact H3].
Defined.

(** ** The camera: the still and the preview *)

Lemma still_in_preview_ext (c c' : Cam) :
  showPreview c' = showPreview c -> capturedImage c' = capturedImage c ->
  still_in_preview c -> still_in_preview c'.
Proof. unfold still_in_preview. now intros -> ->. Qed.

Lemma still_in_preview_none (c : Cam) :
  showPreview c = false -> capturedImage c = None -> still_in_preview c.
Proof.
  unfold still_in_preview. intros -> ->. split; [| discriminate].
  split; [discriminate | congruence].
Qed.

Lemma draw_and_keep_preview (env : try_result) (failure : string) (crop : Rect) (c : Cam) :
  still_in_preview c -> still_in_preview (draw_and_keep env failure crop c).
Proof.
  intros H. destruct env; [| now apply (still_in_preview_ext c) ..].
  unfold still_in_preview. simpl. split; [split; [discriminate | reflexivity] |].
  intros still [= <-]. now repeat split.
Qed.

Lemma captureImage_preview (env : try_result) (c : Cam) :
  still_in_preview c ->
  still_in_preview (ImageUploader.captureImage env c) /\
  still_in_preview (Part000.captureImage env c).
Proof.
  intros H. unfold ImageUploader.captureImage, Part000.captureImage.
  destruct (videoRef c) as [video|]; [| now split].
  destruct (canvasRef c) as [canvas|]; [| now split].
  destruct (negb (readyState video =? HAVE_ENOUGH_DATA)).
  - split; [exact H | now apply (still_in_preview_ext c)].
  - split;
      match goal with
      | |- context [if ?b then _ else _] =>
          destruct b; [exact H | now apply draw_and_keep_preview]
      end.
Qed.

Lemma stopCamera_preview (c : Cam) : still_in_preview c -> still_in_preview (stopCamera c).
Proof.
  intros H. unfold stopCamera. destruct (videoRef c) as [video|]; [| exact H].
  destruct (srcObject video); [| exact H]. now apply (still_in_preview_ext c).
Qed.

Lemma commit_preview (c : Cam) : still_in_preview c -> still_in_preview (commit c).
Proof.
  intros H. unfold commit. destruct (video_rendered c);
    [destruct (videoRef c); [exact H |] |]; now apply (still_in_preview_ext c).
Qed.

Lemma startCamera_preview (c : Cam) :
  still_in_preview c ->
  still_in_preview (ImageUploader.startCamera_begin c) /\
  still_in_preview (Part000.startCamera_begin c).
Proof.
  intros H. unfold ImageUploader.startCamera_begin, Part000.startCamera_begin. simpl.
  split; [| now apply (still_in_preview_ext c)].
  destruct (videoRef c) as [video|]; [destruct (srcObject video) |];
    now apply (still_in_preview_ext c).
Qed.

Lemma step_preview (ev : cam_event) (c : Cam) :
  still_in_preview c ->
  still_in_preview (ImageUploader.step ev c) /\ still_in_preview (Part000.step ev c).
Proof.
  intros H. unfold ImageUploader.step, Part000.step.
  split; apply commit_preview; destruct ev;
    try exact H;
    try (match goal with
         | |- context [if ?b then _ else _] => destruct b; [| exact H]
         end);
    try (now apply captureImage_preview);
    try (now apply startCamera_preview);
    try (apply stopCamera_preview; now apply (still_in_preview_ext c));
    try (now apply still_in_preview_none);
    try (unfold confirmCapture; destruct (capturedImage c) eqn:?; [| exact H];
         destruct (canvasRef c); [| exact H]; now apply (still_in_preview_ext c));
    try (unfold ImageUploader.startCamera_resolved, Part000.startCamera_resolved,
           video_props, ImageUploader.onloadedmetadata, Part000.onloadedmetadata,
           ImageUploader.onerror; simpl;
         destruct (videoRef c) as [video|]; [try destruct (handlers video) |];
         try exact H; now apply (still_in_preview_ext c));
    try (now apply (still_in_preview_ext c)).
Qed.

Lemma run_preview (evs : list cam_event) (c : Cam) :
  still_in_preview c -> still_in_preview (ImageUploader.run evs c).
Proof.
  unfold ImageUploader.run. revert c.
  induction evs as [|ev evs IH]; intros c H; [exact H |].
  simpl. apply IH. now apply step_preview.
Qed.

Lemma old_run_preview (evs : list cam_event) (c : Cam) :
  still_in_preview c -> still_in_preview (Part000.run evs c).
Proof.
  unfold Part000.run. revert c.
  induction evs as [|ev evs IH]; intros c H; [exact H |].
  simpl. apply IH. now apply step_preview.
Qed.

(** X13. In every state the capture flow can reach from its mount, in
    either copy and whatever the camera, the browser and the user do, the
    preview is on exactly when a still is held, and a held still is an
    856x540 JPEG of quality 0.9: the preview never shows without an image
    and never shows an image of another size or format. *)
Theorem preview_always_has_still (evs : list cam_event) :
  still_in_preview (ImageUploader.run evs ImageUploader.mounted) /\
  still_in_preview (Part000.run evs Part000.mounted).
Proof.
  split; [apply run_preview | apply old_run_preview]; now apply still_in_preview_none.
Qed.

(** ** The camera: capture at its edges *)

(** X14. The edges of [captureImage]. Without a video or a canvas element
    both copies change nothing. With a ready frame that reports a width or
    a height of zero, ImageUploader.jsx changes nothing; the older copy
    takes the displayed width or height in place of a zero and captures
    from that. With a ready frame of non-zero size whose [try] block
    throws, both copies show one error message, keep the still and the
    preview flag as they were, and leave the canvas resized to 856x540. *)
Theorem capture_edges (env : try_result) (c : Cam) :
  (videoRef c = None \/ canvasRef c = None ->
   ImageUploader.captureImage env c = c /\ Part000.captureImage env c = c) /\
  (forall video canvas,
     videoRef c = Some video -> canvasRef c = Some canvas ->
     readyState video = HAVE_ENOUGH_DATA ->
     (videoWidth video = Some 0 \/ videoHeight video = Some 0 ->
      ImageUploader.captureImage env c = c) /\
     (forall H, videoWidth video = Some 0 -> videoHeight video = Some H ->
        clientWidth video <> 0 -> H <> 0 ->
        Part000.captureImage env c
        = draw_and_keep env "Failed to capture image. Please try again."
            (Part000.crop_region (num (clientWidth video)) (num H)) c) /\
     (forall W H, videoWidth video = Some W -> videoHeight video = Some H ->
        W <> 0 -> H <> 0 -> env <> Draws ->
        forall c', c' = ImageUploader.captureImage env c \/ c' = Part000.captureImage env c ->
          capturedImage c' = capturedImage c /\ showPreview c' = showPreview c /\
          (exists text, added c c' = [CamMessageError text]) /\
          (exists cv, canvasRef c' = Some cv /\ canvas_width cv = 856
                      /\ canvas_height cv = 540))).
Proof.
  split.
  - unfold ImageUploader.captureImage, Part000.captureImage.
    intros [-> | ->]; [now split |]. destruct (videoRef c); now split.
  - intros video canvas Hv Hc Hr. split; [| split].
    + unfold ImageUploader.captureImage. rewrite Hv, Hc, Hr. simpl.
      intros [-> | ->]; simpl; [reflexivity |]. now rewrite orb_true_r.
    + intros H Hw Hh Hcw HH. unfold Part000.captureImage, Part000.or_number.
      rewrite Hv, Hc, Hr, Hw, Hh. simpl.
      apply Z.eqb_neq in Hcw, HH. rewrite Hcw, HH. simpl. now rewrite ?HH.
    + intros W H Hw Hh HW HH Henv c' Hc'.
      destruct (captureImage_ready env c video canvas W H Hv Hc Hr Hw Hh HW HH) as [E1 E2].
      destruct Hc' as [-> | ->]; [rewrite E1 | rewrite E2];
        (destruct env; [contradiction | |];
         (split; [reflexivity |]; split; [reflexivity |]; split;
          [eexists; now apply added_app | eexists; now repeat split])).
Qed.

(** X14 on the sample stream when [drawImage] throws. *)
Lemma capture_edges_witness :
  let c' := ImageUploader.captureImage DrawImageThrows streaming in
  capturedImage c' = None /\ showPreview c' = false /\
  added streaming c' = [CamMessageError "Failed to capture image."].
Proof.
  destruct (proj2 (proj2 (proj2 (capture_edges DrawImageThrows streaming)
              (mkVideo (Some [7%nat]) 4 (Some 1920) (Some 1080) 600 338 true)
              fresh_canvas eq_refl eq_refl eq_refl))
              1920 1080 eq_refl eq_refl ltac:(discriminate) ltac:(discriminate)
              ltac:(discriminate) _ (or_introl eq_refl)) as (H1 & H2 & _).
  split; [exact H1 |]. split; [exact H2 | reflexivity].
Defined.

(** X15. The edges of accept. Without a still, [confirmCapture] asks for no
    blob and changes nothing. When [toBlob] hands over a blob, the caller
    receives one file with exactly those bytes; when it hands over [null],
    the code builds the file all the same and the caller receives a file
    whose content is the four characters of "null". In both cases the name
    is [cnic-<clock>.jpg] and the type image/jpeg, and nothing but track
    stops follows the hand-over. *)
Theorem accept_edges (c : Cam) (blob : option (list Z)) (now : Z) :
  (capturedImage c = None -> confirmCapture c = (c, None)) /\
  exists stops,
    added c (toBlob_callback blob now c)
    = OnCapture (mkFile (match blob with
                         | Some bytes => bytes
                         | None => [110; 117; 108; 108]
                         end)
                        ("cnic-" +:+ pretty now +:+ ".jpg") "image/jpeg")
      :: map TrackStop stops.
Proof.
  split; [intros H; unfold confirmCapture; now rewrite H |].
  unfold toBlob_callback, stopCamera. simpl.
  destruct (videoRef c) as [video|]; [destruct (srcObject video) as [stream|] |].
  - exists stream. apply added_app. simpl. rewrite <- app_assoc. now destruct blob.
  - exists []. apply added_app. now destruct blob.
  - exists []. apply added_app. now destruct blob.
Qed.

(** ** The camera and the page *)

Lemma deliver_all_app (field : option string) (xs ys : list cam_effect) (st : AppState) :
  deliver_all field (xs ++ ys) st = deliver_all field ys (deliver_all field xs st).
Proof. unfold deliver_all. apply fold_left_app. Qed.

Lemma deliver_all_stops (field : option string) (s : Stream) (st : AppState) :
  deliver_all field (map TrackStop s) st = st.
Proof. induction s as [|t s IH]; [reflexivity | exact IH]. Qed.

Lemma added_handleClose (c : Cam) :
  exists stops, added c (handleClose c) = map TrackStop stops ++ [OnClose].
Proof.
  unfold handleClose, stopCamera.
  destruct (videoRef c) as [video|]; [destruct (srcObject video) as [stream|] |].
  - exists stream. apply added_app. simpl. now rewrite <- app_assoc.
  - exists []. now apply added_app.
  - exists []. now apply added_app.
Qed.

Lemma added_accept (c : Cam) (still : Still) (canvas : Canvas) (blob : list Z) (now : Z) :
  capturedImage c = Some still -> canvasRef c = Some canvas ->
  exists stops,
    added c (toBlob_callback (Some blob) now (fst (confirmCapture c)))
    = [ToBlob "image/jpeg" 0.9%float;
       OnCapture (mkFile blob ("cnic-" +:+ pretty now +:+ ".jpg") "image/jpeg")]
      ++ map TrackStop stops.
Proof.
  intros Hs Hc. rewrite (proj2 (accept_hands_one_file c still canvas blob now Hs Hc)).
  unfold stopCamera. simpl.
  destruct (videoRef c) as [video|]; [destruct (srcObject video) as [stream|] |].
  - exists stream. apply added_app. simpl. now rewrite <- !app_assoc.
  - exists []. now apply added_app.
  - exists []. now apply added_app.
Qed.

(** Accept, then cancel before the blob is there, then the blob: the
    camera signals the closure first and hands the file over afterwards. *)
Lemma added_late_accept (c : Cam) (still : Still) (canvas : Canvas) (blob : list Z)
    (now : Z) :
  capturedImage c = Some still -> canvasRef c = Some canvas ->
  exists stops,
    added c (toBlob_callback (Some blob) now (handleClose (fst (confirmCapture c))))
    = (ToBlob "image/jpeg" 0.9%float :: map TrackStop stops)
      ++ [OnClose;
          OnCapture (mkFile blob ("cnic-" +:+ pretty now +:+ ".jpg") "image/jpeg")].
Proof.
  intros Hs Hc. destruct c as [v cv s e ci sp lt ef]. simpl in Hs, Hc. subst ci cv.
  unfold confirmCapture, toBlob_callback, handleClose, stopCamera. simpl.
  destruct v as [video|]; [destruct (srcObject video) as [stream|] eqn:Hst |]; simpl;
    rewrite ?Hst; simpl.
  - exists stream. apply added_app. simpl. now rewrite <- !app_assoc.
  - exists []. apply added_app. simpl. now rewrite <- !app_assoc.
  - exists []. apply added_app. simpl. now rewrite <- !app_assoc.
Qed.

(** X16. The camera and the page together. When the page has opened the
    camera for a slot and the user accepts a preview, what the camera hands
    to its props leaves the page with the file [cnic-<clock>.jpg] (the
    bytes of the blob, type image/jpeg) staged under that slot, one preview
    read started for it, every other slot untouched and the camera hidden.
    When the user cancels with no accept pending, in any state [k] of the
    camera, the page hides the camera and stages nothing. A cancel does not
    withdraw an accept that is waiting for its blob: when the user accepts
    and then cancels before the blob is there, the page hides the camera
    at the cancel, and the blob that arrives afterwards is staged under
    the slot all the same, with its preview read started. *)
Theorem camera_hands_over (slot : string) (st : AppState) (c k : Cam) (still : Still)
    (canvas : Canvas) (blob : list Z) (now : Z) :
  slot <> EmptyString -> capturedImage c = Some still -> canvasRef c = Some canvas ->
  let file := mkFile blob ("cnic-" +:+ pretty now +:+ ".jpg") "image/jpeg" in
  let asked := fst (confirmCapture c) in
  let accepted :=
    deliver_all (Some slot) (added c (toBlob_callback (Some blob) now asked))
      (openCamera slot st) in
  let cancelled :=
    deliver_all (Some slot) (added k (handleClose k)) (openCamera slot st) in
  let closed_first :=
    deliver_all (Some slot) (added c (handleClose asked)) (openCamera slot st) in
  let late :=
    deliver_all (Some slot)
      (added c (toBlob_callback (Some blob) now (handleClose asked)))
      (openCamera slot st) in
  (obj_get (fileList accepted) slot = Some (VFile file) /\
   (forall other, other <> slot ->
      obj_get (fileList accepted) other = obj_get (fileList st) other) /\
   readers accepted = readers st ++ [(slot, file)] /\
   imagePreviews accepted = imagePreviews st /\
   showCamera accepted = false /\ currentCameraField accepted = None) /\
  (fileList cancelled = fileList st /\ readers cancelled = readers st /\
   imagePreviews cancelled = imagePreviews st /\
   showCamera cancelled = false /\ currentCameraField cancelled = None) /\
  (fileList closed_first = fileList st /\ showCamera closed_first = false /\
   obj_get (fileList late) slot = Some (VFile file) /\
   (forall other, other <> slot ->
      obj_get (fileList late) other = obj_get (fileList st) other) /\
   readers late = readers st ++ [(slot, file)] /\
   showCamera late = false /\ currentCameraField late = None).
Proof.
  intros Hne Hs Hc. cbv zeta.
  destruct (added_accept c still canvas blob now Hs Hc) as [stops ->].
  destruct (added_handleClose k) as [stops' ->].
  destruct (added_late_accept c still canvas blob now Hs Hc) as [stops'' ->].
  assert (Hclose : exists stops,
             added c (handleClose (fst (confirmCapture c)))
             = (ToBlob "image/jpeg" 0.9%float :: map TrackStop stops) ++ [OnClose]).
  { rewrite (proj1 (accept_hands_one_file c still canvas blob now Hs Hc)).
    unfold handleClose, stopCamera. simpl.
    destruct (videoRef c) as [video|]; [destruct (srcObject video) as [stream|] |].
    - exists stream. apply added_app. simpl. now rewrite <- !app_assoc.
    - exists []. apply added_app. simpl. now rewrite <- !app_assoc.
    - exists []. apply added_app. simpl. now rewrite <- !app_assoc. }
  destruct Hclose as [stops3 ->].
  rewrite !deliver_all_app.
  change (deliver_all (Some slot) (ToBlob "image/jpeg" 0.9%float :: map TrackStop stops'')
            (openCamera slot st))
    with (deliver_all (Some slot) (map TrackStop stops'') (openCamera slot st)).
  change (deliver_all (Some slot) (ToBlob "image/jpeg" 0.9%float :: map TrackStop stops3)
            (openCamera slot st))
    with (deliver_all (Some slot) (map TrackStop stops3) (openCamera slot st)).
  rewrite !deliver_all_stops.
  unfold deliver_all, deliver, handleCameraCapture, openCamera, closeCamera. simpl.
  destruct (String.eqb_spec slot "") as [|_]; [contradiction |]. simpl.
  split; [| split; [now repeat split |]].
  - split; [apply obj_get_set_eq |]. split; [| now repeat split].
    intros other Ho. apply obj_get_set_ne. congruence.
  - split; [reflexivity |]. split; [reflexivity |].
    split; [apply obj_get_set_eq |]. split; [| now repeat split].
    intros other Ho. apply obj_get_set_ne. congruence.
Qed.

(** X16 from the sample preview, with "selfie" already staged: accept, then
    cancel, then the blob. *)
Lemma camera_hands_over_witness :
  let st := mkApp [] false [("selfie", VFile png_file)] [] false None [] [] [] in
  let late :=
    deliver_all (Some "acknowledgement")
      (added previewing
         (toBlob_callback (Some [255; 216; 255]) 1752825492000
            (handleClose (fst (confirmCapture previewing)))))
      (openCamera "acknowledgement" st) in
  obj_get (fileList late) "acknowledgement"
  = Some (VFile (mkFile [255; 216; 255] "cnic-1752825492000.jpg" "image/jpeg")) /\
  showCamera late = false.
Proof.
  cbv zeta.
  destruct (proj2 (proj2
              (camera_hands_over "acknowledgement"
                 (mkApp [] false [("selfie", VFile png_file)] [] false None [] [] [])
                 previewing streaming
                 (mkStill "image/jpeg" 0.9%float 856 540
                    [mkDraw (mapped_overlay (num 1920) (num 1080) (num 600) (num 338))
                            output_rect])
                 (mkCanvas 856 540
                    [mkDraw (mapped_overlay (num 1920) (num 1080) (num 600) (num 338))
                            output_rect])
                 [255; 216; 255] 1752825492000
                 ltac:(discriminate) eq_refl eq_refl)))
    as (_ & _ & H3 & _ & _ & H6 & _).
  split; [exact H3 | exact H6].
Defined.

(** ** The camera: retry and retake *)

(** X17. From the error view of ImageUploader.jsx (no preview pending),
    "Try Again" clears the error, brings back a new [<video>] element and issues one
    [getUserMedia] request, without stopping any track that is still live.
    When the request then resolves, the metadata loads and [play()]
    resolves, the flow is streaming on the new stream: no error, the new
    stream attached, its tracks live beside whatever was live before. *)
Theorem try_again_restarts (c : Cam) (msg : string) (stream : Stream) :
  error c = Some msg -> showPreview c = false -> videoRef c = None ->
  let c1 := ImageUploader.step EvClickTryAgain c in
  let c2 := ImageUploader.run
              [EvGetUserMediaResolved stream; EvLoadedMetadata; EvPlayResolved] c1 in
  (error c1 = None /\ isStreaming c1 = false /\ videoRef c1 = Some fresh_video /\
   added c c1 = [GetUserMedia] /\ live_tracks c1 = live_tracks c) /\
  (error c2 = None /\ isStreaming c2 = true /\
   videoRef c2 = Some (set_handlers true (set_srcObject (Some stream) fresh_video)) /\
   added c1 c2 = [Play] /\ live_tracks c2 = live_tracks c ++ stream).
Proof.
  intros He Hp Hv. destruct c as [v cv s e ci sp lt ef].
  simpl in He, Hp, Hv. subst v e sp. cbv zeta.
  split; (split; [reflexivity |]; split; [reflexivity |]; split; [reflexivity |];
          split; [now apply added_app | reflexivity]).
Qed.

(** X17 from the camera whose first request was refused. *)
Lemma try_again_restarts_witness :
  error refused = Some "Unable to access camera. Please check permissions." /\
  let c2 := ImageUploader.run
              [EvClickTryAgain; EvGetUserMediaResolved [9%nat]; EvLoadedMetadata;
               EvPlayResolved] refused in
  error c2 = None /\ isStreaming c2 = true /\ live_tracks c2 = [9%nat].
Proof.
  split; [reflexivity |].
  destruct (try_again_restarts refused
              "Unable to access camera. Please check permissions." [9%nat]
              eq_refl eq_refl eq_refl) as [_ (H1 & H2 & _ & _ & H5)].
  split; [exact H1 |]. split; [exact H2 | exact H5].
Defined.

(** X18. Retake from the preview. In both copies the still is dropped, the
    camera view returns with a new [<video>] element that holds no stream,
    and nothing is signalled to the parent. ImageUploader.jsx schedules
    [startCamera], whose timer then issues a [getUserMedia] request. The
    older copy schedules nothing and requests nothing, and keeps its
    streaming flag: if the flag was up, the Capture button is enabled over
    a video without a stream, and pressing it yields no image and only
    schedules a retry. *)
Theorem retake_restart (c : Cam) (canvas : Canvas) :
  error c = None -> showPreview c = true -> videoRef c = None ->
  canvasRef c = Some canvas ->
  let new := ImageUploader.step EvClickRetake c in
  let old := Part000.step EvClickRetake c in
  (capturedImage new = None /\ showPreview new = false /\
   videoRef new = Some fresh_video /\
   added c new = [SetTimeout "startCamera" 100] /\
   added new (ImageUploader.step (EvTimer "startCamera") new) = [GetUserMedia]) /\
  (capturedImage old = None /\ showPreview old = false /\
   videoRef old = Some fresh_video /\
   effects old = effects c /\ isStreaming old = isStreaming c /\
   live_tracks old = live_tracks c /\
   (isStreaming c = true ->
    forall env,
      capturedImage (Part000.step (EvClickCapture env) old) = None /\
      added old (Part000.step (EvClickCapture env) old)
      = [SetTimeout "captureImage" 100])).
Proof.
  intros He Hp Hv Hc. destruct c as [v cv s e ci sp lt ef].
  simpl in He, Hp, Hv, Hc. subst v cv e sp. cbv zeta.
  split.
  - split; [reflexivity |]. split; [reflexivity |]. split; [reflexivity |].
    split; now apply added_app.
  - do 6 (split; [reflexivity |]). simpl. intros Hs env. subst s.
    split; [reflexivity | now apply added_app].
Qed.

(** X18 from the sample previews of the two copies. *)
Lemma retake_restart_witness :
  added previewing (ImageUploader.step EvClickRetake previewing)
  = [SetTimeout "startCamera" 100] /\
  videoRef (ImageUploader.step EvClickRetake previewing) = Some fresh_video.
Proof.
  destruct (retake_restart previewing
              (mkCanvas 856 540
                 [mkDraw (mapped_overlay (num 1920) (num 1080) (num 600) (num 338))
                         output_rect])
              eq_refl eq_refl eq_refl eq_refl) as [(_ & _ & H3 & H4 & _) _].
  split; [exact H4 | exact H3].
Defined.

(** ** The older page: staging and previews *)

Lemma old_settles_pick (slot : string) (now : Z) (info : UploadFile) (st : AppState) :
  binary_pick info = true -> settles st ->
  settles (fst (Part000.handleFileChange slot now info st)).
Proof.
  unfold binary_pick, Part000.handleFileChange. intros Hb H.
  destruct (is_uploading info); [exact H |].
  rewrite orb_false_l in Hb. cbn [negb].
  unfold stage_and_preview, convert_data_url.
  destruct (origin_or_self info) as [| |b|n|s|f]; try discriminate Hb.
  - rewrite Hb.
    destruct (base64ToFile s (slot +:+ "-" +:+ pretty now +:+ ".jpg")) as [f|e];
      cbn [cbind]; [now apply settles_stage | exact H].
  - now apply settles_stage.
Qed.

Lemma old_settles_step (ev : page_event) (rest : list page_event) (st : AppState) :
  settles st -> old_in_order (ev :: rest) st -> settles (old_page_step ev st).
Proof.
  intros H [Hev _]. destruct ev as [slot now info|slot|field file| |i|values|res];
    unfold old_page_step.
  - now apply old_settles_pick.
  - now apply (settles_ext st).
  - now apply settles_capture.
  - now apply (settles_ext st).
  - subst i. now apply settles_load.
  - now apply (settles_ext st).
  - unfold Part000.handleSubmit_end, response_json, response_text.
    destruct res as [r|e]; [| now apply (settles_ext st)].
    destruct (resp_ok r) eqn:Hok; [| now apply (settles_ext st)].
    assert (Hreset : settles (set_loading false (on_success st))).
    { intros t. simpl. rewrite (Hev Hok). simpl. discriminate. }
    destruct (resp_body_is_json r);
      first [exact Hreset | now apply (settles_ext st)].
Qed.

Lemma old_settles_run (evs : list page_event) (st : AppState) :
  settles st -> old_in_order evs st -> settles (old_page_run evs st).
Proof.
  unfold old_page_run. revert st.
  induction evs as [|ev rest IH]; intros st H Hord; [exact H |].
  simpl. apply IH; [exact (old_settles_step ev rest st H Hord) | exact (proj2 Hord)].
Qed.

(** X19. On the page of the older copy, where the picker stages without
    validating: start with nothing staged; if every pick is a file or a
    string that starts with "data:", the preview reads complete in the
    order they were started, and no successful submission settles while a
    read is in flight, then whenever no read is in flight every preview is
    the encoding of the file staged for its slot. *)
Theorem old_preview_matches_staged (fields : jsobj value) (evs : list page_event) :
  old_in_order evs (initial_app fields) ->
  readers (old_page_run evs (initial_app fields)) = [] ->
  consistent (old_page_run evs (initial_app fields)).
Proof.
  intros Hord Hdone slot url Hurl.
  assert (Hs : settles (old_page_run evs (initial_app fields))).
  { apply old_settles_run; [| exact Hord]. intros t. simpl. discriminate. }
  specialize (Hs slot). rewrite Hdone in Hs. simpl in Hs. now apply Hs.
Qed.

(** X19 on a PNG picked for one slot and a data URL picked for another. *)
Lemma old_preview_matches_staged_witness :
  old_in_order two_picks (initial_app []) /\
  fileList (old_page_run two_picks (initial_app []))
  = [("acknowledgement", VFile png_file);
     ("selfie", VFile (mkFile [255; 216; 255] "selfie-5.jpg" "image/jpeg"))] /\
  consistent (old_page_run two_picks (initial_app [])).
Proof.
  assert (Ho : old_in_order two_picks (initial_app [])) by (simpl; tauto).
  split; [exact Ho |]. split; [reflexivity |].
  exact (old_preview_matches_staged [] two_picks Ho eq_refl).
Defined.

(** ** The camera: tracks that lose their video element *)

Lemma orphan_ext (t : nat) (c c' : Cam) :
  live_tracks c' = live_tracks c ->
  (videoRef c' = videoRef c \/ videoRef c' = None \/ videoRef c' = Some fresh_video) ->
  orphan t c -> orphan t c'.
Proof.
  unfold orphan. intros -> Hv [Hl Hs]. split; [exact Hl |].
  destruct Hv as [-> | [-> | ->]]; [exact Hs | discriminate |].
  intros v s [= <-]. discriminate.
Qed.

Lemma orphan_stopCamera (t : nat) (c : Cam) : orphan t c -> orphan t (stopCamera c).
Proof.
  intros H. unfold stopCamera.
  destruct (videoRef c) as [video|] eqn:Hv; [| exact H].
  destruct (srcObject video) as [stream|] eqn:Hst; [| exact H].
  destruct H as [Hl Hs]. split.
  - change (In t (live_tracks (stop_tracks stream c))).
    apply live_after_stop. split; [exact Hl | exact (Hs video stream Hv Hst)].
  - simpl. intros v s [= <-]. discriminate.
Qed.

Lemma orphan_emit (t : nat) (x : list cam_effect) (c : Cam) :
  orphan t c -> orphan t (emit x c).
Proof. intros H. apply (orphan_ext t c); auto. Qed.

Lemma orphan_commit (t : nat) (c : Cam) : orphan t c -> orphan t (commit c).
Proof.
  intros H. unfold commit. destruct (video_rendered c).
  - destruct (videoRef c); [exact H |]. apply (orphan_ext t c); auto.
  - apply (orphan_ext t c); auto.
Qed.

Lemma captureImage_frame (env : try_result) (c : Cam) :
  (live_tracks (ImageUploader.captureImage env c) = live_tracks c /\
   videoRef (ImageUploader.captureImage env c) = videoRef c) /\
  (live_tracks (Part000.captureImage env c) = live_tracks c /\
   videoRef (Part000.captureImage env c) = videoRef c).
Proof.
  unfold ImageUploader.captureImage, Part000.captureImage.
  destruct (videoRef c) as [video|] eqn:Hv; [| now repeat split].
  destruct (canvasRef c) as [canvas|]; [| now repeat split].
  destruct (negb (readyState video =? HAVE_ENOUGH_DATA)); [now repeat split |].
  split;
    match goal with
    | |- context [if ?b then _ else _] =>
        destruct b; [now split | destruct env; now split]
    end.
Qed.

Lemma orphan_resolved (t : nat) (stream : Stream) (c : Cam) :
  ~ In t stream -> orphan t c ->
  orphan t (ImageUploader.startCamera_resolved stream c) /\
  orphan t (Part000.startCamera_resolved stream c).
Proof.
  intros Hn [Hl Hs].
  unfold ImageUploader.startCamera_resolved, Part000.startCamera_resolved.
  cbn [videoRef set_live_tracks].
  destruct (videoRef c) as [video|] eqn:Hv; split; split; cbn;
    try (apply in_or_app; now left);
    try (intros v s [= <-] [= <-]; exact Hn);
    try (rewrite Hv; discriminate).
Qed.

Lemma orphan_begin (t : nat) (c : Cam) :
  orphan t c ->
  orphan t (ImageUploader.startCamera_begin c) /\ orphan t (Part000.startCamera_begin c).
Proof.
  intros H. split; [| apply orphan_emit, (orphan_ext t c); auto].
  assert (H' : orphan t (setIsStreaming false (setError None c)))
    by (apply (orphan_ext t c); auto).
  unfold ImageUploader.startCamera_begin. apply orphan_emit.
  cbn zeta. change (videoRef (setIsStreaming false (setError None c))) with (videoRef c).
  destruct (videoRef c) as [video|] eqn:Hv; [| exact H'].
  destruct (srcObject video) as [stream|] eqn:Hst; [| exact H'].
  destruct H as [Hl Hs]. split.
  - change (In t (live_tracks (stop_tracks stream (setIsStreaming false (setError None c))))).
    apply live_after_stop. split; [exact Hl | exact (Hs video stream Hv Hst)].
  - simpl. intros v s [= <-]. discriminate.
Qed.

Lemma orphan_props (t : nat) (r w h cw ch : Z) (c : Cam) :
  orphan t c -> orphan t (video_props r w h cw ch c).
Proof.
  intros H. unfold video_props.
  destruct (videoRef c) as [video|] eqn:Hv; [| exact H].
  destruct H as [Hl Hs].
  split; [exact Hl |]. simpl. intros v s [= <-] Hst. exact (Hs video s Hv Hst).
Qed.

Lemma orphan_step (t : nat) (ev : cam_event) (c : Cam) :
  (forall stream, ev = EvGetUserMediaResolved stream -> ~ In t stream) ->
  orphan t c ->
  orphan t (ImageUploader.step ev c) /\ orphan t (Part000.step ev c).
Proof.
  intros Hev H. unfold ImageUploader.step, Part000.step. cbv zeta.
  assert (Hsame : forall c', live_tracks c' = live_tracks c -> videoRef c' = videoRef c ->
                             orphan t c')
    by (intros c' Hl Hv; apply (orphan_ext t c); auto).
  assert (Hif : forall (b : bool) c', orphan t c' -> orphan t (if b then c' else c))
    by (intros [|] c' H'; [exact H' | exact H]).
  assert (Hconfirm : orphan t (fst (confirmCapture c))).
  { unfold confirmCapture. destruct (capturedImage c); [| exact H].
    destruct (canvasRef c); [now apply orphan_emit | exact H]. }
  assert (Hblob : forall blob now, orphan t (toBlob_callback blob now c))
    by (intros blob now; now apply orphan_stopCamera, orphan_emit).
  assert (Hclose : orphan t (handleClose c))
    by (now apply orphan_emit, orphan_stopCamera).
  split; apply orphan_commit;
    destruct ev as [stream| |r w h cw ch| | | | |env| |blob now| |cb| |];
    cbv beta iota;
    try exact H; try exact Hclose; try apply Hblob; try (apply Hif; exact Hconfirm);
    try (now apply orphan_props);
    try (now apply orphan_resolved; [apply Hev |]);
    try (apply Hif; exact (proj1 (orphan_begin t c H)));
    try (apply Hif; exact (proj2 (orphan_begin t c H)));
    try (apply Hif; apply Hsame; now apply captureImage_frame);
    try (apply Hif); try (now apply Hsame).
  - unfold ImageUploader.onloadedmetadata.
    destruct (videoRef c) as [video|]; [| exact H].
    destruct (handlers video); [now apply orphan_emit | exact H].
  - unfold ImageUploader.onerror.
    destruct (videoRef c) as [video|] eqn:Hv; [| exact H].
    destruct (handlers video); [apply Hsame; [reflexivity | exact Hv] | exact H].
  - unfold Part000.onloadedmetadata.
    destruct (videoRef c) as [video|] eqn:Hv; [| exact H].
    destruct (handlers video); [apply Hsame; [reflexivity | exact Hv] | exact H].
Qed.

Lemma never_reacquired_cons (t : nat) (ev : cam_event) (evs : list cam_event) :
  never_reacquired t (ev :: evs) ->
  (forall stream, ev = EvGetUserMediaResolved stream -> ~ In t stream)
  /\ never_reacquired t evs.
Proof.
  unfold never_reacquired. intros H. split.
  - intros stream ->. apply H. now left.
  - intros stream Hin. apply H. now right.
Qed.

Lemma orphan_run (t : nat) (evs : list cam_event) (c : Cam) :
  never_reacquired t evs -> orphan t c -> orphan t (ImageUploader.run evs c).
Proof.
  unfold ImageUploader.run. revert c.
  induction evs as [|ev evs IH]; intros c Hn H; [exact H |].
  apply never_reacquired_cons in Hn as [Hev Hn].
  simpl. apply IH; [exact Hn |]. now apply orphan_step.
Qed.

Lemma old_orphan_run (t : nat) (evs : list cam_event) (c : Cam) :
  never_reacquired t evs -> orphan t c -> orphan t (Part000.run evs c).
Proof.
  unfold Part000.run. revert c.
  induction evs as [|ev evs IH]; intros c Hn H; [exact H |].
  apply never_reacquired_cons in Hn as [Hev Hn].
  simpl. apply IH; [exact Hn |]. now apply orphan_step.
Qed.

(** X20. A camera track that is live while the view on screen renders no
    [<video>] (the preview, the error message) can never be stopped by the
    component: whatever the user, the browser and the camera do afterwards
    (cancel, accept, retake, try again, new streams), in either copy, the
    track is still live, as long as no later stream carries the same
    track. The code reaches a stream only through the mounted element, and
    that element is gone. *)
Theorem lost_track_stays_live (t : nat) (c : Cam) (evs : list cam_event) :
  video_rendered c = false -> In t (live_tracks c) -> never_reacquired t evs ->
  In t (live_tracks (ImageUploader.run evs (commit c))) /\
  In t (live_tracks (Part000.run evs (commit c))).
Proof.
  intros Hr Hl Hn.
  assert (Ho : orphan t (commit c)).
  { split; [unfold commit; now rewrite Hr |].
    rewrite (commit_unmounts c Hr). discriminate. }
  split; [exact (proj1 (orphan_run t evs _ Hn Ho))
         | exact (proj1 (old_orphan_run t evs _ Hn Ho))].
Qed.

(** X20 from the sample preview: retake, a second stream, a second capture
    and cancel leave track 7 live. *)
Lemma lost_track_stays_live_witness :
  let evs := [EvClickRetake; EvTimer "startCamera"; EvGetUserMediaResolved [8%nat];
              EvVideoProps 4 1920 1080 600 338; EvLoadedMetadata; EvPlayResolved;
              EvClickCapture Draws; EvClickClose] in
  video_rendered previewing = false /\ never_reacquired 7 evs /\
  In 7%nat (live_tracks (ImageUploader.run evs (commit previewing))).
Proof.
  cbv zeta.
  assert (Hn : never_reacquired 7
            [EvClickRetake; EvTimer "startCamera"; EvGetUserMediaResolved [8%nat];
             EvVideoProps 4 1920 1080 600 338; EvLoadedMetadata; EvPlayResolved;
             EvClickCapture Draws; EvClickClose]).
  { intros stream Hin. simpl in Hin.
    destruct Hin as [H|[H|[H|[H|[H|[H|[H|[H|[]]]]]]]]]; try discriminate H.
    injection H as <-. intros [E|[]]. discriminate E. }
  split; [reflexivity |]. split; [exact Hn |].
  exact (proj1 (lost_track_stays_live 7 previewing _ eq_refl (or_introl eq_refl) Hn)).
Defined.

(** ** Preview reads for different slots *)

Lemma reader_load_at (pre post : list (string * File)) (s : string) (f : File)
    (st : AppState) :
  readers st = pre ++ (s, f) :: post ->
  reader_load (length pre) st
  = set_imagePreviews (obj_set s (readAsDataURL f) (imagePreviews st))
      (set_readers (pre ++ post) st).
Proof.
  intros H. unfold reader_load.
  rewrite H, (list_lookup_middle pre post (s, f) _ eq_refl), delete_middle.
  reflexivity.
Qed.

(** X21. Two preview reads started one after the other for different slots
    may complete in either order: the reads left in flight, the staged
    files and the preview found under every slot are the same both ways.
    (Only reads for one and the same slot race.) Completing a read that is
    not in flight changes nothing. *)
Theorem reads_for_other_slots_commute (pre post : list (string * File))
    (s1 s2 : string) (f1 f2 : File) (st : AppState) :
  readers st = pre ++ (s1, f1) :: (s2, f2) :: post -> s1 <> s2 ->
  let i := length pre in
  let first := reader_load i (reader_load i st) in
  let second := reader_load i (reader_load (S i) st) in
  readers first = pre ++ post /\ readers second = pre ++ post /\
  fileList first = fileList st /\ fileList second = fileList st /\
  (forall slot, obj_get (imagePreviews first) slot = obj_get (imagePreviews second) slot) /\
  obj_get (imagePreviews first) s1 = Some (readAsDataURL f1) /\
  obj_get (imagePreviews first) s2 = Some (readAsDataURL f2) /\
  reader_load (length (readers st)) st = st.
Proof.
  intros H Hne. cbv zeta.
  assert (parts : forall pre post s f st,
            readers st = pre ++ (s, f) :: post ->
            readers (reader_load (length pre) st) = pre ++ post /\
            imagePreviews (reader_load (length pre) st)
            = obj_set s (readAsDataURL f) (imagePreviews st) /\
            fileList (reader_load (length pre) st) = fileList st)
    by (intros * E; now rewrite (reader_load_at _ _ _ _ _ E)).
  destruct (parts pre ((s2, f2) :: post) s1 f1 st H) as (R1 & P1 & F1).
  destruct (parts pre post s2 f2 _ R1) as (R2 & P2 & F2).
  assert (H' : readers st = (pre ++ [(s1, f1)]) ++ (s2, f2) :: post)
    by (now rewrite <- app_assoc).
  destruct (parts (pre ++ [(s1, f1)]) post s2 f2 st H') as (R3 & P3 & F3).
  replace (length (pre ++ [(s1, f1)])) with (S (length pre)) in R3, P3, F3
    by (rewrite length_app; simpl; lia).
  rewrite <- app_assoc in R3. cbn [app] in R3.
  destruct (parts pre post s1 f1 _ R3) as (R4 & P4 & F4).
  split; [exact R2 |]. split; [exact R4 |].
  split; [now rewrite F2, F1 |]. split; [now rewrite F4, F3 |].
  rewrite P2, P1, P4, P3.
  split; [| split; [| split]].
  - intros slot.
    destruct (String.eqb_spec s1 slot) as [->|H1], (String.eqb_spec s2 slot) as [->|H2];
      try contradiction;
      rewrite ?obj_get_set_eq, ?(obj_get_set_ne _ _ _ _ H1), ?(obj_get_set_ne _ _ _ _ H2),
        ?obj_get_set_eq, ?(obj_get_set_ne _ _ _ _ H1), ?(obj_get_set_ne _ _ _ _ H2);
      reflexivity.
  - rewrite (obj_get_set_ne _ s2 s1 _ ltac:(congruence)). apply obj_get_set_eq.
  - apply obj_get_set_eq.
  - unfold reader_load. now rewrite lookup_ge_None_2.
Qed.

(** X21 on two captures staged for two slots. *)
Lemma reads_for_other_slots_commute_witness :
  let st := mkApp [] false [] [] false None
                  [("acknowledgement", capture_a); ("selfie", capture_b)] [] [] in
  obj_get (imagePreviews (reader_load 0 (reader_load 1 st))) "acknowledgement"
  = Some (readAsDataURL capture_a) /\
  readers (reader_load 0 (reader_load 1 st)) = [].
Proof.
  cbv zeta.
  destruct (reads_for_other_slots_commute [] [] "acknowledgement" "selfie"
              capture_a capture_b
              (mkApp [] false [] [] false None
                     [("acknowledgement", capture_a); ("selfie", capture_b)] [] [])
              eq_refl ltac:(discriminate)) as (_ & H2 & _ & _ & H5 & H6 & _).
  split; [| exact H2].
  exact (eq_trans (eq_sym (H5 "acknowledgement")) H6).
Defined.
